(** * The per-target frame session of xk6-browser (common/frame_session.go)

    A shallow embedding of [FrameSession]: its construction
    ([NewFrameSession] and the [init*] / [update*] / [emulate*] steps) and
    the handlers of the CDP events it consumes.  A method of the session is
    a computation on the session and on the world around it (the frame
    manager, the page, the connection, the loggers); a Go [error] result is
    an [option error]; a call of [k6Throw] and a nil dereference are
    outcomes of their own. *)

From Stdlib Require Import ZArith String List Bool Lia.
From stdpp Require Import base option gmap strings list.

Open Scope string_scope.
Open Scope Z_scope.

(** ** Go strings *)

Module GoStrings.

(** [strings.HasPrefix s p] *)
Fixpoint HasPrefix (s p : string) {struct p} : bool :=
  match p, s with
  | EmptyString, _ => true
  | String c p', String d s' => Ascii.eqb c d && HasPrefix s' p'
  | String _ _, EmptyString => false
  end.

(** [strings.Contains s substr] *)
Fixpoint Contains (s substr : string) : bool :=
  HasPrefix s substr ||
  match s with
  | EmptyString => false
  | String _ s' => Contains s' substr
  end.

End GoStrings.

(** ** Go errors *)

(** An error is either produced by a collaborator (the CDP connection, the
    network manager, the frame manager) or built by [fmt.Errorf] from a
    format that ends in [%w]. *)
Inductive error : Type :=
| errorString (text : string)
| wrapError (prefix : string) (cause : error).

(** [err.Error()] *)
Fixpoint Error (e : error) : string :=
  match e with
  | errorString s => s
  | wrapError p c => p +:+ Error c
  end.

(** [errors.Unwrap] *)
Definition Unwrap (e : error) : option error :=
  match e with
  | errorString _ => None
  | wrapError _ c => Some c
  end.

(** ** Identifiers and protocol data *)

Definition FrameID := string.              (* cdp.FrameID *)
Definition TargetID := string.             (* target.ID *)
Definition SessionID := string.            (* target.SessionID *)
Definition ExecutionContextID := Z.        (* runtime.ExecutionContextID, int64 *)
Definition WindowID := Z.                  (* browser.WindowID, int64 *)
Definition float64 := Z.                   (* the bits of a float64; only passed on *)

(** A point of time ([time.Time], also behind [cdp.MonotonicTime]) in
    nanoseconds; the zero value of [time.Time] is [0]. *)
Definition Time := Z.
Definition Duration := Z.                  (* time.Duration, int64 nanoseconds *)

Definition maxDuration : Duration := 2 ^ 63 - 1.
Definition minDuration : Duration := - 2 ^ 63.

(** [t.Sub(u)]: the difference, saturated at the ends of [time.Duration]. *)
Definition time_Sub (t u : Time) : Duration :=
  if t - u <? minDuration then minDuration
  else if maxDuration <? t - u then maxDuration
  else t - u.

Definition utilityWorldName : string := "__k6_browser_utility_world__".

(** The two worlds of a frame ([mainExecutionContext] and
    [utilityExecutionContext]); the empty world name of
    [onExecutionContextCreated] is [None] of [option World_]. *)
Inductive World_ : Type := mainExecutionContext | utilityExecutionContext.

#[global] Instance World__eq_dec : EqDecision World_.
Proof. solve_decision. Defined.

Inductive LifecycleEvent : Type :=
| LifecycleEventLoad | LifecycleEventDOMContentLoad | LifecycleEventNetworkIdle.

Inductive Metric : Type :=
| BrowserLoaded | BrowserDOMContentLoaded
| BrowserFirstPaint | BrowserFirstContentfulPaint | BrowserFirstMeaningfulPaint.

(** [cdp.Frame], the fields the session reads. *)
Record CdpFrame : Type := {
  cf_ID : FrameID;
  cf_ParentID : FrameID;
  cf_LoaderID : string;
  cf_Name : string;
  cf_URL : string;
  cf_URLFragment : string;
}.

(** [page.FrameTree] *)
#[warnings="-register-all"]
Inductive FrameTree : Type :=
| FrameTreeNode (frame : CdpFrame) (childFrames : list FrameTree).

(** The CDP commands the session issues, with the parameters it sets. *)
Inductive Command : Type :=
| BrowserGetWindowForTarget (t : TargetID)
| BrowserSetWindowBounds (wid : WindowID) (width height : Z)
| PageEnable
| PageGetFrameTree
| PageSetLifecycleEventsEnabled (enabled : bool)
| PageCreateIsolatedWorld (f : FrameID) (worldName : string) (grantUniveralAccess : bool)
| PageAddScriptToEvaluateOnNewDocument (source worldName : string)
| PageSetBypassCSP (enabled : bool)
| DOMEnable
| LogEnable
| RuntimeEnable
| RuntimeRunIfWaitingForDebugger
| TargetSetAutoAttach (autoAttach waitForDebuggerOnStart flatten : bool)
| TargetDetachFromTarget (sid : SessionID)
| SecuritySetIgnoreCertificateErrors (ignore : bool)
| EmulationSetFocusEmulationEnabled (enabled : bool)
| EmulationSetTouchEmulationEnabled (enabled : bool)
| EmulationSetScriptExecutionDisabled (value : bool)
| EmulationSetUserAgentOverride (userAgent acceptLanguage : string)
| EmulationSetLocaleOverride (locale : string)
| EmulationSetTimezoneOverride (timezoneID : string)
| EmulationSetGeolocationOverride (latitude longitude accuracy : float64)
| EmulationSetDeviceMetricsOverride
    (width height : Z) (deviceScaleFactor : float64) (mobile : bool)
    (orientationAngle : Z) (orientationType : string) (screenWidth screenHeight : Z)
| EmulationSetEmulatedMedia (media : string) (features : list (string * string)).

(** What [%T] prints for the parameter struct of a command. *)
Definition typeName (c : Command) : string :=
  match c with
  | BrowserGetWindowForTarget _ => "*browser.GetWindowForTargetParams"
  | BrowserSetWindowBounds _ _ _ => "*browser.SetWindowBoundsParams"
  | PageEnable => "*page.EnableParams"
  | PageGetFrameTree => "*page.GetFrameTreeParams"
  | PageSetLifecycleEventsEnabled _ => "*page.SetLifecycleEventsEnabledParams"
  | PageCreateIsolatedWorld _ _ _ => "*page.CreateIsolatedWorldParams"
  | PageAddScriptToEvaluateOnNewDocument _ _ => "*page.AddScriptToEvaluateOnNewDocumentParams"
  | PageSetBypassCSP _ => "*page.SetBypassCSPParams"
  | DOMEnable => "*dom.EnableParams"
  | LogEnable => "*log.EnableParams"
  | RuntimeEnable => "*runtime.EnableParams"
  | RuntimeRunIfWaitingForDebugger => "*runtime.RunIfWaitingForDebuggerParams"
  | TargetSetAutoAttach _ _ _ => "*target.SetAutoAttachParams"
  | TargetDetachFromTarget _ => "*target.DetachFromTargetParams"
  | SecuritySetIgnoreCertificateErrors _ => "*security.SetIgnoreCertificateErrorsParams"
  | EmulationSetFocusEmulationEnabled _ => "*emulation.SetFocusEmulationEnabledParams"
  | EmulationSetTouchEmulationEnabled _ => "*emulation.SetTouchEmulationEnabledParams"
  | EmulationSetScriptExecutionDisabled _ => "*emulation.SetScriptExecutionDisabledParams"
  | EmulationSetUserAgentOverride _ _ => "*emulation.SetUserAgentOverrideParams"
  | EmulationSetLocaleOverride _ => "*emulation.SetLocaleOverrideParams"
  | EmulationSetTimezoneOverride _ => "*emulation.SetTimezoneOverrideParams"
  | EmulationSetGeolocationOverride _ _ _ => "*emulation.SetGeolocationOverrideParams"
  | EmulationSetDeviceMetricsOverride _ _ _ _ _ _ _ _ => "*emulation.SetDeviceMetricsOverrideParams"
  | EmulationSetEmulatedMedia _ _ => "*emulation.SetEmulatedMediaParams"
  end.

(** A command as it leaves on a session. *)
Definition Sent : Type := SessionID * Command.

(** ** Frames and their execution contexts *)

(** [ExecutionContext] as [NewExecutionContext] builds it: the session it
    evaluates on, the frame it belongs to (nil when the frame id of the
    event is unknown) and its id. *)
Record ExecutionContext : Type := {
  ec_session : SessionID;
  ec_frame : option FrameID;
  ec_id : ExecutionContextID;
}.

(** Modelled from the spec: the struct [Frame] of frame.go, which is not
    part of the sources at hand.  A frame has an id, a parent, a URL, a
    name, a loader id, its own lifecycle events, and at most one main and
    one utility execution context at a time. *)
Record Frame : Type := {
  frame_id : FrameID;
  frame_parentID : FrameID;
  frame_url : string;
  frame_name : string;
  frame_loaderID : string;
  frame_lifecycleEvents : list LifecycleEvent;
  frame_main : option ExecutionContext;
  frame_utility : option ExecutionContext;
}.

Definition frame_slot (w : World_) (f : Frame) : option ExecutionContext :=
  match w with
  | mainExecutionContext => frame_main f
  | utilityExecutionContext => frame_utility f
  end.

Definition frame_set_slot (w : World_) (c : option ExecutionContext) (f : Frame) : Frame :=
  match w with
  | mainExecutionContext =>
      {| frame_id := frame_id f; frame_parentID := frame_parentID f;
         frame_url := frame_url f; frame_name := frame_name f;
         frame_loaderID := frame_loaderID f;
         frame_lifecycleEvents := frame_lifecycleEvents f;
         frame_main := c; frame_utility := frame_utility f |}
  | utilityExecutionContext =>
      {| frame_id := frame_id f; frame_parentID := frame_parentID f;
         frame_url := frame_url f; frame_name := frame_name f;
         frame_loaderID := frame_loaderID f;
         frame_lifecycleEvents := frame_lifecycleEvents f;
         frame_main := frame_main f; frame_utility := c |}
  end.

(** Modelled from the spec: [Frame.hasContext], not part of the sources at
    hand.  The world is populated. *)
Definition hasContext (w : World_) (f : Frame) : bool :=
  match frame_slot w f with
  | Some _ => true
  | None => false
  end.

(** Modelled from the spec: [Frame.setContext], not part of the sources at
    hand.  The context is assigned to the world slot of the frame, first
    writer wins: a populated slot keeps its context. *)
Definition setContext (w : World_) (c : ExecutionContext) (f : Frame) : Frame :=
  match frame_slot w f with
  | Some _ => f
  | None => frame_set_slot w (Some c) f
  end.

Definition holds (slot : option ExecutionContext) (id : ExecutionContextID) : bool :=
  match slot with
  | Some c => ec_id c =? id
  | None => false
  end.

(** Modelled from the spec: [Frame.nullContext], not part of the sources at
    hand.  The world slot of the frame that holds the context of this id is
    cleared: the main world if it holds it, else the utility world if that
    one does. *)
Definition nullContext (id : ExecutionContextID) (f : Frame) : Frame :=
  if holds (frame_main f) id then frame_set_slot mainExecutionContext None f
  else if holds (frame_utility f) id then frame_set_slot utilityExecutionContext None f
  else f.

(** Modelled from the spec: the registry of [FrameManager], which is not
    part of the sources at hand: the frames by id.  A pointer to a frame is
    the id it is registered under (an id is not reused during a session). *)
Record FrameManager : Type := {
  frames : gmap FrameID Frame;
}.

(** Modelled from the spec: [FrameManager.getFrameByID]; nil is [None]. *)
Definition getFrameByID (m : FrameManager) (id : FrameID) : option Frame :=
  frames m !! id.

(** Modelled from the spec: [FrameManager.Frames], the frames of the
    registry. *)
Definition Frames (m : FrameManager) : list Frame :=
  (map_to_list (frames m)).*2.

(** A method that mutates the frame behind a pointer. *)
Definition updateFrame (id : FrameID) (g : Frame -> Frame) (m : FrameManager) : FrameManager :=
  {| frames := alter g id (frames m) |}.

(** ** The page, its options and the session *)

Record Geolocation : Type := {
  Latitude : float64;
  Longitude : float64;
  Accurracy : float64;
}.

Record Credentials : Type := {
  Username : string;
  Password : string;
}.

(** [BrowserContextOptions], the fields the session reads. *)
Record BrowserContextOptions : Type := {
  BypassCSP : bool;
  IgnoreHTTPSErrors : bool;
  HasTouch : bool;
  JavaScriptEnabled : bool;
  UserAgent : string;
  Locale : string;
  TimezoneID : string;
  Geolocation_ : option Geolocation;
  ExtraHTTPHeaders : gmap string string;
  HttpCredentials : option Credentials;
  Offline : bool;
  DeviceScaleFactor : float64;
  IsMobile : bool;
}.

Record Size : Type := { Width : Z; Height : Z }.

Record EmulatedSize : Type := { Viewport : Size; Screen : Size }.

Inductive ColorScheme : Type :=
| ColorSchemeLight | ColorSchemeDark | ColorSchemeNoPreference.

Inductive ReducedMotion : Type :=
| ReducedMotionReduce | ReducedMotionNoPreference.

(** [Page], the fields the session reads; the frame sessions and the
    workers of the page, which the session writes, are in [World]. *)
Record Page : Type := {
  page_targetID : TargetID;
  opts : BrowserContextOptions;        (* page.browserCtx.opts *)
  emulatedSize : option EmulatedSize;
  colorScheme : ColorScheme;
  reducedMotion : ReducedMotion;
  mediaType : string;
  extraHTTPHeaders : gmap string string;
  hasRoutes : bool;                    (* page.hasRoutes() *)
}.

(** [NetworkManager] is not part of the sources at hand; the session only
    holds it and calls it. *)
Record NetworkManager : Type := {
  nm_session : SessionID;
  nm_parent : option SessionID;
}.

(** The calls of the session on its network manager. *)
Inductive NetworkCall : Type :=
| SetExtraHTTPHeaders (headers : gmap string string)
| SetRequestInterception (value : bool)
| SetOfflineMode (offline : bool)
| Authenticate (credentials : option Credentials).

(** [FrameSession].  The context, the logger and the event channel are in
    [World]; the manager is the one of the page, in [World] too; the
    parent is named by its target. *)
Record FrameSession : Type := {
  session : SessionID;
  page : Page;
  parent : option TargetID;
  networkManager : option NetworkManager;
  targetID : TargetID;
  windowID : WindowID;
  initTime : Time;
  contextIDToContext : gmap ExecutionContextID ExecutionContext;
  isolatedWorlds : gmap string bool;
  childSessions : gmap FrameID TargetID;
}.

Definition set_networkManager (nm : option NetworkManager) (fs : FrameSession) : FrameSession :=
  {| session := session fs; page := page fs; parent := parent fs;
     networkManager := nm; targetID := targetID fs; windowID := windowID fs;
     initTime := initTime fs; contextIDToContext := contextIDToContext fs;
     isolatedWorlds := isolatedWorlds fs; childSessions := childSessions fs |}.

Definition set_windowID (wid : WindowID) (fs : FrameSession) : FrameSession :=
  {| session := session fs; page := page fs; parent := parent fs;
     networkManager := networkManager fs; targetID := targetID fs; windowID := wid;
     initTime := initTime fs; contextIDToContext := contextIDToContext fs;
     isolatedWorlds := isolatedWorlds fs; childSessions := childSessions fs |}.

Definition set_initTime (t : Time) (fs : FrameSession) : FrameSession :=
  {| session := session fs; page := page fs; parent := parent fs;
     networkManager := networkManager fs; targetID := targetID fs; windowID := windowID fs;
     initTime := t; contextIDToContext := contextIDToContext fs;
     isolatedWorlds := isolatedWorlds fs; childSessions := childSessions fs |}.

Definition set_contextIDToContext
    (m : gmap ExecutionContextID ExecutionContext) (fs : FrameSession) : FrameSession :=
  {| session := session fs; page := page fs; parent := parent fs;
     networkManager := networkManager fs; targetID := targetID fs; windowID := windowID fs;
     initTime := initTime fs; contextIDToContext := m;
     isolatedWorlds := isolatedWorlds fs; childSessions := childSessions fs |}.

Definition set_isolatedWorlds (m : gmap string bool) (fs : FrameSession) : FrameSession :=
  {| session := session fs; page := page fs; parent := parent fs;
     networkManager := networkManager fs; targetID := targetID fs; windowID := windowID fs;
     initTime := initTime fs; contextIDToContext := contextIDToContext fs;
     isolatedWorlds := m; childSessions := childSessions fs |}.

(** [Worker] as [NewWorker] builds it. *)
Record Worker : Type := {
  worker_session : SessionID;
  worker_targetID : TargetID;
  worker_url : string;
}.

(** ** Samples and log entries *)

(** [k6lib.State], the fields the session reads. *)
Record State : Type := {
  GroupPath : string;                  (* state.Group.Path *)
  Tags : gmap string string;           (* state.CloneTags() *)
  SystemTagURL : bool;                 (* state.Options.SystemTags.Has(k6stats.TagURL) *)
}.

(** [k6stats.Sample]; its [Time], the wall clock at emission, is left out. *)
Record Sample : Type := {
  sample_Metric : Metric;
  sample_Tags : gmap string string;
  sample_Value : float64;
}.

Inductive Level : Type := InfoLevel | WarnLevel | ErrorLevel | DebugLevel.

Definition RemoteObject := string.     (* runtime.RemoteObject, as received *)
Definition Parsed := string.           (* what parseRemoteObject makes of one *)

Inductive Field : Type :=
| FieldString (s : string)
| FieldInt (n : Z)
| FieldObjects (objects : list Parsed)
| FieldStackTrace (trace : option string).

(** A line of the logger: [serialized] tells the logger of the session
    that serializes remote objects from the plain one. *)
Record Entry : Type := {
  entry_serialized : bool;
  entry_Time : Time;
  entry_Level : Level;
  entry_Data : list (string * Field);
  entry_Message : string;
}.

(** ** The world a session runs in *)

Record World : Type := {
  manager : FrameManager;                       (* page.frameManager *)
  connected : bool;                             (* page.browserCtx.browser.connected *)
  ctxDone : bool;                               (* fs.ctx is done *)
  sessions : gset SessionID;                    (* the sessions of the connection *)
  sent : list Sent;                             (* commands of frame sessions, as sent *)
  subscriptions : list (SessionID * list string);   (* events forwarded to fs.eventCh *)
  networkCalls : list (SessionID * NetworkCall);    (* calls of fs.networkManager *)
  frameSessions : gmap FrameID FrameSession;    (* page.frameSessions *)
  workers : gmap SessionID Worker;              (* page.workers *)
  state : State;                                (* k6lib.GetState(fs.ctx) *)
  samples : list (list Sample);                 (* the containers pushed to state.Samples *)
  entries : list Entry;                         (* the lines handed to the loggers *)
  debug : list string;                          (* categories of fs.logger.Debugf *)
}.

Definition set_manager (m : FrameManager) (w : World) : World :=
  {| manager := m; connected := connected w; ctxDone := ctxDone w;
     sessions := sessions w; sent := sent w; subscriptions := subscriptions w;
     networkCalls := networkCalls w; frameSessions := frameSessions w;
     workers := workers w; state := state w; samples := samples w;
     entries := entries w; debug := debug w |}.

Definition set_sent (l : list Sent) (w : World) : World :=
  {| manager := manager w; connected := connected w; ctxDone := ctxDone w;
     sessions := sessions w; sent := l; subscriptions := subscriptions w;
     networkCalls := networkCalls w; frameSessions := frameSessions w;
     workers := workers w; state := state w; samples := samples w;
     entries := entries w; debug := debug w |}.

Definition set_subscriptions (l : list (SessionID * list string)) (w : World) : World :=
  {| manager := manager w; connected := connected w; ctxDone := ctxDone w;
     sessions := sessions w; sent := sent w; subscriptions := l;
     networkCalls := networkCalls w; frameSessions := frameSessions w;
     workers := workers w; state := state w; samples := samples w;
     entries := entries w; debug := debug w |}.

Definition set_networkCalls (l : list (SessionID * NetworkCall)) (w : World) : World :=
  {| manager := manager w; connected := connected w; ctxDone := ctxDone w;
     sessions := sessions w; sent := sent w; subscriptions := subscriptions w;
     networkCalls := l; frameSessions := frameSessions w;
     workers := workers w; state := state w; samples := samples w;
     entries := entries w; debug := debug w |}.

Definition set_frameSessions (m : gmap FrameID FrameSession) (w : World) : World :=
  {| manager := manager w; connected := connected w; ctxDone := ctxDone w;
     sessions := sessions w; sent := sent w; subscriptions := subscriptions w;
     networkCalls := networkCalls w; frameSessions := m;
     workers := workers w; state := state w; samples := samples w;
     entries := entries w; debug := debug w |}.

Definition set_workers (m : gmap SessionID Worker) (w : World) : World :=
  {| manager := manager w; connected := connected w; ctxDone := ctxDone w;
     sessions := sessions w; sent := sent w; subscriptions := subscriptions w;
     networkCalls := networkCalls w; frameSessions := frameSessions w;
     workers := m; state := state w; samples := samples w;
     entries := entries w; debug := debug w |}.

Definition set_samples (l : list (list Sample)) (w : World) : World :=
  {| manager := manager w; connected := connected w; ctxDone := ctxDone w;
     sessions := sessions w; sent := sent w; subscriptions := subscriptions w;
     networkCalls := networkCalls w; frameSessions := frameSessions w;
     workers := workers w; state := state w; samples := l;
     entries := entries w; debug := debug w |}.

Definition set_entries (l : list Entry) (w : World) : World :=
  {| manager := manager w; connected := connected w; ctxDone := ctxDone w;
     sessions := sessions w; sent := sent w; subscriptions := subscriptions w;
     networkCalls := networkCalls w; frameSessions := frameSessions w;
     workers := workers w; state := state w; samples := samples w;
     entries := l; debug := debug w |}.

Definition set_debug (l : list string) (w : World) : World :=
  {| manager := manager w; connected := connected w; ctxDone := ctxDone w;
     sessions := sessions w; sent := sent w; subscriptions := subscriptions w;
     networkCalls := networkCalls w; frameSessions := frameSessions w;
     workers := workers w; state := state w; samples := samples w;
     entries := entries w; debug := l |}.

(** ** Computations *)

(** How a Go call ends: it returns, or [k6Throw] raises a fatal error that
    ends the script run, or the runtime panics on a nil pointer. *)
Inductive Result (S A : Type) : Type :=
| Returned (a : A) (s : S)
| Thrown (e : error) (s : S)
| Panicked (s : S).

Arguments Returned {S A} a s.
Arguments Thrown {S A} e s.
Arguments Panicked {S A} s.

Definition Go (S A : Type) : Type := S -> Result S A.

Definition go_ret {S A} (a : A) : Go S A := fun s => Returned a s.

Definition go_bind {S A B} (m : Go S A) (k : A -> Go S B) : Go S B :=
  fun s =>
    match m s with
    | Returned a s' => k a s'
    | Thrown e s' => Thrown e s'
    | Panicked s' => Panicked s'
    end.

Declare Scope go_scope.
Delimit Scope go_scope with go.
Notation "x <- m ;; k" := (go_bind m (fun x => k))
  (at level 100, m at next level, right associativity) : go_scope.
Notation "m ;; k" := (go_bind m (fun _ => k))
  (at level 100, right associativity) : go_scope.
Notation "'return_' a" := (go_ret a) (at level 10) : go_scope.
Open Scope go_scope.

(** A method of [FrameSession] runs on its receiver and the world. *)
Definition Method (A : Type) : Type := Go (FrameSession * World) A.

Definition self : Method FrameSession := fun s => Returned (fst s) s.
Definition world : Method World := fun s => Returned (snd s) s.
Definition modify_self (g : FrameSession -> FrameSession) : Method unit :=
  fun s => Returned tt (g (fst s), snd s).
Definition modify_world (g : World -> World) : Method unit :=
  fun s => Returned tt (fst s, g (snd s)).

(** A nil pointer dereference. *)
Definition panic {S A} : Go S A := fun s => Panicked s.

(** [for _, x := range l { body }] *)
Definition forEach {S A} (body : A -> Go S unit) : list A -> Go S unit :=
  fix loop l :=
    match l with
    | [] => return_ tt
    | x :: l' => body x ;; loop l'
    end.

(** [for _, x := range l { if err := body; err != nil { return err } }] *)
Definition forEachErr {S A} (body : A -> Go S (option error)) : list A -> Go S (option error) :=
  fix loop l :=
    match l with
    | [] => return_ None
    | x :: l' =>
        err <- body x ;;
        match err with
        | Some e => return_ (Some e)
        | None => loop l'
        end
    end.

(** A call, from a method, of a function that runs on the world alone. *)
Definition call {A} (m : Go World A) : Method A :=
  fun s =>
    match m (snd s) with
    | Returned a w => Returned a (fst s, w)
    | Thrown e w => Thrown e (fst s, w)
    | Panicked w => Panicked (fst s, w)
    end.

(** ** Collaborators *)

(** The browser at the other end of the connection and the code of the
    repository outside frame_session.go that the session calls and the spec
    leaves open.  The reply of the browser to a command may depend on the
    commands sent before it. *)
Class Collaborators : Type := {
  (** the error, if any, of [action.Do] *)
  cdpDo : list Sent -> SessionID -> Command -> option error;
  (** the reply to [Browser.getWindowForTarget] *)
  cdpGetWindowForTarget : list Sent -> SessionID -> TargetID -> error + WindowID;
  (** the reply to [Page.getFrameTree]; the tree may be nil *)
  cdpGetFrameTree : list Sent -> SessionID -> error + option FrameTree;
  (** the constant of that name *)
  evaluationScriptURL : string;
  (** the error, if any, of [NewNetworkManager] *)
  newNetworkManagerErr : SessionID -> option error;
  (** the error, if any, of [NetworkManager.setRequestInterception] *)
  setRequestInterceptionErr : SessionID -> bool -> option error;
  (** the error, if any, of [NewWorker] *)
  newWorkerErr : SessionID -> TargetID -> string -> option error;
  (** the methods of [FrameManager] that change the frame tree *)
  frameAttached : FrameID -> FrameID -> FrameManager -> FrameManager;
  frameNavigated :
    FrameID -> FrameID -> string -> string -> string -> bool ->
    FrameManager -> FrameManager * option error;
  frameLifecycleEvent : FrameID -> LifecycleEvent -> FrameManager -> FrameManager;
  removeChildFramesRecursively : Frame -> FrameManager -> FrameManager;
  (** [parseRemoteObject] *)
  parseRemoteObject : RemoteObject -> Parsed * option error;
  (** what [handleParseRemoteObjectErr] writes to the logger *)
  parseErrorEntries : error -> list Entry;
  (** [k6stats.D] *)
  k6stats_D : Duration -> float64;
}.

Section FrameSession.

Context `{Collaborators}.

(** [fs.logger.Debugf(category, ...)]: the category is kept. *)
Definition debugf (category : string) : Method unit :=
  modify_world (fun w => set_debug (debug w ++ [category]) w).

(** Modelled from the spec: [k6Throw], not part of the sources at hand; the
    fatal escalation primitive that terminates the script run with a
    wrapped error. *)
Definition k6Throw {S A} (format : string) (err : error) : Go S A :=
  fun s => Thrown (wrapError format err) s.

(** [action.Do(cdp.WithExecutor(fs.ctx, fs.session))] for an action whose
    reply carries no data. *)
Definition Do (action : Command) : Method (option error) :=
  fs <- self ;;
  w <- world ;;
  modify_world (set_sent (sent w ++ [(session fs, action)])) ;;
  return_ (cdpDo (sent w) (session fs) action).

(** Modelled from the spec: [Session.ExecuteWithoutExpectationOnReply],
    not part of the sources at hand: the command is sent, fire and forget. *)
Definition ExecuteWithoutExpectationOnReply (sid : SessionID) (c : Command) : Method unit :=
  modify_world (fun w => set_sent (sent w ++ [(sid, c)]) w).

(** Modelled from the spec: [Session.on], not part of the sources at hand:
    a named subset of the events of the session is forwarded to the
    channel of the frame session. *)
Definition session_on (events : list string) : Method unit :=
  fs <- self ;;
  modify_world (fun w => set_subscriptions (subscriptions w ++ [(session fs, events)]) w).

(** A call of the network manager of the session; the manager is nil
    before [NewNetworkManager] has returned.  The call is recorded in
    [networkCalls]; what the manager sends for it is not modelled. *)
Definition callNetworkManager (c : NetworkCall) : Method unit :=
  fs <- self ;;
  match networkManager fs with
  | None => panic
  | Some nm => modify_world (fun w => set_networkCalls (networkCalls w ++ [(nm_session nm, c)]) w)
  end.

(** [fmt.Errorf(format + "%w", err)] for an optional error. *)
Definition Errorf (format : string) (err : error) : option error :=
  Some (wrapError format err).

Definition emulateLocale : Method (option error) :=
  fs <- self ;;
  err <- Do (EmulationSetLocaleOverride (Locale (opts (page fs)))) ;;
  match err with
  | Some e =>
      if GoStrings.Contains (Error e) "Another locale override is already in effect"
      then return_ None
      else return_ (Errorf "unable to set locale: " e)
  | None => return_ None
  end.

Definition emulateTimezone : Method (option error) :=
  fs <- self ;;
  err <- Do (EmulationSetTimezoneOverride (TimezoneID (opts (page fs)))) ;;
  match err with
  | Some e =>
      if GoStrings.Contains (Error e) "Timezone override is already in effect"
      then return_ None
      else return_ (Errorf "unable to set timezone ID: " e)
  | None => return_ None
  end.

Definition initDomains : Method (option error) :=
  let actions := [DOMEnable; LogEnable; RuntimeEnable; TargetSetAutoAttach true true true] in
  forEachErr (fun action =>
    err <- Do action ;;
    match err with
    | Some e => return_ (Errorf ("unable to execute " +:+ typeName action +:+ ": ") e)
    | None => return_ None
    end) actions.

Definition isMainFrame (fs : FrameSession) : bool :=
  bool_decide (targetID fs = page_targetID (page fs)).

Definition rendererEvents : list string :=
  [ "Log.entryAdded"; "Page.fileChooserOpened"; "Page.frameAttached";
    "Page.frameDetached"; "Page.frameNavigated"; "Page.frameRequestedNavigation";
    "Page.frameStartedLoading"; "Page.frameStoppedLoading";
    "Page.javascriptDialogOpening"; "Page.lifecycleEvent";
    "Page.navigatedWithinDocument"; "Runtime.consoleAPICalled";
    "Runtime.exceptionThrown"; "Runtime.executionContextCreated";
    "Runtime.executionContextDestroyed"; "Runtime.executionContextsCleared";
    "Target.attachedToTarget"; "Target.detachedFromTarget" ].

Definition initRendererEvents : Method unit :=
  debugf "NewFrameSession:initEvents:initRendererEvents" ;;
  session_on rendererEvents.

(** The loop that [initEvents] starts runs beside the construction and is
    not part of it: it hands each event to its handler below. *)
Definition initEvents : Method unit :=
  debugf "NewFrameSession:initEvents" ;;
  session_on ["Inspector.targetCrashed"] ;;
  fs <- self ;;
  if negb (isMainFrame fs) then initRendererEvents else return_ tt.

Definition onFrameAttached (frameID parentFrameID : FrameID) : Method unit :=
  debugf "NewFrameSession:onFrameAttached" ;;
  modify_world (fun w => set_manager (frameAttached frameID parentFrameID (manager w)) w).

Definition onFrameNavigated (frame : CdpFrame) (initial : bool) : Method unit :=
  debugf "NewFrameSession:onFrameNavigated" ;;
  w <- world ;;
  let r := frameNavigated (cf_ID frame) (cf_ParentID frame) (cf_LoaderID frame)
             (cf_Name frame) (cf_URL frame +:+ cf_URLFragment frame) initial (manager w) in
  modify_world (set_manager (fst r)) ;;
  match snd r with
  | Some err => k6Throw "cannot handle frame navigation: " err
  | None => return_ tt
  end.

Fixpoint handleFrameTree (frameTree : FrameTree) : Method unit :=
  match frameTree with
  | FrameTreeNode frame childFrames =>
      debugf "NewFrameSession:handleFrameTree" ;;
      (if negb (String.eqb (cf_ParentID frame) "")
       then onFrameAttached (cf_ID frame) (cf_ParentID frame)
       else return_ tt) ;;
      onFrameNavigated frame true ;;
      forEach handleFrameTree childFrames
  end.

(** [action2.Do] of [initFrameTree] *)
Definition GetFrameTree : Method (error + option FrameTree) :=
  fs <- self ;;
  w <- world ;;
  modify_world (set_sent (sent w ++ [(session fs, PageGetFrameTree)])) ;;
  return_ (cdpGetFrameTree (sent w) (session fs)).

Definition initFrameTree : Method (option error) :=
  debugf "NewFrameSession:initFrameTree" ;;
  err <- Do PageEnable ;;
  match err with
  | Some e => return_ (Errorf "unable to enable page domain: " e)
  | None =>
      r <- GetFrameTree ;;
      match r with
      | inl e => return_ (Errorf "unable to get page frame tree: " e)
      | inr frameTree =>
          fs <- self ;;
          if isMainFrame fs then
            match frameTree with
            | Some t => handleFrameTree t
            | None => debugf "NewFrameSession:handleFrameTree" ;; panic
            end ;;
            initRendererEvents ;;
            return_ None
          else return_ None
      end
  end.

Definition initIsolatedWorld (name : string) : Method (option error) :=
  debugf "NewFrameSession:initIsolatedWorld" ;;
  err <- Do (PageSetLifecycleEventsEnabled true) ;;
  match err with
  | Some e => return_ (Errorf "unable to enable page lifecycle events: " e)
  | None =>
      fs <- self ;;
      match isolatedWorlds fs !! name with
      | Some _ => debugf "NewFrameSession:initIsolatedWorld" ;; return_ None
      | None =>
          modify_self (set_isolatedWorlds (<[name := true]> (isolatedWorlds fs))) ;;
          w <- world ;;
          let frames :=
            if isMainFrame fs then Some <$> Frames (manager w)
            else [getFrameByID (manager w) (targetID fs)] in
          forEach (fun frame : option Frame =>
            match frame with
            | Some f =>
                ExecuteWithoutExpectationOnReply (session fs)
                  (PageCreateIsolatedWorld (frame_id f) name true)
            | None => panic
            end) frames ;;
          debugf "NewFrameSession:initIsolatedWorld:AddScriptToEvaluateOnNewDocument" ;;
          err <- Do (PageAddScriptToEvaluateOnNewDocument
                       ("//# sourceURL=" +:+ evaluationScriptURL) name) ;;
          match err with
          | Some e => return_ (Errorf "unable to add script to evaluate for isolated world: " e)
          | None => return_ None
          end
      end
  end.

Definition updateEmulateMedia (initial : bool) : Method (option error) :=
  debugf "NewFrameSession:updateEmulateMedia" ;;
  fs <- self ;;
  let features :=
    [ match colorScheme (page fs) with
      | ColorSchemeLight => ("prefers-color-scheme", "light")
      | ColorSchemeDark => ("prefers-color-scheme", "dark")
      | ColorSchemeNoPreference => ("prefers-color-scheme", "")
      end;
      match reducedMotion (page fs) with
      | ReducedMotionReduce => ("prefers-reduced-motion", "reduce")
      | ReducedMotionNoPreference => ("prefers-reduced-motion", "")
      end ] in
  let action := EmulationSetEmulatedMedia (mediaType (page fs)) features in
  err <- Do action ;;
  match err with
  | Some e => return_ (Errorf ("unable to execute " +:+ typeName action +:+ ": ") e)
  | None => return_ None
  end.

Definition updateExtraHTTPHeaders (initial : bool) : Method unit :=
  debugf "NewFrameSession:updateExtraHTTPHeaders" ;;
  fs <- self ;;
  (* headers of the page take precedence over the ones of the context *)
  let mergedHeaders := extraHTTPHeaders (page fs) ∪ ExtraHTTPHeaders (opts (page fs)) in
  if negb initial || (0 <? Z.of_nat (size mergedHeaders))
  then callNetworkManager (SetExtraHTTPHeaders mergedHeaders)
  else return_ tt.

Definition updateGeolocation (initial : bool) : Method (option error) :=
  debugf "NewFrameSession:updateGeolocation" ;;
  fs <- self ;;
  let geolocation := Geolocation_ (opts (page fs)) in
  if negb initial || bool_decide (geolocation <> None) then
    match geolocation with
    | None => panic
    | Some g =>
        err <- Do (EmulationSetGeolocationOverride (Latitude g) (Longitude g) (Accurracy g)) ;;
        match err with
        | Some e => return_ (Errorf "unable to set geolocation override: " e)
        | None => return_ None
        end
    end
  else return_ None.

Definition updateHttpCredentials (initial : bool) : Method unit :=
  debugf "NewFrameSession:updateHttpCredentials" ;;
  fs <- self ;;
  let credentials := HttpCredentials (opts (page fs)) in
  if negb initial || bool_decide (credentials <> None)
  then callNetworkManager (Authenticate credentials)
  else return_ tt.

Definition updateOffline (initial : bool) : Method unit :=
  debugf "NewFrameSession:updateOffline" ;;
  fs <- self ;;
  let offline := Offline (opts (page fs)) in
  if negb initial || offline
  then callNetworkManager (SetOfflineMode offline)
  else return_ tt.

Definition updateRequestInterception (initial : bool) : Method (option error) :=
  debugf "NewFrameSession:updateRequestInterception" ;;
  fs <- self ;;
  callNetworkManager (SetRequestInterception (hasRoutes (page fs))) ;;
  match networkManager fs with
  | Some nm => return_ (setRequestInterceptionErr (nm_session nm) (hasRoutes (page fs)))
  | None => panic
  end.

Definition updateViewport : Method (option error) :=
  debugf "NewFrameSession:updateViewport" ;;
  fs <- self ;;
  let opts := opts (page fs) in
  match emulatedSize (page fs) with
  | None => return_ None
  | Some emulatedSize =>
      let viewport := Viewport emulatedSize in
      let screen := Screen emulatedSize in
      let orientation :=
        if Height viewport <? Width viewport
        then (90, "landscapePrimary")
        else (0, "portraitPrimary") in
      err <- Do (EmulationSetDeviceMetricsOverride (Width viewport) (Height viewport)
                   (DeviceScaleFactor opts) (IsMobile opts)
                   (fst orientation) (snd orientation) (Width screen) (Height screen)) ;;
      match err with
      | Some e => return_ (Errorf "unable to emulate viewport: " e)
      | None =>
          fs <- self ;;
          err <- Do (BrowserSetWindowBounds (windowID fs) (Width viewport) (Height viewport)) ;;
          match err with
          | Some e => return_ (Errorf "unable to set window bounds: " e)
          | None => return_ None
          end
      end
  end.

(** [if err := m; err != nil { return err }] followed by [k] *)
Definition orReturn {S} (m : Go S (option error)) (k : Go S (option error)) : Go S (option error) :=
  err <- m ;;
  match err with
  | Some e => return_ (Some e)
  | None => k
  end.

Notation "'check' m ;; k" := (orReturn m k)
  (at level 100, m at next level, right associativity) : go_scope.

(** The same, with the line that [NewFrameSession] and [initOptions] log
    before they return the error. *)
Definition logged (category : string) (m : Method (option error)) : Method (option error) :=
  err <- m ;;
  match err with
  | Some e => debugf category ;; return_ (Some e)
  | None => return_ None
  end.

Definition initOptions : Method (option error) :=
  debugf "NewFrameSession:initOptions" ;;
  fs <- self ;;
  let opts := opts (page fs) in
  let optActions : list Command := [] in
  let optActions : list Command :=
    if isMainFrame fs then (optActions ++ [EmulationSetFocusEmulationEnabled true])%list
    else optActions in
  check (if isMainFrame fs
         then logged "NewFrameSession:initOptions:updateViewport" updateViewport
         else return_ None) ;;
  let optActions : list Command :=
    if BypassCSP opts then (optActions ++ [PageSetBypassCSP true])%list else optActions in
  let optActions : list Command :=
    if IgnoreHTTPSErrors opts then (optActions ++ [SecuritySetIgnoreCertificateErrors true])%list
    else optActions in
  let optActions : list Command :=
    if HasTouch opts then (optActions ++ [EmulationSetTouchEmulationEnabled true])%list
    else optActions in
  let optActions : list Command :=
    if negb (JavaScriptEnabled opts) then (optActions ++ [EmulationSetScriptExecutionDisabled true])%list
    else optActions in
  let optActions : list Command :=
    if negb (String.eqb (UserAgent opts) "") || negb (String.eqb (Locale opts) "")
    then (optActions ++ [EmulationSetUserAgentOverride (UserAgent opts) (Locale opts)])%list
    else optActions in
  check (if negb (String.eqb (Locale opts) "") then emulateLocale else return_ None) ;;
  check (if negb (String.eqb (TimezoneID opts) "") then emulateTimezone else return_ None) ;;
  check (updateGeolocation true) ;;
  updateExtraHTTPHeaders true ;;
  check (updateRequestInterception true) ;;
  updateOffline true ;;
  updateHttpCredentials true ;;
  check (updateEmulateMedia true) ;;
  let optActions : list Command := (optActions ++ [RuntimeRunIfWaitingForDebugger])%list in
  forEachErr (fun action =>
    err <- Do action ;;
    match err with
    | Some e => return_ (Errorf ("unable to execute " +:+ typeName action +:+ ": ") e)
    | None => return_ None
    end) optActions.

(** [action.Do] of [NewFrameSession] *)
Definition GetWindowForTarget (t : TargetID) : Method (error + WindowID) :=
  fs <- self ;;
  w <- world ;;
  modify_world (set_sent (sent w ++ [(session fs, BrowserGetWindowForTarget t)])) ;;
  return_ (cdpGetWindowForTarget (sent w) (session fs) t).

(** Modelled from the spec: [NewNetworkManager], not part of the sources at
    hand: it fails, or creates the network manager of the session, a child
    that inherits the manager of the parent.  The spec has the network
    manager as a collaborator: what it sends to the browser and what it
    listens to, on a channel of its own, is not modelled, and is not part
    of [sent] and [subscriptions]. *)
Definition NewNetworkManager (sess : SessionID) (parentNetworkManager : option NetworkManager)
    : Method (error + NetworkManager) :=
  return_ (match newNetworkManagerErr sess with
           | Some e => inl e
           | None =>
               inr {| nm_session := sess;
                      nm_parent := nm_session <$> parentNetworkManager |}
           end).

(** The body of [NewFrameSession], on the session under construction;
    [parentNetworkManager] is [fs.parent.networkManager]. *)
Definition construct (parentNetworkManager : option NetworkManager) : Method (option error) :=
  debugf "NewFrameSession" ;;
  fs <- self ;;
  r <- NewNetworkManager (session fs) parentNetworkManager ;;
  match r with
  | inl e =>
      debugf (match parent fs with
              | Some _ => "NewFrameSession:NewNetworkManager"
              | None => "NewFrameSession:NewNetworkManager#2"
              end) ;;
      return_ (Some e)
  | inr nm =>
      modify_self (set_networkManager (Some nm)) ;;
      r <- GetWindowForTarget (targetID fs) ;;
      match r with
      | inl e =>
          debugf "NewFrameSession:GetWindowForTarget" ;;
          return_ (Errorf "unable to get window ID: " e)
      | inr wid =>
          modify_self (set_windowID wid) ;;
          initEvents ;;
          check (logged "NewFrameSession:initFrameTree" initFrameTree) ;;
          check (logged "NewFrameSession:initIsolatedWorld"
                   (initIsolatedWorld utilityWorldName)) ;;
          check (logged "NewFrameSession:initDomains" initDomains) ;;
          check (logged "NewFrameSession:initOptions" initOptions) ;;
          debugf "NewFrameSession" ;;
          return_ None
      end
  end.

(** [NewFrameSession(ctx, session, page, parent, targetID, logger)]: the
    session is a pointer and may be nil; the result is the error or the
    new frame session. *)
Definition NewFrameSession
    (sess : option SessionID) (pg : Page) (parentFS : option FrameSession)
    (tid : TargetID) : Go World (error + FrameSession) :=
  fun w =>
    match sess with
    | None => Panicked w
    | Some sid =>
        let fs :=
          {| session := sid; page := pg; parent := targetID <$> parentFS;
             networkManager := None; targetID := tid; windowID := 0;
             initTime := 0; contextIDToContext := ∅; isolatedWorlds := ∅;
             childSessions := ∅ |} in
        match construct (parentFS ≫= networkManager) (fs, w) with
        | Returned None s => Returned (inr (fst s)) (snd s)
        | Returned (Some e) s => Returned (inl e) (snd s)
        | Thrown e s => Thrown e (snd s)
        | Panicked s => Panicked (snd s)
        end
    end.

(** ** Events *)

(** The auxiliary data of an execution context, decoded. *)
Record AuxData : Type := {
  aux_FrameID : FrameID;               (* json:"frameId" *)
  aux_IsDefault : bool;                (* json:"isDefault" *)
  aux_Type : string;                   (* json:"type" *)
}.

(** [runtime.EventExecutionContextCreated]; [created_AuxData] is what
    [json.Unmarshal] makes of [event.Context.AuxData]. *)
Record EventExecutionContextCreated : Type := {
  created_ID : ExecutionContextID;     (* event.Context.ID *)
  created_Name : string;               (* event.Context.Name *)
  created_AuxData : error + AuxData;
}.

(** [page.EventLifecycleEvent] *)
Record EventLifecycleEvent : Type := {
  lifecycle_FrameID : FrameID;
  lifecycle_Name : string;
  lifecycle_Timestamp : Time;
}.

(** [target.EventAttachedToTarget] *)
Record EventAttachedToTarget : Type := {
  attached_SessionID : SessionID;
  attached_TargetID : TargetID;        (* event.TargetInfo.TargetID *)
  attached_Type : string;              (* event.TargetInfo.Type *)
  attached_URL : string;               (* event.TargetInfo.URL *)
}.

(** [runtime.EventConsoleAPICalled] *)
Record EventConsoleAPICalled : Type := {
  console_Type : string;
  console_Args : list RemoteObject;
  console_Timestamp : Time;
}.

(** [log.Level]: the levels of an entry of the Log domain of the protocol;
    a level is the string of its name. *)
Inductive LogLevel : Type := LevelVerbose | LevelInfo | LevelWarning | LevelError.

Definition LogLevel_String (level : LogLevel) : string :=
  match level with
  | LevelVerbose => "verbose"
  | LevelInfo => "info"
  | LevelWarning => "warning"
  | LevelError => "error"
  end.

(** [log.EventEntryAdded] *)
Record EventEntryAdded : Type := {
  entry_Source : string;               (* event.Entry.Source.String() *)
  entry_LogLevel : LogLevel;           (* event.Entry.Level *)
  entry_Text : string;
  entry_Timestamp : Time;
  entry_URL : string;
  entry_LineNumber : Z;
  entry_StackTrace : option string;
}.

(** ** Handlers *)

(** [l.Info()], [l.Warn()], ... on an entry [l] of a logger *)
Definition logAt (serialized : bool) (t : Time) (data : list (string * Field))
    (level : Level) (message : string) : Method unit :=
  modify_world (fun w =>
    set_entries (entries w ++
      [ {| entry_serialized := serialized; entry_Time := t; entry_Level := level;
           entry_Data := data; entry_Message := message |} ]) w).

(** Modelled from the spec: [handleParseRemoteObjectErr], not part of the
    sources at hand.  A handler of a diagnostic event never escalates: the
    helper writes to the logger and returns. *)
Definition handleParseRemoteObjectErr (err : error) : Method unit :=
  modify_world (fun w => set_entries (entries w ++ parseErrorEntries err) w).

(** The loop of [onConsoleAPICalled] over [event.Args]. *)
Fixpoint parseArgs (args : list RemoteObject) (parsedObjects : list Parsed)
    : Method (list Parsed) :=
  match args with
  | [] => return_ parsedObjects
  | robj :: args' =>
      let r := parseRemoteObject robj in
      match snd r with
      | Some err => handleParseRemoteObjectErr err
      | None => return_ tt
      end ;;
      parseArgs args' (parsedObjects ++ [fst r])
  end.

Definition onConsoleAPICalled (event : EventConsoleAPICalled) : Method unit :=
  w <- world ;;
  let l : list (string * Field) := [("source", FieldString "browser-console-api")] in
  let l : list (string * Field) :=
    if negb (String.eqb (GroupPath (state w)) "")
    then (l ++ [("group", FieldString (GroupPath (state w)))])%list
    else l in
  parsedObjects <- parseArgs (console_Args event) [] ;;
  let l : list (string * Field) := (l ++ [("objects", FieldObjects parsedObjects)])%list in
  if String.eqb (console_Type event) "log" || String.eqb (console_Type event) "info" then
    logAt true (console_Timestamp event) l InfoLevel ""
  else if String.eqb (console_Type event) "warning" then
    logAt true (console_Timestamp event) l WarnLevel ""
  else if String.eqb (console_Type event) "error" then
    logAt true (console_Timestamp event) l ErrorLevel ""
  else
    logAt true (console_Timestamp event) l DebugLevel "".

Definition onExecutionContextCreated (event : EventExecutionContextCreated) : Method unit :=
  debugf "NewFrameSession:onExecutionContextCreated" ;;
  match created_AuxData event with
  | inl err => k6Throw "unable to unmarshal JSON: " err
  | inr i =>
      fs <- self ;;
      w <- world ;;
      let frame := getFrameByID (manager w) (aux_FrameID i) in
      let world_ : option World_ :=
        match frame with
        | Some f =>
            if aux_IsDefault i then Some mainExecutionContext
            else if String.eqb (created_Name event) utilityWorldName
                    && negb (hasContext utilityExecutionContext f)
            then Some utilityExecutionContext
            else None
        | None => None
        end in
      (if String.eqb (aux_Type i) "isolated"
       then modify_self (fun fs =>
              set_isolatedWorlds (<[created_Name event := true]> (isolatedWorlds fs)) fs)
       else return_ tt) ;;
      let context :=
        {| ec_session := session fs;
           ec_frame := match frame with Some _ => Some (aux_FrameID i) | None => None end;
           ec_id := created_ID event |} in
      match world_ with
      | Some wd =>
          modify_world (fun w =>
            set_manager (updateFrame (aux_FrameID i) (setContext wd context) (manager w)) w)
      | None => return_ tt
      end ;;
      modify_self (fun fs =>
        set_contextIDToContext (<[created_ID event := context]> (contextIDToContext fs)) fs)
  end.

(** [context.Frame().nullContext(id)] when the context has a frame *)
Definition nullFrameContext (context : ExecutionContext) (id : ExecutionContextID) : Method unit :=
  match ec_frame context with
  | Some f => modify_world (fun w => set_manager (updateFrame f (nullContext id) (manager w)) w)
  | None => return_ tt
  end.

Definition onExecutionContextDestroyed (execCtxID : ExecutionContextID) : Method unit :=
  debugf "NewFrameSession:onExecutionContextDestroyed" ;;
  fs <- self ;;
  match contextIDToContext fs !! execCtxID with
  | None => return_ tt
  | Some context =>
      nullFrameContext context execCtxID ;;
      modify_self (fun fs =>
        set_contextIDToContext (delete execCtxID (contextIDToContext fs)) fs)
  end.

(** The two loops of [onExecutionContextsCleared], over the entries of the
    map in the orders in which the two [range] statements visit them. *)
Definition clearContexts
    (first second : list (ExecutionContextID * ExecutionContext)) : Method unit :=
  forEach (fun kv => nullFrameContext (snd kv) (ec_id (snd kv))) first ;;
  forEach (fun kv =>
    modify_self (fun fs =>
      set_contextIDToContext (delete (fst kv) (contextIDToContext fs)) fs)) second.

(** Go leaves the order in which [range] visits a map open; this is the
    handler with the order of [map_to_list]. *)
Definition onExecutionContextsCleared : Method unit :=
  debugf "NewFrameSession:onExecutionContextsCleared" ;;
  fs <- self ;;
  clearContexts (map_to_list (contextIDToContext fs)) (map_to_list (contextIDToContext fs)).

Definition onLogEntryAdded (event : EventEntryAdded) : Method unit :=
  w <- world ;;
  let l : list (string * Field) :=
    [ ("source", FieldString "browser");
      ("url", FieldString (entry_URL event));
      ("browser_source", FieldString (entry_Source event));
      ("line_number", FieldInt (entry_LineNumber event)) ] in
  let l : list (string * Field) :=
    if negb (String.eqb (GroupPath (state w)) "")
    then (l ++ [("group", FieldString (GroupPath (state w)))])%list
    else l in
  if String.eqb (LogLevel_String (entry_LogLevel event)) "info" then
    logAt false (entry_Timestamp event) l InfoLevel (entry_Text event)
  else if String.eqb (LogLevel_String (entry_LogLevel event)) "warning" then
    logAt false (entry_Timestamp event) l WarnLevel (entry_Text event)
  else if String.eqb (LogLevel_String (entry_LogLevel event)) "error" then
    logAt false (entry_Timestamp event)
      (l ++ [("stacktrace", FieldStackTrace (entry_StackTrace event))])%list
      ErrorLevel (entry_Text event)
  else
    logAt false (entry_Timestamp event) l DebugLevel (entry_Text event).

(** [k6stats.PushIfNotDone(fs.ctx, state.Samples, container)] *)
Definition PushIfNotDone (container : list Sample) : Method unit :=
  modify_world (fun w =>
    if ctxDone w then w else set_samples (samples w ++ [container]) w).

(** The block that the branches of [onPageLifecycle] repeat once a frame
    is found: one sample of the metric, from the init time of the session
    to the time of the event. *)
Definition pushDuration (metric : Metric) (frame : Frame) (event : EventLifecycleEvent)
    : Method unit :=
  fs <- self ;;
  w <- world ;;
  let endTime := lifecycle_Timestamp event in
  let tags := Tags (state w) in
  let tags := if SystemTagURL (state w) then <["url" := frame_url frame]> tags else tags in
  PushIfNotDone
    [ {| sample_Metric := metric; sample_Tags := tags;
         sample_Value := k6stats_D (time_Sub endTime (initTime fs)) |} ].

Definition eventToMetric (name : string) : option Metric :=
  if String.eqb name "firstPaint" then Some BrowserFirstPaint
  else if String.eqb name "firstContentfulPaint" then Some BrowserFirstContentfulPaint
  else if String.eqb name "firstMeaningfulPaint" then Some BrowserFirstMeaningfulPaint
  else None.

Definition onPageLifecycle (event : EventLifecycleEvent) : Method unit :=
  debugf "NewFrameSession:onPageLifecycle" ;;
  (if String.eqb (lifecycle_Name event) "init" || String.eqb (lifecycle_Name event) "commit"
   then modify_self (set_initTime (lifecycle_Timestamp event))
   else return_ tt) ;;
  if String.eqb (lifecycle_Name event) "load" then
    modify_world (fun w =>
      set_manager (frameLifecycleEvent (lifecycle_FrameID event) LifecycleEventLoad (manager w)) w) ;;
    w <- world ;;
    match getFrameByID (manager w) (lifecycle_FrameID event) with
    | Some frame => pushDuration BrowserLoaded frame event
    | None => return_ tt
    end
  else if String.eqb (lifecycle_Name event) "DOMContentLoaded" then
    modify_world (fun w =>
      set_manager
        (frameLifecycleEvent (lifecycle_FrameID event) LifecycleEventDOMContentLoad (manager w)) w) ;;
    w <- world ;;
    match getFrameByID (manager w) (lifecycle_FrameID event) with
    | Some frame => pushDuration BrowserDOMContentLoaded frame event
    | None => return_ tt
    end
  else
    w <- world ;;
    match getFrameByID (manager w) (lifecycle_FrameID event) with
    | Some frame =>
        match eventToMetric (lifecycle_Name event) with
        | Some metric => pushDuration metric frame event
        | None => return_ tt
        end
    | None => return_ tt
    end.

(** Modelled from the spec: [Connection.getSession], not part of the
    sources at hand: the session of that id, nil when there is none. *)
Definition getSession (w : World) (sid : SessionID) : option SessionID :=
  if decide (sid ∈ sessions w) then Some sid else None.

(** Modelled from the spec: [Page.attachFrameSession], not part of the
    sources at hand: the frame session is registered under the frame id. *)
Definition attachFrameSession (fid : FrameID) (frameSession : FrameSession) : Method unit :=
  modify_world (fun w => set_frameSessions (<[fid := frameSession]> (frameSessions w)) w).

(** Modelled from the spec: [NewWorker], not part of the sources at hand:
    it fails, or creates the worker record of the session. *)
Definition NewWorker (sess : option SessionID) (id : TargetID) (url : string)
    : Method (error + Worker) :=
  match sess with
  | None => panic
  | Some sid =>
      match newWorkerErr sid id url with
      | Some err => return_ (inl err)
      | None => return_ (inr {| worker_session := sid; worker_targetID := id; worker_url := url |})
      end
  end.

Definition abnormalClosure : string := "websocket: close 1006 (abnormal closure)".

Definition onAttachedToTarget (event : EventAttachedToTarget) : Method unit :=
  debugf "NewFrameSession:onAttachedToTarget" ;;
  fs <- self ;;
  w <- world ;;
  let sess := getSession w (attached_SessionID event) in
  let tid := attached_TargetID event in
  if String.eqb (attached_Type event) "iframe" && negb (String.eqb (attached_URL event) "") then
    match getFrameByID (manager w) tid with
    | None => return_ tt
    | Some frame =>
        modify_world (fun w => set_manager (removeChildFramesRecursively frame (manager w)) w) ;;
        r <- call (NewFrameSession sess (page fs) (Some fs) tid) ;;
        match r with
        | inl err =>
            w <- world ;;
            if negb (connected w) && GoStrings.Contains (Error err) abnormalClosure then
              (* If we're no longer connected to browser, then ignore WebSocket errors *)
              return_ tt
            else if ctxDone w then
              debugf "FrameSession:onAttachedToTarget:NewFrameSession:<-ctx.Done" ;;
              return_ tt
            else
              k6Throw "cannot create frame session (iframe): " err
        | inr frameSession => attachFrameSession tid frameSession
        end
    end
  else if negb (String.eqb (attached_Type event) "worker") then
    debugf "FrameSession:onAttachedToTarget returns: target is not a worker" ;;
    (* Just unblock (debugger continue) these targets and detach from them. *)
    match sess with
    | None => panic
    | Some sid =>
        ExecuteWithoutExpectationOnReply sid RuntimeRunIfWaitingForDebugger ;;
        ExecuteWithoutExpectationOnReply sid (TargetDetachFromTarget sid)
    end
  else
    (* Handle new worker *)
    r <- NewWorker sess tid (attached_URL event) ;;
    match r with
    | inl err =>
        w <- world ;;
        if negb (connected w) && GoStrings.Contains (Error err) abnormalClosure then
          return_ tt
        else if ctxDone w then
          debugf "FrameSession:onAttachedToTarget:NewWorker:<-ctx.Done" ;;
          return_ tt
        else
          k6Throw "cannot create frame session (worker): " err
    | inr worker =>
        modify_world (fun w => set_workers (<[worker_session worker := worker]> (workers w)) w)
    end.

End FrameSession.


(** ** The other handlers and the dispatch of events *)

(** The code of the repository outside frame_session.go that the other
    handlers call: the methods of [FrameManager] for the frame events, and
    the methods of [Page] and [Session] that take note of an exception, of
    a detached worker and of a crash.  They are taken to return, and to
    write the world around the session, not the session. *)
Class PageCollaborators : Type := {
  frameDetached : FrameID -> FrameManager -> FrameManager;
  frameRequestedNavigation :
    FrameID -> string -> string -> FrameManager -> FrameManager * option error;
  frameLoadingStarted : FrameID -> FrameManager -> FrameManager;
  frameLoadingStopped : FrameID -> FrameManager -> FrameManager;
  frameNavigatedWithinDocument : FrameID -> string -> FrameManager -> FrameManager;
  (** [page.emit(EventPageError, details)] *)
  emitPageError : string -> World -> World;
  (** [page.closeWorker(sessionID)] *)
  closeWorker : SessionID -> World -> World;
  (** [session.markAsCrashed()] *)
  markAsCrashed : SessionID -> World -> World;
  (** [page.didCrash()] *)
  didCrash : World -> World;
}.

(** [page.EventFrameRequestedNavigation] *)
Record EventFrameRequestedNavigation : Type := {
  requested_FrameID : FrameID;
  requested_URL : string;
  requested_Disposition : string;
}.

(** The events that reach the channel of a frame session; [OtherEvent] is
    an event that the session subscribes to and has no handler for. *)
Inductive Event : Type :=
| TargetCrashed
| EntryAdded (event : EventEntryAdded)
| FrameAttached (frameID parentFrameID : FrameID)
| FrameDetached (frameID : FrameID)
| FrameNavigated (frame : CdpFrame)
| FrameRequestedNavigation (event : EventFrameRequestedNavigation)
| FrameStartedLoading (frameID : FrameID)
| FrameStoppedLoading (frameID : FrameID)
| LifecycleEvent_ (event : EventLifecycleEvent)
| NavigatedWithinDocument (frameID : FrameID) (url : string)
| ConsoleAPICalled (event : EventConsoleAPICalled)
| ExceptionThrown (exceptionDetails : string)
| ExecutionContextCreated (event : EventExecutionContextCreated)
| ExecutionContextDestroyed (executionContextID : ExecutionContextID)
| ExecutionContextsCleared
| AttachedToTarget (event : EventAttachedToTarget)
| DetachedFromTarget (sessionID : SessionID)
| OtherEvent (name : string).

Section Handlers.

Context `{Collaborators} `{PageCollaborators}.

Definition getNetworkManager (fs : FrameSession) : option NetworkManager :=
  networkManager fs.

Definition onExceptionThrown (exceptionDetails : string) : Method unit :=
  modify_world (emitPageError exceptionDetails).

Definition onFrameDetached (frameID : FrameID) : Method unit :=
  debugf "NewFrameSession:onFrameDetached" ;;
  modify_world (fun w => set_manager (frameDetached frameID (manager w)) w).

Definition onFrameRequestedNavigation (event : EventFrameRequestedNavigation) : Method unit :=
  debugf "NewFrameSession:onFrameRequestedNavigation" ;;
  if String.eqb (requested_Disposition event) "currentTab" then
    w <- world ;;
    let r := frameRequestedNavigation (requested_FrameID event) (requested_URL event) ""
               (manager w) in
    modify_world (set_manager (fst r)) ;;
    match snd r with
    | Some err => k6Throw "cannot handle frame requested navigation: " err
    | None => return_ tt
    end
  else return_ tt.

Definition onFrameStartedLoading (frameID : FrameID) : Method unit :=
  debugf "NewFrameSession:onFrameStartedLoading" ;;
  modify_world (fun w => set_manager (frameLoadingStarted frameID (manager w)) w).

Definition onFrameStoppedLoading (frameID : FrameID) : Method unit :=
  debugf "NewFrameSession:onFrameStoppedLoading" ;;
  modify_world (fun w => set_manager (frameLoadingStopped frameID (manager w)) w).

Definition onPageNavigatedWithinDocument (frameID : FrameID) (url : string) : Method unit :=
  debugf "NewFrameSession:onPageNavigatedWithinDocument" ;;
  modify_world (fun w => set_manager (frameNavigatedWithinDocument frameID url (manager w)) w).

Definition onDetachedFromTarget (sessionID : SessionID) : Method unit :=
  debugf "NewFrameSession:onDetachedFromTarget" ;;
  modify_world (closeWorker sessionID).

Definition onTargetCrashed : Method unit :=
  debugf "NewFrameSession:onTargetCrashed" ;;
  fs <- self ;;
  modify_world (markAsCrashed (session fs)) ;;
  modify_world didCrash.

(** The chain of type tests of the loop that [initEvents] starts: the
    handler of an event taken from the channel. *)
Definition handleEvent (event : Event) : Method unit :=
  match event with
  | TargetCrashed => onTargetCrashed
  | EntryAdded ev => onLogEntryAdded ev
  | FrameAttached frameID parentFrameID => onFrameAttached frameID parentFrameID
  | FrameDetached frameID => onFrameDetached frameID
  | FrameNavigated frame => onFrameNavigated frame false
  | FrameRequestedNavigation ev => onFrameRequestedNavigation ev
  | FrameStartedLoading frameID => onFrameStartedLoading frameID
  | FrameStoppedLoading frameID => onFrameStoppedLoading frameID
  | LifecycleEvent_ ev => onPageLifecycle ev
  | NavigatedWithinDocument frameID url => onPageNavigatedWithinDocument frameID url
  | ConsoleAPICalled ev => onConsoleAPICalled ev
  | ExceptionThrown details => onExceptionThrown details
  | ExecutionContextCreated ev => onExecutionContextCreated ev
  | ExecutionContextDestroyed id => onExecutionContextDestroyed id
  | ExecutionContextsCleared => onExecutionContextsCleared
  | AttachedToTarget ev => onAttachedToTarget ev
  | DetachedFromTarget sessionID => onDetachedFromTarget sessionID
  | OtherEvent _ => return_ tt
  end.

(** The events that the loop takes from the channel, handled in their
    order; a handler that throws ends the loop. *)
Definition handleEvents (events : list Event) : Method unit :=
  forEach handleEvent events.

End Handlers.
(** * Specifications and examples *)

(** The world after the line that a method logs when it is entered. *)
Definition entered (category : string) (w : World) : World :=
  set_debug (debug w ++ [category]) w.


(** ** Browsers that accept a repeated override *)

(** The reply is the protocol-state error of a repeated locale or timezone
    override. *)
Definition alreadyInEffect (c : Command) (e : error) : bool :=
  match c with
  | EmulationSetLocaleOverride _ =>
      GoStrings.Contains (Error e) "Another locale override is already in effect"
  | EmulationSetTimezoneOverride _ =>
      GoStrings.Contains (Error e) "Timezone override is already in effect"
  | _ => false
  end.

(** The same collaborators, with a browser that answers a repeated locale
    or timezone override with success instead of that error. *)
Definition accepting (H : Collaborators) : Collaborators :=
  {| cdpDo := fun history sid c =>
       match cdpDo history sid c with
       | Some e => if alreadyInEffect c e then None else Some e
       | None => None
       end;
     cdpGetWindowForTarget := cdpGetWindowForTarget;
     cdpGetFrameTree := cdpGetFrameTree;
     evaluationScriptURL := evaluationScriptURL;
     newNetworkManagerErr := newNetworkManagerErr;
     setRequestInterceptionErr := setRequestInterceptionErr;
     newWorkerErr := newWorkerErr;
     frameAttached := frameAttached;
     frameNavigated := frameNavigated;
     frameLifecycleEvent := frameLifecycleEvent;
     removeChildFramesRecursively := removeChildFramesRecursively;
     parseRemoteObject := parseRemoteObject;
     parseErrorEntries := parseErrorEntries;
     k6stats_D := k6stats_D |}.

(** A command other than the two overrides. *)
Definition plain (c : Command) : Prop :=
  match c with
  | EmulationSetLocaleOverride _ | EmulationSetTimezoneOverride _ => False
  | _ => True
  end.


(** ** What a method leaves alone *)

(** The state in which a computation ends. *)
Definition final {S A} (r : Result S A) : S :=
  match r with
  | Returned _ s => s
  | Thrown _ s => s
  | Panicked s => s
  end.

(** The part of the state that the construction of a session does not
    write: the CDP session, the target, the page and the parent of the
    session, and in the world
    everything but the commands sent, the subscriptions, the calls of the
    network manager and the debug lines; the frame manager is part of the
    view when [withFrames] is set. *)
Definition view (withFrames : bool) (s : FrameSession * World) :=
  (session (fst s), targetID (fst s), page (fst s), parent (fst s),
   connected (snd s), ctxDone (snd s), sessions (snd s),
   frameSessions (snd s), workers (snd s), state (snd s),
   samples (snd s), entries (snd s),
   if withFrames then Some (manager (snd s)) else None).

(** The method ends in a state with the view it started from. *)
Definition keeps (withFrames : bool) {A} (m : Method A) (s : FrameSession * World) : Prop :=
  view withFrames (final (m s)) = view withFrames s.

(** ** The construction of a child in [onAttachedToTarget] *)

(** The world in which [onAttachedToTarget] constructs the session of an
    iframe: the handler has logged its entry and has removed the frames
    below the frame of the target. *)
Definition beforeConstruction `{Collaborators} (frame : Frame) (w : World) : World :=
  set_manager (removeChildFramesRecursively frame (manager w))
    (entered "NewFrameSession:onAttachedToTarget" w).

(** Constructing the child of an attached target fails with [err] and
    leaves the world [w1]: the child is the frame session of an iframe, or
    a worker.  [format] is the message of the fatal error and [category]
    the line logged when the context is done. *)
Inductive constructionFails `{Collaborators}
    (event : EventAttachedToTarget) (fs : FrameSession) (w : World)
    : string -> string -> error -> World -> Prop :=
| frameSessionFails (frame : Frame) (err : error) (w1 : World) :
    attached_Type event = "iframe" ->
    attached_URL event <> "" ->
    getFrameByID (manager w) (attached_TargetID event) = Some frame ->
    NewFrameSession (getSession w (attached_SessionID event)) (page fs) (Some fs)
      (attached_TargetID event) (beforeConstruction frame w) = Returned (inl err) w1 ->
    constructionFails event fs w
      "cannot create frame session (iframe): "
      "FrameSession:onAttachedToTarget:NewFrameSession:<-ctx.Done" err w1
| workerFails (err : error) :
    attached_Type event = "worker" ->
    attached_SessionID event ∈ sessions w ->
    newWorkerErr (attached_SessionID event) (attached_TargetID event) (attached_URL event)
      = Some err ->
    constructionFails event fs w
      "cannot create frame session (worker): "
      "FrameSession:onAttachedToTarget:NewWorker:<-ctx.Done" err
      (entered "NewFrameSession:onAttachedToTarget" w).

(** The error text has the signature of an abnormal closure of the
    WebSocket while the browser is no longer connected. *)
Definition disconnected (w : World) (err : error) : Prop :=
  connected w = false /\ GoStrings.Contains (Error err) abnormalClosure = true.

(** ** Severities *)

(** The severity of a console call or of a log entry of that type or
    level: "log" and "info" are logged at Info, "warning" at Warn,
    "error" at Error, every other value at Debug. *)
Definition severity (typeOrLevel : string) : Level :=
  if String.eqb typeOrLevel "log" || String.eqb typeOrLevel "info" then InfoLevel
  else if String.eqb typeOrLevel "warning" then WarnLevel
  else if String.eqb typeOrLevel "error" then ErrorLevel
  else DebugLevel.

(** What a handler has written to the loggers. *)
Definition written {A} (r : Result (FrameSession * World) A) (w : World) : list Entry :=
  drop (length (entries w)) (entries (snd (final r))).

(** ** Duration samples *)

(** The sample of a metric for a lifecycle event of a frame: the time of
    the event minus the init time of the session, with the tags of the
    scope and, when the system tag is enabled, the URL of the frame. *)
Definition durationSample `{Collaborators}
    (metric : Metric) (frame : Frame) (event : EventLifecycleEvent)
    (fs : FrameSession) (w : World) : Sample :=
  {| sample_Metric := metric;
     sample_Tags :=
       if SystemTagURL (state w)
       then <["url" := frame_url frame]> (Tags (state w))
       else Tags (state w);
     sample_Value := k6stats_D (time_Sub (lifecycle_Timestamp event) (initTime fs)) |}.

(** The paint events and their metrics. *)
Definition paintMetrics : list (string * Metric) :=
  [ ("firstPaint", BrowserFirstPaint);
    ("firstContentfulPaint", BrowserFirstContentfulPaint);
    ("firstMeaningfulPaint", BrowserFirstMeaningfulPaint) ].

(** The world once the frame manager has recorded a lifecycle event of the
    frame of a page lifecycle event. *)
Definition recorded `{Collaborators}
    (event : EventLifecycleEvent) (e : LifecycleEvent) (w : World) : World :=
  set_manager (frameLifecycleEvent (lifecycle_FrameID event) e (manager w))
    (entered "NewFrameSession:onPageLifecycle" w).

(** ** Seeding the frame tree *)

(** A call of the frame manager by the walk of the frame tree. *)
Inductive ManagerCall : Type :=
| FrameAttachedCall (frameID parentFrameID : FrameID)
| FrameNavigatedCall (frame : CdpFrame) (initial : bool).

(** The calls that seed the frame tree, depth first: for a frame with a
    parent [frameAttached(frameId, parentId)], then for every frame
    [frameNavigated(frame, initial=true)], then the frames below it, each
    with its own subtree, in their order. *)
Fixpoint seedCalls (frameTree : FrameTree) : list ManagerCall :=
  match frameTree with
  | FrameTreeNode frame childFrames =>
      (if String.eqb (cf_ParentID frame) "" then []
       else [FrameAttachedCall (cf_ID frame) (cf_ParentID frame)])
      ++ FrameNavigatedCall frame true :: flat_map seedCalls childFrames
  end.

(** The frame manager after the calls, made one after the other up to the
    first navigation that fails, and the error of that navigation. *)
Fixpoint applyCalls `{Collaborators} (calls : list ManagerCall) (m : FrameManager)
    : FrameManager * option error :=
  match calls with
  | [] => (m, None)
  | FrameAttachedCall frameID parentFrameID :: calls' =>
      applyCalls calls' (frameAttached frameID parentFrameID m)
  | FrameNavigatedCall frame initial :: calls' =>
      let r := frameNavigated (cf_ID frame) (cf_ParentID frame) (cf_LoaderID frame)
                 (cf_Name frame) (cf_URL frame +:+ cf_URLFragment frame) initial m in
      match snd r with
      | Some err => (fst r, Some err)
      | None => applyCalls calls' (fst r)
      end
  end.

(** How a walk ends: it has made the calls, and has thrown the error of
    the navigation that failed, if one did. *)
Definition walked `{Collaborators} {A} (calls : list ManagerCall) (a : A) (fs : FrameSession) (w : World)
    (r : Result (FrameSession * World) A) : Prop :=
  exists w',
    manager w' = fst (applyCalls calls (manager w))
    /\ sent w' = sent w
    /\ r = match snd (applyCalls calls (manager w)) with
           | Some err => Thrown (wrapError "cannot handle frame navigation: " err) (fs, w')
           | None => Returned a (fs, w')
           end.

(** ** Execution contexts *)

(** The context that [onExecutionContextCreated] creates for an event with
    that auxiliary data. *)
Definition createdContext (event : EventExecutionContextCreated) (i : AuxData)
    (fs : FrameSession) (w : World) : ExecutionContext :=
  {| ec_session := session fs;
     ec_frame :=
       match getFrameByID (manager w) (aux_FrameID i) with
       | Some _ => Some (aux_FrameID i)
       | None => None
       end;
     ec_id := created_ID event |}.

(** The world of a new context: the main world if the context is the
    default one of its frame; otherwise the utility world if it has the
    name of the utility world and the frame has no utility context yet;
    otherwise none.  A context of an unknown frame has no world. *)
Definition worldOf (event : EventExecutionContextCreated) (i : AuxData)
    (frame : option Frame) : option World_ :=
  match frame with
  | None => None
  | Some f =>
      if aux_IsDefault i then Some mainExecutionContext
      else if String.eqb (created_Name event) utilityWorldName
              && negb (hasContext utilityExecutionContext f)
      then Some utilityExecutionContext
      else None
  end.

(** The session and the world once [onExecutionContextCreated] has
    returned. *)
Definition afterCreated (event : EventExecutionContextCreated) (i : AuxData)
    (s : FrameSession * World) : FrameSession * World :=
  let context := createdContext event i (fst s) (snd s) in
  let fs1 :=
    if String.eqb (aux_Type i) "isolated"
    then set_isolatedWorlds (<[created_Name event := true]> (isolatedWorlds (fst s))) (fst s)
    else fst s in
  let w1 := entered "NewFrameSession:onExecutionContextCreated" (snd s) in
  (set_contextIDToContext (<[created_ID event := context]> (contextIDToContext fs1)) fs1,
   match worldOf event i (getFrameByID (manager (snd s)) (aux_FrameID i)) with
   | Some wd =>
       set_manager
         (updateFrame (aux_FrameID i) (setContext wd context) (manager (snd s))) w1
   | None => w1
   end).

(** The context that the world slot of a frame of the frame manager
    holds. *)
Definition slotOf (m : FrameManager) (f : FrameID) (w : World_) : option ExecutionContext :=
  match getFrameByID m f with
  | Some frame => frame_slot w frame
  | None => None
  end.

(** ** Clearing the execution contexts *)

(** [context.Frame().nullContext(context.id)] on the frame manager, for a
    context that has a frame. *)
Definition nullOne (context : ExecutionContext) (m : FrameManager) : FrameManager :=
  match ec_frame context with
  | Some f => updateFrame f (nullContext (ec_id context)) m
  | None => m
  end.

(** The frame manager once the slots that the contexts refer to are
    nulled, context by context. *)
Definition nullAll (contexts : list ExecutionContext) (m : FrameManager) : FrameManager :=
  foldl (fun m context => nullOne context m) m contexts.



(** The contexts of the map of the session. *)
Definition contextsOf (fs : FrameSession) : list ExecutionContext :=
  (map_to_list (contextIDToContext fs)).*2.

(** The session and the world once [onExecutionContextsCleared] has
    returned. *)
Definition afterCleared (s : FrameSession * World) : FrameSession * World :=
  (set_contextIDToContext ∅ (fst s),
   set_manager (nullAll (contextsOf (fst s)) (manager (snd s)))
     (entered "NewFrameSession:onExecutionContextsCleared" (snd s))).

(** ** A browser and a page to run the session on *)

Module Example.

Definition newFrame (id parentID url : string) : Frame :=
  {| frame_id := id; frame_parentID := parentID; frame_url := url;
     frame_name := ""; frame_loaderID := ""; frame_lifecycleEvents := [];
     frame_main := None; frame_utility := None |}.

(** A frame manager in the words of the spec: a frame is created when it
    is attached; a navigation sets the URL, the name and the loader of a
    known frame, creates the main frame, and fails for an unknown child
    frame; a lifecycle event is recorded in the frame; the frames below a
    frame are those whose chain of parents reaches it. *)
Definition attach (frameID parentFrameID : FrameID) (m : FrameManager) : FrameManager :=
  match frames m !! frameID with
  | Some _ => m
  | None => {| frames := <[frameID := newFrame frameID parentFrameID ""]> (frames m) |}
  end.

Definition navigate (frameID parentFrameID : FrameID) (loaderID name url : string)
    (initial : bool) (m : FrameManager) : FrameManager * option error :=
  let navigated (f : Frame) : Frame :=
    {| frame_id := frame_id f; frame_parentID := frame_parentID f; frame_url := url;
       frame_name := name; frame_loaderID := loaderID;
       frame_lifecycleEvents := frame_lifecycleEvents f;
       frame_main := frame_main f; frame_utility := frame_utility f |} in
  match frames m !! frameID with
  | Some f => ({| frames := <[frameID := navigated f]> (frames m) |}, None)
  | None =>
      if String.eqb parentFrameID ""
      then ({| frames := <[frameID := navigated (newFrame frameID "" "")]> (frames m) |}, None)
      else (m, Some (errorString
              "we either navigate top level or have old version of the navigated frame"))
  end.

Definition lifecycle (frameID : FrameID) (event : LifecycleEvent) (m : FrameManager)
    : FrameManager :=
  updateFrame frameID (fun f =>
    {| frame_id := frame_id f; frame_parentID := frame_parentID f; frame_url := frame_url f;
       frame_name := frame_name f; frame_loaderID := frame_loaderID f;
       frame_lifecycleEvents := frame_lifecycleEvents f ++ [event];
       frame_main := frame_main f; frame_utility := frame_utility f |}) m.

Fixpoint below (fuel : nat) (m : gmap FrameID Frame) (ids : gset FrameID) : gset FrameID :=
  match fuel with
  | O => ids
  | S fuel' =>
      below fuel' m
        (ids ∪ dom (filter (fun kv => frame_parentID (snd kv) ∈ ids) m))
  end.

Definition removeChildren (frame : Frame) (m : FrameManager) : FrameManager :=
  let gone := below (size (frames m)) (frames m) {[ frame_id frame ]} ∖ {[ frame_id frame ]} in
  {| frames := filter (fun kv => fst kv ∉ gone) (frames m) |}.

(** The replies of the browser are left to the example. *)
Definition collaborators
    (reply : list Sent -> SessionID -> Command -> option error)
    (window : error + WindowID) (tree : error + option FrameTree) : Collaborators :=
  {| cdpDo := reply;
     cdpGetWindowForTarget := fun _ _ _ => window;
     cdpGetFrameTree := fun _ _ => tree;
     evaluationScriptURL := "__xk6_browser_evaluation_script__";
     newNetworkManagerErr := fun _ => None;
     setRequestInterceptionErr := fun _ _ => None;
     newWorkerErr := fun _ _ _ => None;
     frameAttached := attach;
     frameNavigated := navigate;
     frameLifecycleEvent := lifecycle;
     removeChildFramesRecursively := removeChildren;
     parseRemoteObject := fun robj => (robj, None);
     parseErrorEntries := fun _ => [];
     k6stats_D := fun d => d |}.

(** A browser that executes every command. *)
Definition browser : Collaborators :=
  collaborators (fun _ _ _ => None) (inr 1) (inr None).

(** A browser in which the locale and the timezone are overridden
    already. *)
Definition overridden : Collaborators :=
  collaborators
    (fun _ _ c =>
       match c with
       | EmulationSetLocaleOverride _ =>
           Some (errorString "Another locale override is already in effect")
       | EmulationSetTimezoneOverride _ =>
           Some (errorString "Timezone override is already in effect")
       | _ => None
       end)
    (inr 1) (inr None).

(** A browser whose connection has dropped. *)
Definition closed : Collaborators :=
  collaborators (fun _ _ _ => None)
    (inl (errorString "websocket: close 1006 (abnormal closure)")) (inr None).

Definition options : BrowserContextOptions :=
  {| BypassCSP := false; IgnoreHTTPSErrors := false; HasTouch := false;
     JavaScriptEnabled := true; UserAgent := ""; Locale := "en-US";
     TimezoneID := "Europe/Paris"; Geolocation_ := None; ExtraHTTPHeaders := ∅;
     HttpCredentials := None; Offline := false; DeviceScaleFactor := 1;
     IsMobile := false |}.

Definition thePage : Page :=
  {| page_targetID := "T0"; opts := options; emulatedSize := None;
     colorScheme := ColorSchemeLight; reducedMotion := ReducedMotionNoPreference;
     mediaType := "screen"; extraHTTPHeaders := ∅; hasRoutes := false |}.

(** The session of the main frame of the page, constructed. *)
Definition main : FrameSession :=
  {| session := "S0"; page := thePage; parent := None;
     networkManager := Some {| nm_session := "S0"; nm_parent := None |};
     targetID := "T0"; windowID := 1; initTime := 0;
     contextIDToContext := ∅; isolatedWorlds := {[ utilityWorldName := true ]};
     childSessions := ∅ |}.

(** A page with a main frame T0 and, in it, an iframe F1 that holds a
    frame F2. *)
Definition theWorld : World :=
  {| manager :=
       {| frames :=
            {[ "T0" := newFrame "T0" "" "http://test.k6.io/";
               "F1" := newFrame "F1" "T0" "http://test.k6.io/inner";
               "F2" := newFrame "F2" "F1" "http://test.k6.io/innermost" ]} |};
     connected := true; ctxDone := false; sessions := {[ "S0"; "S1" ]};
     sent := []; subscriptions := []; networkCalls := [];
     frameSessions := ∅; workers := ∅;
     state := {| GroupPath := ""; Tags := {[ "scenario" := "default" ]};
                 SystemTagURL := true |};
     samples := []; entries := []; debug := [] |}.

(** The iframe F1 has moved to a process of its own. *)
Definition iframeAttached : EventAttachedToTarget :=
  {| attached_SessionID := "S1"; attached_TargetID := "F1";
     attached_Type := "iframe"; attached_URL := "http://test.k6.io/inner" |}.

Definition blankIframeAttached : EventAttachedToTarget :=
  {| attached_SessionID := "S1"; attached_TargetID := "F1";
     attached_Type := "iframe"; attached_URL := "" |}.

(** An iframe that the frame manager has not heard of. *)
Definition unknownIframeAttached : EventAttachedToTarget :=
  {| attached_SessionID := "S1"; attached_TargetID := "F9";
     attached_Type := "iframe"; attached_URL := "http://test.k6.io/other" |}.

(** The world in which the session of F1 is constructed, and what the
    construction gives with a browser that executes every command. *)
Definition constructionWorld : World :=
  beforeConstruction (H := browser) (newFrame "F1" "T0" "http://test.k6.io/inner") theWorld.

Definition constructed : Result World (error + FrameSession) :=
  Eval vm_compute in
    NewFrameSession (H := browser) (Some "S1") thePage (Some main) "F1" constructionWorld.

Definition child : FrameSession :=
  Eval vm_compute in
    match constructed with
    | Returned (inr fs) _ => fs
    | _ => main
    end.

(** The browser is gone and the context of the session is done. *)
Definition disconnectedWorld : World :=
  {| manager := manager theWorld; connected := false; ctxDone := true;
     sessions := sessions theWorld; sent := []; subscriptions := [];
     networkCalls := []; frameSessions := ∅; workers := ∅;
     state := state theWorld; samples := []; entries := []; debug := [] |}.

(** The construction of the session of F1 then. *)
Definition dropped : Result World (error + FrameSession) :=
  Eval vm_compute in
    NewFrameSession (H := closed) (Some "S1") thePage (Some main) "F1"
      (beforeConstruction (H := closed) (newFrame "F1" "T0" "http://test.k6.io/inner")
         disconnectedWorld).

(** A log entry of level "verbose". *)
Definition logEntry : EventEntryAdded :=
  {| entry_Source := "javascript"; entry_LogLevel := LevelVerbose; entry_Text := "hello";
     entry_Timestamp := 5; entry_URL := "http://test.k6.io/"; entry_LineNumber := 1;
     entry_StackTrace := None |}.

(** The main frame has loaded, three seconds after the session has seen
    its init. *)
Definition started : FrameSession := set_initTime 1000000000 main.

Definition loaded : EventLifecycleEvent :=
  {| lifecycle_FrameID := "T0"; lifecycle_Name := "load";
     lifecycle_Timestamp := 4000000000 |}.

(** The frame tree of the page: the main frame and its iframe F1, which
    holds F2. *)
Definition cdpFrame (id parentID url : string) : CdpFrame :=
  {| cf_ID := id; cf_ParentID := parentID; cf_LoaderID := "L"; cf_Name := "";
     cf_URL := url; cf_URLFragment := "" |}.

Definition tree : FrameTree :=
  FrameTreeNode (cdpFrame "T0" "" "http://test.k6.io/")
    [ FrameTreeNode (cdpFrame "F1" "T0" "http://test.k6.io/inner")
        [ FrameTreeNode (cdpFrame "F2" "F1" "http://test.k6.io/innermost") [] ] ].

(** A browser that executes every command and has that frame tree. *)
Definition loadedBrowser : Collaborators :=
  collaborators (fun _ _ _ => None) (inr 1) (inr (Some tree)).

(** A page whose frames the frame manager has not seen yet. *)
Definition freshWorld : World :=
  {| manager := {| frames := ∅ |}; connected := true; ctxDone := false;
     sessions := {[ "S0"; "S1" ]}; sent := []; subscriptions := [];
     networkCalls := []; frameSessions := ∅; workers := ∅;
     state := state theWorld; samples := []; entries := []; debug := [] |}.

(** Two sessions to the same target have each created the utility world
    in the main frame: the browser announces two contexts of that name. *)
Definition utilityCreated (id : ExecutionContextID) : EventExecutionContextCreated :=
  {| created_ID := id; created_Name := utilityWorldName;
     created_AuxData :=
       inr {| aux_FrameID := "T0"; aux_IsDefault := false; aux_Type := "isolated" |} |}.

(** The main frame with a context in each of its worlds, and the session
    that has created them. *)
Definition mainContext : ExecutionContext :=
  {| ec_session := "S0"; ec_frame := Some "T0"; ec_id := 1 |}.

Definition utilityContext : ExecutionContext :=
  {| ec_session := "S0"; ec_frame := Some "T0"; ec_id := 2 |}.

Definition populated : FrameSession :=
  set_contextIDToContext {[ 1 := mainContext; 2 := utilityContext ]} main.

Definition populatedWorld : World :=
  set_manager
    {| frames :=
         {[ "T0" := setContext utilityExecutionContext utilityContext
                      (setContext mainExecutionContext mainContext
                         (newFrame "T0" "" "http://test.k6.io/")) ]} |}
    theWorld.

(** A call of console.warn. *)
Definition warned : EventConsoleAPICalled :=
  {| console_Type := "warning"; console_Args := ["careful"]; console_Timestamp := 7 |}.

End Example.

(** * More of the session: specifications *)

(** ** What a method does to the session and to the commands sent *)

(** A method takes a state to a state that a relation allows, however it
    ends. *)
Definition step {A} (R : relation (FrameSession * World)) (m : Method A)
    (s : FrameSession * World) : Prop :=
  R s (final (m s)).

(** The session is left as it is. *)
Definition unchanged (s s' : FrameSession * World) : Prop :=
  fst s' = fst s.

(** The second session is the first one, but for the isolated world of
    that name, which it may have recorded. *)
Definition grown (name : string) (fs fs' : FrameSession) : Prop :=
  fs' = fs \/ fs' = set_isolatedWorlds (<[name := true]> (isolatedWorlds fs)) fs.

(** The commands sent from the first state to the second: they are
    commands on that CDP session, of a given kind. *)
Definition sends (sid : SessionID) (P : Command -> Prop) (s s' : FrameSession * World)
    : Prop :=
  exists l,
    sent (snd s') = (sent (snd s) ++ l)%list
    /\ Forall (fun c => fst c = sid /\ P (snd c)) l.

(** What the steps of the construction of the session of that CDP session
    do once the window is known: they record the isolated world and send
    commands on the CDP session. *)
Definition built (sid : SessionID) (name : string) (P : Command -> Prop)
    (s s' : FrameSession * World) : Prop :=
  session (fst s) = sid -> grown name (fst s) (fst s') /\ sends sid P s s'.

(** A command other than the one that resumes a target. *)
Definition setup (c : Command) : Prop :=
  c <> RuntimeRunIfWaitingForDebugger.

(** Any command. *)
Definition anyCommand (c : Command) : Prop := True.

(** The loop of [initDomains] and of [initOptions] over their actions. *)
Definition executeAll `{Collaborators} (actions : list Command) : Method (option error) :=
  forEachErr (fun action =>
    err <- Do action ;;
    match err with
    | Some e => return_ (Errorf ("unable to execute " +:+ typeName action +:+ ": ") e)
    | None => return_ None
    end) actions.

(** The steps of [NewFrameSession] once the window of the target is
    known. *)
Definition furnish `{Collaborators} : Method (option error) :=
  initEvents ;;
  orReturn (logged "NewFrameSession:initFrameTree" initFrameTree)
    (orReturn (logged "NewFrameSession:initIsolatedWorld" (initIsolatedWorld utilityWorldName))
       (orReturn (logged "NewFrameSession:initDomains" initDomains)
          (orReturn (logged "NewFrameSession:initOptions" initOptions)
             (debugf "NewFrameSession" ;;
              return_ None)))).

(** The session that [NewFrameSession] starts from. *)
Definition blank (sid : SessionID) (pg : Page) (parentFS : option FrameSession)
    (tid : TargetID) : FrameSession :=
  {| session := sid; page := pg; parent := targetID <$> parentFS;
     networkManager := None; targetID := tid; windowID := 0;
     initTime := 0; contextIDToContext := ∅; isolatedWorlds := ∅;
     childSessions := ∅ |}.

(** The step that resumes the target: one command on the CDP session of
    the session. *)
Definition resumes (s s' : FrameSession * World) : Prop :=
  fst s' = fst s
  /\ sent (snd s') = (sent (snd s) ++ [(session (fst s), RuntimeRunIfWaitingForDebugger)])%list.

(** A run of the method that returns no error is made of steps that a
    relation allows and then one step of another relation. *)
Definition succeeding (R T : relation (FrameSession * World))
    (m : Method (option error)) (s : FrameSession * World) : Prop :=
  forall s', m s = Returned None s' -> exists s1, R s s1 /\ T s1 s'.

(** The commands of the actions on a session. *)
Definition commandsOn (sid : SessionID) (actions : list Command) : list Sent :=
  map (fun action => (sid, action)) actions.

(** The actions of [initDomains]. *)
Definition domains : list Command :=
  [DOMEnable; LogEnable; RuntimeEnable; TargetSetAutoAttach true true true].

(** ** Invariants of the execution contexts *)

(** A context of the map of the session is there under its own id and is
    a context of the CDP session of the session. *)
Definition wellKeyed (fs : FrameSession) : Prop :=
  forall k c, contextIDToContext fs !! k = Some c -> ec_id c = k /\ ec_session c = session fs.


(** The session and the world once [onExecutionContextDestroyed] has
    returned. *)
Definition afterDestroyed (id : ExecutionContextID) (s : FrameSession * World)
    : FrameSession * World :=
  let w1 := entered "NewFrameSession:onExecutionContextDestroyed" (snd s) in
  match contextIDToContext (fst s) !! id with
  | None => (fst s, w1)
  | Some context =>
      (set_contextIDToContext (delete id (contextIDToContext (fst s))) (fst s),
       match ec_frame context with
       | Some f => set_manager (updateFrame f (nullContext id) (manager (snd s))) w1
       | None => w1
       end)
  end.

(** ** The events of the loop *)


(** The events whose handlers neither call [k6Throw], nor use the session
    of another target, nor read the state of the script or the timestamp
    that the event points to: all but a navigation, a requested
    navigation, a new execution context, an attached target, a lifecycle
    event, a console call and a log entry. *)
Definition harmless (event : Event) : Prop :=
  match event with
  | FrameNavigated _ | FrameRequestedNavigation _
  | ExecutionContextCreated _ | AttachedToTarget _
  | LifecycleEvent_ _ | ConsoleAPICalled _ | EntryAdded _ => False
  | _ => True
  end.

Definition setsInitTime (event : EventLifecycleEvent) : bool :=
  String.eqb (lifecycle_Name event) "init" || String.eqb (lifecycle_Name event) "commit".

(** The time of the last lifecycle event named "init" or "commit" among
    the events, or the time given if there is none. *)
Definition lastInit (events : list Event) (t : Time) : Time :=
  foldl (fun t event =>
           match event with
           | LifecycleEvent_ e => if setsInitTime e then lifecycle_Timestamp e else t
           | _ => t
           end) t events.

(** The ids of the execution contexts that are alive after the events,
    given the ids of the ones that were alive before: a context lives
    from the event that creates it to the event that destroys it or to the
    next event that clears the contexts. *)
Definition liveIds (events : list Event) (ids : gset ExecutionContextID)
    : gset ExecutionContextID :=
  foldl (fun ids event =>
           match event with
           | ExecutionContextCreated e => {[ created_ID e ]} ∪ ids
           | ExecutionContextDestroyed id => ids ∖ {[ id ]}
           | ExecutionContextsCleared => ∅
           | _ => ids
           end) ids events.

(** The session is the same but for what the handlers of events write:
    the init time, the map of contexts and the isolated worlds, of which
    none is forgotten. *)
Definition sameSession (fs fs' : FrameSession) : Prop :=
  session fs' = session fs /\ page fs' = page fs /\ parent fs' = parent fs
  /\ networkManager fs' = networkManager fs /\ targetID fs' = targetID fs
  /\ windowID fs' = windowID fs /\ childSessions fs' = childSessions fs
  /\ dom (isolatedWorlds fs) ⊆ dom (isolatedWorlds fs').

(** The session once the handler of an event has ended. *)
Definition selfAfter (event : Event) (s : FrameSession * World) : FrameSession :=
  match event with
  | LifecycleEvent_ e =>
      if setsInitTime e then set_initTime (lifecycle_Timestamp e) (fst s) else fst s
  | ExecutionContextCreated e =>
      match created_AuxData e with
      | inr i => fst (afterCreated e i s)
      | inl _ => fst s
      end
  | ExecutionContextDestroyed id => fst (afterDestroyed id s)
  | ExecutionContextsCleared => set_contextIDToContext ∅ (fst s)
  | _ => fst s
  end.

(** The method returns. *)
Definition returns {A} (m : Method A) (s : FrameSession * World) : Prop :=
  exists a s', m s = Returned a s'.


(** The session of that CDP session, page and target, once it has its
    network manager, while the target is the main frame of the page or
    the frame manager knows the frame of the target. *)
Definition constructing (sid : SessionID) (pg : Page) (tid : TargetID)
    (s : FrameSession * World) : Prop :=
  session (fst s) = sid
  /\ page (fst s) = pg
  /\ targetID (fst s) = tid
  /\ is_Some (networkManager (fst s))
  /\ (tid = page_targetID pg \/ is_Some (getFrameByID (manager (snd s)) tid)).

(** The step subscribes to nothing, and the session keeps its CDP
    session. *)
Definition quiet (s s' : FrameSession * World) : Prop :=
  session (fst s') = session (fst s)
  /\ isMainFrame (fst s') = isMainFrame (fst s)
  /\ subscriptions (snd s') = subscriptions (snd s).

(** The method throws no error but one of a given kind. *)
Definition throwsOnly (E : error -> Prop) {A} (m : Method A)
    (s : FrameSession * World) : Prop :=
  forall e s', m s = Thrown e s' -> E e.

(** The messages of the fatal errors of a frame session. *)
Definition fatalMessages : list string :=
  [ "cannot handle frame navigation: ";
    "cannot handle frame requested navigation: ";
    "unable to unmarshal JSON: ";
    "cannot create frame session (iframe): ";
    "cannot create frame session (worker): " ].

(** An error wrapped in one of these messages. *)
Definition wrappedIn (messages : list string) (e : error) : Prop :=
  exists message cause, In message messages /\ e = wrapError message cause.

(** The lifecycle events that are measured. *)
Definition measured : list string :=
  [ "load"; "DOMContentLoaded"; "firstPaint"; "firstContentfulPaint";
    "firstMeaningfulPaint" ].

(** ** More of the example *)

Module MoreExample.

(** The methods of the frame manager and of the page in the words of the
    spec, as far as the examples need them: a detached frame is removed
    from the registry; the other calls leave the frames as they are. *)
Definition pageCollaborators : PageCollaborators :=
  {| frameDetached := fun frameID m => {| frames := delete frameID (frames m) |};
     frameRequestedNavigation := fun _ _ _ m => (m, None);
     frameLoadingStarted := fun _ m => m;
     frameLoadingStopped := fun _ m => m;
     frameNavigatedWithinDocument := fun _ _ m => m;
     emitPageError := fun _ w => w;
     closeWorker := fun sid w => set_workers (delete sid (workers w)) w;
     markAsCrashed := fun _ w => w;
     didCrash := fun w => w |}.

Definition inited (t : Time) : EventLifecycleEvent :=
  {| lifecycle_FrameID := "T0"; lifecycle_Name := "init"; lifecycle_Timestamp := t |}.

(** What the session of the main frame sees while the page loads and is
    left again. *)
Definition pageLoad : list Event :=
  [ LifecycleEvent_ (inited 1000000000);
    ExecutionContextCreated (Example.utilityCreated 1);
    LifecycleEvent_ Example.loaded;
    ConsoleAPICalled Example.warned;
    EntryAdded Example.logEntry;
    ExecutionContextDestroyed 1;
    LifecycleEvent_ (inited 5000000000);
    ExecutionContextsCleared ].

(** An execution context whose auxiliary data do not decode. *)
Definition garbled : EventExecutionContextCreated :=
  {| created_ID := 9; created_Name := "";
     created_AuxData := inl (errorString "unexpected end of JSON input") |}.

End MoreExample.
(** * Properties *)

Open Scope list_scope.

(** ** Go strings *)

Lemma HasPrefix_spec (s p : string) :
  GoStrings.HasPrefix s p = true <-> exists rest, s = p +:+ rest.
Proof.
  revert s. induction p as [| c p IH]; intros s; simpl.
  - split; [intros _; exists s; reflexivity | reflexivity].
  - destruct s as [| d s]; simpl.
    + split; [discriminate | intros [rest Hrest]; discriminate Hrest].
    + rewrite andb_true_iff, Ascii.eqb_eq, IH. split.
      * intros [-> [rest ->]]. exists rest. reflexivity.
      * intros [rest Hrest]. inversion Hrest. split; [reflexivity | exists rest; reflexivity].
Qed.

(** [strings.Contains]: the string has the substring somewhere. *)
Lemma Contains_spec (s substr : string) :
  GoStrings.Contains s substr = true <-> exists before after, s = before +:+ substr +:+ after.
Proof.
  induction s as [| c s IH]; simpl.
  - rewrite orb_false_r, HasPrefix_spec. split.
    + intros [rest Hrest]. exists "", rest. exact Hrest.
    + intros (before & after & Heq). exists after.
      destruct before; [exact Heq | discriminate Heq].
  - rewrite orb_true_iff, HasPrefix_spec, IH. split.
    + intros [[rest Hrest] | (before & after & ->)].
      * exists "", rest. exact Hrest.
      * exists (String c before), after. reflexivity.
    + intros ([| d before] & after & Heq).
      * left. exists after. exact Heq.
      * right. inversion Heq. exists before, after. reflexivity.
Qed.

Example Contains_wrapped :
  GoStrings.Contains
    (Error (wrapError "unable to get window ID: "
              (errorString "websocket: close 1006 (abnormal closure)")))
    "websocket: close 1006 (abnormal closure)" = true.
Proof. reflexivity. Qed.

(** ** Running a method *)

Lemma go_bind_returned {S A B} (m : Go S A) (k : A -> Go S B) s a s' :
  m s = Returned a s' -> go_bind m k s = k a s'.
Proof. unfold go_bind. intros ->. reflexivity. Qed.

Lemma go_bind_thrown {S A B} (m : Go S A) (k : A -> Go S B) s e s' :
  m s = Thrown e s' -> go_bind m k s = Thrown e s'.
Proof. unfold go_bind. intros ->. reflexivity. Qed.

Lemma go_bind_panicked {S A B} (m : Go S A) (k : A -> Go S B) s s' :
  m s = Panicked s' -> go_bind m k s = Panicked s'.
Proof. unfold go_bind. intros ->. reflexivity. Qed.

(** Two computations that agree state by state. *)
Definition agree {S A} (m m' : Go S A) : Prop := forall s, m s = m' s.

Lemma agree_refl {S A} (m : Go S A) : agree m m.
Proof. intros s. reflexivity. Qed.

Lemma agree_bind {S A B} (m m' : Go S A) (k k' : A -> Go S B) :
  agree m m' -> (forall a, agree (k a) (k' a)) -> agree (go_bind m k) (go_bind m' k').
Proof.
  intros Hm Hk s. unfold go_bind. rewrite Hm.
  destruct (m' s); [apply Hk | reflexivity | reflexivity].
Qed.

Lemma agree_orReturn {S} (m m' k k' : Go S (option error)) :
  agree m m' -> agree k k' -> agree (orReturn m k) (orReturn m' k').
Proof.
  intros Hm Hk. unfold orReturn. apply agree_bind; [exact Hm |].
  intros [e |]; [apply agree_refl | exact Hk].
Qed.

Lemma agree_forEachErr {S A} (body body' : A -> Go S (option error)) (P : A -> Prop) l :
  (forall x, P x -> agree (body x) (body' x)) ->
  Forall P l -> agree (forEachErr body l) (forEachErr body' l).
Proof.
  intros Hbody Hl. induction Hl as [| x l Hx Hl IH]; simpl.
  - apply agree_refl.
  - apply agree_bind; [apply Hbody, Hx |].
    intros [e |]; [apply agree_refl | exact IH].
Qed.

Ltac run := cbv [go_bind go_ret self world modify_self modify_world debugf panic
                 k6Throw call orReturn logged fst snd].

Section Properties.

Context `{Collaborators}.

(** ** Geolocation *)

(** C9.  [updateGeolocation(true)] with no geolocation option sends no
    command and returns nil; [updateGeolocation(false)] with no
    geolocation option passes the guard [!initial || geolocation != nil]
    and dereferences the nil pointer: the call does not return, and no
    command has left by then. *)
Theorem updateGeolocation_nil_option (fs : FrameSession) (w : World) :
  Geolocation_ (opts (page fs)) = None ->
  updateGeolocation true (fs, w)
    = Returned None (fs, entered "NewFrameSession:updateGeolocation" w)
  /\ sent (entered "NewFrameSession:updateGeolocation" w) = sent w
  /\ updateGeolocation false (fs, w)
    = Panicked (fs, entered "NewFrameSession:updateGeolocation" w).
Proof.
  intros Hgeo. unfold updateGeolocation. run. rewrite Hgeo. simpl.
  repeat split; reflexivity.
Qed.

(** ** Locale and timezone overrides *)

Lemma Do_accepting (c : Command) :
  plain c -> agree (Do (H := H) c) (Do (H := accepting H) c).
Proof.
  intros Hc [fs w]. unfold Do. run. simpl.
  destruct (cdpDo (sent w) (session fs) c) as [e |]; [| reflexivity].
  destruct c; simpl in Hc; try contradiction; reflexivity.
Qed.

Lemma emulateLocale_accepting :
  agree (emulateLocale (H := H)) (emulateLocale (H := accepting H)).
Proof.
  intros [fs w]. unfold emulateLocale, Do. run. simpl.
  destruct (cdpDo (sent w) (session fs) _) as [e |]; [| reflexivity].
  destruct (GoStrings.Contains (Error e) _) eqn:He; [reflexivity |].
  rewrite He. reflexivity.
Qed.

Lemma emulateTimezone_accepting :
  agree (emulateTimezone (H := H)) (emulateTimezone (H := accepting H)).
Proof.
  intros [fs w]. unfold emulateTimezone, Do. run. simpl.
  destruct (cdpDo (sent w) (session fs) _) as [e |]; [| reflexivity].
  destruct (GoStrings.Contains (Error e) _) eqn:He; [reflexivity |].
  rewrite He. reflexivity.
Qed.

Ltac agree_step :=
  first
    [ apply agree_refl
    | apply Do_accepting; exact I
    | apply emulateLocale_accepting
    | apply emulateTimezone_accepting
    | apply agree_orReturn
    | apply agree_bind; [| intros ?]
    | match goal with
      | |- agree (match ?x with _ => _ end) _ => destruct x
      end ].

Ltac agree_all := cbv zeta; repeat agree_step.

Lemma DoAll_accepting (actions : list Command) :
  Forall plain actions ->
  agree
    (forEachErr (fun action =>
       err <- Do (H := H) action ;;
       match err with
       | Some e => return_ (Errorf ("unable to execute " +:+ typeName action +:+ ": ") e)
       | None => return_ None
       end) actions)
    (forEachErr (fun action =>
       err <- Do (H := accepting H) action ;;
       match err with
       | Some e => return_ (Errorf ("unable to execute " +:+ typeName action +:+ ": ") e)
       | None => return_ None
       end) actions).
Proof.
  apply agree_forEachErr. intros c Hc.
  apply agree_bind; [apply Do_accepting, Hc | intros ?; apply agree_refl].
Qed.

Lemma initDomains_accepting :
  agree (initDomains (H := H)) (initDomains (H := accepting H)).
Proof.
  unfold initDomains. cbv zeta. apply DoAll_accepting.
  repeat constructor.
Qed.

Lemma initFrameTree_accepting :
  agree (initFrameTree (H := H)) (initFrameTree (H := accepting H)).
Proof. unfold initFrameTree. agree_all. Qed.

Lemma initIsolatedWorld_accepting (name : string) :
  agree (initIsolatedWorld (H := H) name) (initIsolatedWorld (H := accepting H) name).
Proof. unfold initIsolatedWorld. agree_all. Qed.

Lemma updateViewport_accepting :
  agree (updateViewport (H := H)) (updateViewport (H := accepting H)).
Proof. unfold updateViewport. agree_all. Qed.

Lemma updateGeolocation_accepting (initial : bool) :
  agree (updateGeolocation (H := H) initial) (updateGeolocation (H := accepting H) initial).
Proof. unfold updateGeolocation. agree_all. Qed.

Lemma updateEmulateMedia_accepting (initial : bool) :
  agree (updateEmulateMedia (H := H) initial) (updateEmulateMedia (H := accepting H) initial).
Proof. unfold updateEmulateMedia. agree_all. Qed.

Lemma optActions_plain (o : BrowserContextOptions) (isMain : bool) :
  Forall plain
    ((((((if isMain then [EmulationSetFocusEmulationEnabled true] else [])
         ++ (if BypassCSP o then [PageSetBypassCSP true] else []))
         ++ (if IgnoreHTTPSErrors o then [SecuritySetIgnoreCertificateErrors true] else []))
         ++ (if HasTouch o then [EmulationSetTouchEmulationEnabled true] else []))
         ++ (if negb (JavaScriptEnabled o) then [EmulationSetScriptExecutionDisabled true] else []))
         ++ (if negb (String.eqb (UserAgent o) "") || negb (String.eqb (Locale o) "")
             then [EmulationSetUserAgentOverride (UserAgent o) (Locale o)] else []))%list.
Proof.
  repeat apply Forall_app_2;
    match goal with
    | |- Forall _ (if ?b then _ else _) => destruct b; repeat constructor
    end.
Qed.

Lemma initOptions_accepting :
  agree (initOptions (H := H)) (initOptions (H := accepting H)).
Proof.
  unfold initOptions. cbv zeta.
  apply agree_bind; [apply agree_refl | intros _].
  apply agree_bind; [apply agree_refl | intros fs].
  apply agree_orReturn.
  { destruct (isMainFrame fs); [| apply agree_refl].
    unfold logged. apply agree_bind; [apply updateViewport_accepting | intros ?; apply agree_refl]. }
  apply agree_orReturn.
  { destruct (negb _); [apply emulateLocale_accepting | apply agree_refl]. }
  apply agree_orReturn.
  { destruct (negb _); [apply emulateTimezone_accepting | apply agree_refl]. }
  apply agree_orReturn; [apply updateGeolocation_accepting |].
  apply agree_bind; [apply agree_refl | intros _].
  apply agree_orReturn; [apply agree_refl |].
  apply agree_bind; [apply agree_refl | intros _].
  apply agree_bind; [apply agree_refl | intros _].
  apply agree_orReturn; [apply updateEmulateMedia_accepting |].
  apply DoAll_accepting.
  apply Forall_app_2; [| repeat constructor].
  pose proof (optActions_plain (opts (page fs)) (isMainFrame fs)) as Hp.
  destruct (isMainFrame fs), (BypassCSP _), (IgnoreHTTPSErrors _), (HasTouch _),
    (negb (JavaScriptEnabled _)), (negb (String.eqb (UserAgent _) "") || _);
    simpl in Hp |- *; exact Hp.
Qed.

Lemma construct_accepting (parentNetworkManager : option NetworkManager) :
  agree (construct (H := H) parentNetworkManager)
        (construct (H := accepting H) parentNetworkManager).
Proof.
  unfold construct.
  apply agree_bind; [apply agree_refl | intros _].
  apply agree_bind; [apply agree_refl | intros fs].
  apply agree_bind; [apply agree_refl | intros [e | nm]]; [apply agree_refl |].
  apply agree_bind; [apply agree_refl | intros _].
  apply agree_bind; [apply agree_refl | intros [e | wid]]; [apply agree_refl |].
  apply agree_bind; [apply agree_refl | intros _].
  apply agree_bind; [apply agree_refl | intros _].
  unfold logged.
  apply agree_orReturn.
  { apply agree_bind; [apply initFrameTree_accepting | intros ?; apply agree_refl]. }
  apply agree_orReturn.
  { apply agree_bind; [apply initIsolatedWorld_accepting | intros ?; apply agree_refl]. }
  apply agree_orReturn.
  { apply agree_bind; [apply initDomains_accepting | intros ?; apply agree_refl]. }
  apply agree_orReturn.
  { apply agree_bind; [apply initOptions_accepting | intros ?; apply agree_refl]. }
  apply agree_refl.
Qed.

Lemma NewFrameSession_accepting sess pg parentFS tid :
  agree (NewFrameSession (H := H) sess pg parentFS tid)
        (NewFrameSession (H := accepting H) sess pg parentFS tid).
Proof.
  intros w. unfold NewFrameSession. destruct sess as [sid |]; [| reflexivity].
  rewrite construct_accepting. reflexivity.
Qed.

(** ** What the construction of a session leaves alone *)

Lemma FrameTree_induction (P : FrameTree -> Prop) :
  (forall frame childFrames, Forall P childFrames -> P (FrameTreeNode frame childFrames)) ->
  forall t, P t.
Proof.
  intros HP. fix IH 1. intros [frame childFrames]. apply HP.
  induction childFrames as [| c cs IHcs]; constructor; [apply IH | exact IHcs].
Qed.

Lemma keeps_bind b {A B} (m : Method A) (k : A -> Method B) s :
  keeps b m s ->
  (forall a s1, view b s1 = view b s -> keeps b (k a) s1) ->
  keeps b (go_bind m k) s.
Proof.
  unfold keeps, go_bind. intros Hm Hk.
  destruct (m s) as [a s1 | e s1 | s1]; simpl in *; [| exact Hm | exact Hm].
  rewrite (Hk a s1 Hm). exact Hm.
Qed.

Lemma keeps_orReturn b (m k : Method (option error)) s :
  keeps b m s ->
  (forall s1, view b s1 = view b s -> keeps b k s1) ->
  keeps b (orReturn m k) s.
Proof.
  intros Hm Hk. unfold orReturn. apply keeps_bind; [exact Hm |].
  intros [e |] s1 Hs1; [reflexivity | apply Hk, Hs1].
Qed.

Lemma keeps_logged b category (m : Method (option error)) s :
  keeps b m s -> keeps b (logged category m) s.
Proof.
  intros Hm. unfold logged. apply keeps_bind; [exact Hm |].
  intros [e |] s1 _; destruct b; reflexivity.
Qed.

Lemma keeps_forEach b {A} (body : A -> Method unit) (P : A -> Prop) l :
  (forall x s, P x -> keeps b (body x) s) ->
  Forall P l -> forall s, keeps b (forEach body l) s.
Proof.
  intros Hbody Hl. induction Hl as [| x l Hx Hl IH]; intros s; simpl.
  - reflexivity.
  - apply keeps_bind; [apply Hbody, Hx | intros _ s1 _; apply IH].
Qed.

Lemma keeps_forEachErr b {A} (body : A -> Method (option error)) l :
  (forall x s, keeps b (body x) s) ->
  forall s, keeps b (forEachErr body l) s.
Proof.
  intros Hbody. induction l as [| x l IH]; intros s; simpl.
  - reflexivity.
  - apply keeps_bind; [apply Hbody |].
    intros [e |] s1 _; [reflexivity | apply IH].
Qed.

Lemma keeps_Do b (c : Command) s : keeps b (Do c) s.
Proof. destruct b; reflexivity. Qed.

Lemma keeps_debugf b category s : keeps b (debugf category) s.
Proof. destruct b; reflexivity. Qed.

Lemma keeps_callNetworkManager b (c : NetworkCall) s : keeps b (callNetworkManager c) s.
Proof.
  destruct s as [fs w]. unfold keeps, callNetworkManager. run. simpl.
  destruct (networkManager fs); destruct b; reflexivity.
Qed.

Ltac keeps_step :=
  lazymatch goal with
  | |- keeps _ (Do _) _ => apply keeps_Do
  | |- keeps _ (debugf _) _ => apply keeps_debugf
  | |- keeps _ (callNetworkManager _) _ => apply keeps_callNetworkManager
  | |- keeps _ (logged _ _) _ => apply keeps_logged
  | |- keeps _ (orReturn _ _) _ => apply keeps_orReturn; [| intros ? ?]
  | |- keeps _ (go_bind _ _) _ => apply keeps_bind; [| intros ? ? ?]
  | |- keeps _ (match ?x with _ => _ end) _ => destruct x
  | |- keeps ?b _ _ => destruct b; reflexivity
  end.

Ltac keeps_all := cbv zeta; repeat keeps_step.

Lemma keeps_emulateLocale b s : keeps b emulateLocale s.
Proof. unfold emulateLocale. keeps_all. Qed.

Lemma keeps_emulateTimezone b s : keeps b emulateTimezone s.
Proof. unfold emulateTimezone. keeps_all. Qed.

Lemma keeps_initDomains b s : keeps b initDomains s.
Proof.
  unfold initDomains. cbv zeta. apply keeps_forEachErr. intros c s'. keeps_all.
Qed.

Lemma keeps_initRendererEvents b s : keeps b initRendererEvents s.
Proof. destruct b; reflexivity. Qed.

Lemma keeps_initEvents b s : keeps b initEvents s.
Proof.
  destruct s as [fs w]. unfold keeps, initEvents, initRendererEvents, session_on. run. simpl.
  destruct (negb _); destruct b; reflexivity.
Qed.

Lemma keeps_onFrameAttached frameID parentFrameID s :
  keeps false (onFrameAttached frameID parentFrameID) s.
Proof. reflexivity. Qed.

Lemma keeps_onFrameNavigated frame initial s :
  keeps false (onFrameNavigated frame initial) s.
Proof.
  destruct s as [fs w]. unfold keeps, onFrameNavigated. run. simpl.
  destruct (frameNavigated _ _ _ _ _ _ _) as [m [e |]]; reflexivity.
Qed.

Lemma keeps_handleFrameTree t : forall s, keeps false (handleFrameTree t) s.
Proof.
  induction t as [frame childFrames IH] using FrameTree_induction. intros s. simpl.
  apply keeps_bind; [apply keeps_debugf | intros _ s1 _].
  apply keeps_bind.
  { destruct (negb _); [apply keeps_onFrameAttached | reflexivity]. }
  intros _ s2 _.
  apply keeps_bind; [apply keeps_onFrameNavigated | intros _ s3 _].
  apply (keeps_forEach false handleFrameTree (fun t => forall s, keeps false (handleFrameTree t) s)).
  - intros x s' Hx. apply Hx.
  - exact IH.
Qed.

Lemma view_isMainFrame b s s1 :
  view b s1 = view b s -> isMainFrame (fst s1) = isMainFrame (fst s).
Proof.
  unfold view, isMainFrame. intros Hv.
  assert (targetID (fst s1) = targetID (fst s)) as -> by congruence.
  assert (page (fst s1) = page (fst s)) as -> by congruence.
  reflexivity.
Qed.

Lemma view_weaken s s1 : view true s1 = view true s -> view false s1 = view false s.
Proof. unfold view. intros Hv. congruence. Qed.

Lemma keeps_weaken {A} (m : Method A) s : keeps true m s -> keeps false m s.
Proof. apply view_weaken. Qed.

Lemma keeps_GetFrameTree b s : keeps b GetFrameTree s.
Proof. destruct b; reflexivity. Qed.

Lemma keeps_initFrameTree s : keeps false initFrameTree s.
Proof.
  unfold initFrameTree.
  apply keeps_bind; [apply keeps_debugf | intros _ s1 _].
  apply keeps_bind; [apply keeps_Do | intros [e |] s2 _]; [reflexivity |].
  apply keeps_bind; [apply keeps_GetFrameTree | intros [e | frameTree] s3 _]; [reflexivity |].
  apply keeps_bind; [reflexivity | intros fs s4 _].
  destruct (isMainFrame fs); [| reflexivity].
  apply keeps_bind.
  { destruct frameTree as [t |]; [apply keeps_handleFrameTree | reflexivity]. }
  intros _ s5 _.
  apply keeps_bind; [apply keeps_initRendererEvents | intros _ s6 _; reflexivity].
Qed.

Lemma keeps_initFrameTree_child s :
  isMainFrame (fst s) = false -> keeps true initFrameTree s.
Proof.
  intros Hchild. unfold initFrameTree.
  apply keeps_bind; [apply keeps_debugf | intros _ s1 Hs1].
  apply keeps_bind; [apply keeps_Do | intros [e |] s2 Hs2]; [reflexivity |].
  apply keeps_bind; [apply keeps_GetFrameTree | intros [e | frameTree] s3 Hs3]; [reflexivity |].
  unfold keeps, go_bind, self.
  rewrite (view_isMainFrame true s2 s3 Hs3), (view_isMainFrame true s1 s2 Hs2),
    (view_isMainFrame true s s1 Hs1), Hchild.
  reflexivity.
Qed.

Lemma keeps_initIsolatedWorld b name s : keeps b (initIsolatedWorld name) s.
Proof.
  unfold initIsolatedWorld.
  apply keeps_bind; [apply keeps_debugf | intros _ s1 _].
  apply keeps_bind; [apply keeps_Do | intros [e |] s2 _]; [destruct b; reflexivity |].
  apply keeps_bind; [destruct b; reflexivity | intros fs s3 _].
  destruct (isolatedWorlds fs !! name).
  { apply keeps_bind; [apply keeps_debugf | intros _ s4 _; destruct b; reflexivity]. }
  apply keeps_bind; [destruct b; reflexivity | intros _ s4 _].
  apply keeps_bind; [destruct b; reflexivity | intros w s5 _].
  cbv zeta.
  apply keeps_bind.
  { apply (keeps_forEach b _ (fun _ => True)); [| apply Forall_forall; intros; exact I].
    intros [f |] s' _; destruct b; reflexivity. }
  intros _ s6 _. keeps_all.
Qed.

Lemma keeps_updateViewport b s : keeps b updateViewport s.
Proof. unfold updateViewport. keeps_all. Qed.

Lemma keeps_updateGeolocation b initial s : keeps b (updateGeolocation initial) s.
Proof.
  unfold updateGeolocation.
  apply keeps_bind; [apply keeps_debugf | intros _ s1 _].
  apply keeps_bind; [destruct b; reflexivity | intros fs s2 _].
  cbv zeta. destruct (negb initial || _); [| destruct b; reflexivity].
  keeps_all.
Qed.

Lemma keeps_updateEmulateMedia b initial s : keeps b (updateEmulateMedia initial) s.
Proof. unfold updateEmulateMedia. keeps_all. Qed.

Lemma keeps_updateExtraHTTPHeaders b initial s : keeps b (updateExtraHTTPHeaders initial) s.
Proof.
  unfold updateExtraHTTPHeaders.
  apply keeps_bind; [apply keeps_debugf | intros _ s1 _].
  apply keeps_bind; [destruct b; reflexivity | intros fs s2 _].
  cbv zeta. destruct (negb initial || _); [apply keeps_callNetworkManager | destruct b; reflexivity].
Qed.

Lemma keeps_updateHttpCredentials b initial s : keeps b (updateHttpCredentials initial) s.
Proof.
  unfold updateHttpCredentials.
  apply keeps_bind; [apply keeps_debugf | intros _ s1 _].
  apply keeps_bind; [destruct b; reflexivity | intros fs s2 _].
  cbv zeta. destruct (negb initial || _); [apply keeps_callNetworkManager | destruct b; reflexivity].
Qed.

Lemma keeps_updateOffline b initial s : keeps b (updateOffline initial) s.
Proof.
  unfold updateOffline.
  apply keeps_bind; [apply keeps_debugf | intros _ s1 _].
  apply keeps_bind; [destruct b; reflexivity | intros fs s2 _].
  cbv zeta. destruct (negb initial || _); [apply keeps_callNetworkManager | destruct b; reflexivity].
Qed.

Lemma keeps_updateRequestInterception b initial s :
  keeps b (updateRequestInterception initial) s.
Proof.
  unfold updateRequestInterception.
  apply keeps_bind; [apply keeps_debugf | intros _ s1 _].
  apply keeps_bind; [destruct b; reflexivity | intros fs s2 _].
  apply keeps_bind; [apply keeps_callNetworkManager | intros _ s3 _].
  destruct (networkManager fs); destruct b; reflexivity.
Qed.

Lemma keeps_initOptions b s : keeps b initOptions s.
Proof.
  unfold initOptions.
  apply keeps_bind; [apply keeps_debugf | intros _ s1 _].
  apply keeps_bind; [destruct b; reflexivity | intros fs s2 _].
  cbv zeta.
  apply keeps_orReturn.
  { destruct (isMainFrame fs); [| destruct b; reflexivity].
    apply keeps_logged, keeps_updateViewport. }
  intros s3 _. apply keeps_orReturn.
  { destruct (negb _); [apply keeps_emulateLocale | destruct b; reflexivity]. }
  intros s4 _. apply keeps_orReturn.
  { destruct (negb _); [apply keeps_emulateTimezone | destruct b; reflexivity]. }
  intros s5 _. apply keeps_orReturn; [apply keeps_updateGeolocation |].
  intros s6 _. apply keeps_bind; [apply keeps_updateExtraHTTPHeaders | intros _ s7 _].
  apply keeps_orReturn; [apply keeps_updateRequestInterception |].
  intros s8 _. apply keeps_bind; [apply keeps_updateOffline | intros _ s9 _].
  apply keeps_bind; [apply keeps_updateHttpCredentials | intros _ s10 _].
  apply keeps_orReturn; [apply keeps_updateEmulateMedia |].
  intros s11 _. apply keeps_forEachErr. intros c s'. keeps_all.
Qed.

(** The construction writes the frame manager only when it walks the frame
    tree, which it does for the main frame alone. *)
Lemma keeps_construct b parentNetworkManager s :
  (b = true -> isMainFrame (fst s) = false) ->
  keeps b (construct parentNetworkManager) s.
Proof.
  intros Hchild. unfold construct.
  apply keeps_bind; [apply keeps_debugf | intros _ s1 Hs1].
  apply keeps_bind; [destruct b; reflexivity | intros fs s2 Hs2].
  apply keeps_bind; [destruct b; reflexivity | intros [e | nm] s3 Hs3].
  { keeps_all. }
  apply keeps_bind; [destruct b; reflexivity | intros _ s4 Hs4].
  apply keeps_bind; [destruct b; reflexivity | intros [e | wid] s5 Hs5].
  { keeps_all. }
  apply keeps_bind; [destruct b; reflexivity | intros _ s6 Hs6].
  apply keeps_bind; [apply keeps_initEvents | intros _ s7 Hs7].
  apply keeps_orReturn.
  { apply keeps_logged. destruct b; [| apply keeps_initFrameTree].
    apply keeps_initFrameTree_child.
    rewrite (view_isMainFrame true s6 s7 Hs7), (view_isMainFrame true s5 s6 Hs6),
      (view_isMainFrame true s4 s5 Hs5), (view_isMainFrame true s3 s4 Hs4),
      (view_isMainFrame true s2 s3 Hs3), (view_isMainFrame true s1 s2 Hs2),
      (view_isMainFrame true s s1 Hs1).
    apply Hchild. reflexivity. }
  intros s8 _. apply keeps_orReturn; [apply keeps_logged, keeps_initIsolatedWorld |].
  intros s9 _. apply keeps_orReturn; [apply keeps_logged, keeps_initDomains |].
  intros s10 _. apply keeps_orReturn; [apply keeps_logged, keeps_initOptions |].
  intros s11 _. keeps_all.
Qed.

(** [NewFrameSession] leaves the registries of the page, the connection
    and the context alone, and the frame manager too unless the new
    session is the one of the main frame. *)
Lemma NewFrameSession_keeps sess pg parentFS tid w :
  let w' := final (NewFrameSession sess pg parentFS tid w) in
  connected w' = connected w /\ ctxDone w' = ctxDone w /\ sessions w' = sessions w
  /\ frameSessions w' = frameSessions w /\ workers w' = workers w
  /\ (tid <> page_targetID pg -> manager w' = manager w).
Proof.
  unfold NewFrameSession. destruct sess as [sid |]; [| simpl; tauto].
  set (fs := {| session := sid; page := pg |}).
  assert (keeps false (construct (parentFS ≫= networkManager)) (fs, w)) as Hk
    by (apply keeps_construct; discriminate).
  assert (tid <> page_targetID pg ->
          keeps true (construct (parentFS ≫= networkManager)) (fs, w)) as Hm.
  { intros Hne. apply keeps_construct. intros _. unfold isMainFrame. simpl.
    apply bool_decide_eq_false. exact Hne. }
  unfold keeps, view in Hk, Hm.
  destruct (construct _ (fs, w)) as [[e |] [fs' w'] | e [fs' w'] | [fs' w']]; simpl in *;
    (repeat split; [congruence .. |]);
    intros Hne; specialize (Hm Hne); congruence.
Qed.

(** ** Targets that attach *)

Lemma getSession_known (w : World) (sid : SessionID) :
  sid ∈ sessions w -> getSession w sid = Some sid.
Proof. intros Hin. unfold getSession. rewrite decide_True by exact Hin. reflexivity. Qed.

(** C10.  An attached target of type "iframe" with an empty URL goes
    neither to the creation of a child frame session nor to the creation of
    a worker: the handler sends [Runtime.runIfWaitingForDebugger] and
    [Target.detachFromTarget] on the new session without waiting for a
    reply and returns; the frame manager, the frame sessions and the
    workers of the page, and the session itself, are as before. *)
Theorem iframe_without_URL_is_detached
    (event : EventAttachedToTarget) (fs : FrameSession) (w : World) :
  attached_Type event = "iframe" ->
  attached_URL event = "" ->
  attached_SessionID event ∈ sessions w ->
  exists w',
    onAttachedToTarget event (fs, w) = Returned tt (fs, w')
    /\ sent w' = sent w ++ [ (attached_SessionID event, RuntimeRunIfWaitingForDebugger);
                             (attached_SessionID event,
                              TargetDetachFromTarget (attached_SessionID event)) ]
    /\ debug w' = debug w ++ [ "NewFrameSession:onAttachedToTarget";
                               "FrameSession:onAttachedToTarget returns: target is not a worker" ]
    /\ manager w' = manager w
    /\ frameSessions w' = frameSessions w
    /\ workers w' = workers w
    /\ subscriptions w' = subscriptions w
    /\ networkCalls w' = networkCalls w.
Proof.
  intros Htype Hurl Hsid.
  unfold onAttachedToTarget, ExecuteWithoutExpectationOnReply. run.
  rewrite getSession_known by exact Hsid. rewrite Htype, Hurl. simpl.
  eexists. split; [reflexivity |]. simpl.
  rewrite <- !app_assoc. simpl. repeat split; reflexivity.
Qed.

Lemma NewFrameSession_child sid pg parentFS tid w child w1 :
  NewFrameSession (Some sid) pg parentFS tid w = Returned (inr child) w1 ->
  session child = sid /\ targetID child = tid /\ page child = pg
  /\ parent child = targetID <$> parentFS.
Proof.
  unfold NewFrameSession.
  set (fs := {| session := sid; page := pg |}).
  assert (keeps false (construct (parentFS ≫= networkManager)) (fs, w)) as Hk
    by (apply keeps_construct; discriminate).
  unfold keeps, view in Hk.
  destruct (construct _ (fs, w)) as [[e |] [fs' w'] | e [fs' w'] | [fs' w']];
    intros Heq; inversion Heq; subst; simpl in Hk.
  repeat split; congruence.
Qed.

Lemma disconnected_dec (w : World) (err : error) :
  negb (connected w) && GoStrings.Contains (Error err) abnormalClosure = true
  <-> disconnected w err.
Proof.
  unfold disconnected. rewrite andb_true_iff, negb_true_iff. reflexivity.
Qed.

(** C7.  When the construction of the child frame session, or of the
    worker, fails in [onAttachedToTarget]: if the browser is no longer
    connected and the text of the error has the signature of an abnormal
    closure of the WebSocket, the handler returns and the error is dropped,
    whether the context is done or not (this check comes first: the line
    that the cancellation check logs is not written); otherwise, if the
    context of the session is done, the handler logs that and returns;
    otherwise the error is thrown as a fatal error that wraps it.  In no
    case a frame session or a worker is registered. *)
Theorem failed_child_construction
    (event : EventAttachedToTarget) (fs : FrameSession) (w : World)
    (format category : string) (err : error) (w1 : World) :
  constructionFails event fs w format category err w1 ->
  (disconnected w err ->
     onAttachedToTarget event (fs, w) = Returned tt (fs, w1))
  /\ (~ disconnected w err -> ctxDone w = true ->
     onAttachedToTarget event (fs, w) = Returned tt (fs, entered category w1))
  /\ (~ disconnected w err -> ctxDone w = false ->
     onAttachedToTarget event (fs, w) = Thrown (wrapError format err) (fs, w1))
  /\ frameSessions w1 = frameSessions w
  /\ workers w1 = workers w.
Proof.
  intros Hfails.
  assert (connected w1 = connected w /\ ctxDone w1 = ctxDone w
          /\ frameSessions w1 = frameSessions w /\ workers w1 = workers w)
    as (Hconn & Hdone & Hfs & Hwk).
  { destruct Hfails as [frame err w1 _ _ _ Hnew | err _ _ _]; [| repeat split; reflexivity].
    pose proof (NewFrameSession_keeps (getSession w (attached_SessionID event)) (page fs)
                  (Some fs) (attached_TargetID event) (beforeConstruction frame w)) as Hk.
    rewrite Hnew in Hk. simpl in Hk. tauto. }
  assert (onAttachedToTarget event (fs, w) =
          if negb (connected w1) && GoStrings.Contains (Error err) abnormalClosure
          then Returned tt (fs, w1)
          else if ctxDone w1 then Returned tt (fs, entered category w1)
          else Thrown (wrapError format err) (fs, w1)) as Hrun.
  { destruct Hfails as [frame err w1 Htype Hurl Hframe Hnew | err Htype Hsid Herr].
    - apply String.eqb_neq in Hurl.
      unfold onAttachedToTarget. run. rewrite Htype, Hurl. simpl.
      unfold getFrameByID in Hframe |- *. simpl. rewrite Hframe.
      match goal with
      | |- context [NewFrameSession ?a ?b ?c ?d ?e] =>
          change (NewFrameSession a b c d e)
            with (NewFrameSession (getSession w (attached_SessionID event)) (page fs)
                    (Some fs) (attached_TargetID event) (beforeConstruction frame w))
      end.
      rewrite Hnew. simpl.
      destruct (negb (connected w1) && _); [reflexivity |].
      destruct (ctxDone w1); reflexivity.
    - unfold onAttachedToTarget, NewWorker. run. rewrite Htype. simpl.
      rewrite getSession_known by exact Hsid. rewrite Herr.
      destruct (negb (connected _) && _); [reflexivity |].
      destruct (ctxDone _); reflexivity. }
  rewrite Hrun, Hconn, Hdone.
  repeat split; try assumption.
  - intros Hd. apply disconnected_dec in Hd. rewrite Hd. reflexivity.
  - intros Hd Hc. rewrite <- disconnected_dec in Hd.
    apply not_true_is_false in Hd. rewrite Hd, Hc. reflexivity.
  - intros Hd Hc. rewrite <- disconnected_dec in Hd.
    apply not_true_is_false in Hd. rewrite Hd, Hc. reflexivity.
Qed.

(** C2.  An attached target of type "iframe" with a URL, whose target id
    is not the id of a frame of the frame manager: the handler returns and
    has written nothing but its debug line.  When the frame is there: the
    frames below it are removed, the child frame session is constructed on
    the session of the event, with this session as its parent, and, once
    constructed, it is registered under the frame id. *)
Theorem iframe_target_attached
    (event : EventAttachedToTarget) (fs : FrameSession) (w : World) :
  attached_Type event = "iframe" ->
  attached_URL event <> "" ->
  (getFrameByID (manager w) (attached_TargetID event) = None ->
     onAttachedToTarget event (fs, w)
       = Returned tt (fs, entered "NewFrameSession:onAttachedToTarget" w))
  /\ (forall frame child w1,
        getFrameByID (manager w) (attached_TargetID event) = Some frame ->
        NewFrameSession (getSession w (attached_SessionID event)) (page fs) (Some fs)
          (attached_TargetID event) (beforeConstruction frame w) = Returned (inr child) w1 ->
        onAttachedToTarget event (fs, w)
          = Returned tt
              (fs, set_frameSessions (<[attached_TargetID event := child]> (frameSessions w1)) w1)
        /\ frameSessions w1 = frameSessions w
        /\ (attached_TargetID event <> page_targetID (page fs) ->
            manager w1 = removeChildFramesRecursively frame (manager w))
        /\ session child = attached_SessionID event
        /\ targetID child = attached_TargetID event
        /\ parent child = Some (targetID fs)
        /\ page child = page fs).
Proof.
  intros Htype Hurl. apply String.eqb_neq in Hurl. split.
  - intros Hframe. unfold onAttachedToTarget. run. rewrite Htype, Hurl. simpl.
    unfold getFrameByID in Hframe |- *. simpl. rewrite Hframe. reflexivity.
  - intros frame child w1 Hframe Hnew.
    pose proof (NewFrameSession_keeps (getSession w (attached_SessionID event)) (page fs)
                  (Some fs) (attached_TargetID event) (beforeConstruction frame w)) as Hk.
    rewrite Hnew in Hk. simpl in Hk. destruct Hk as (_ & _ & _ & Hfs & _ & Hm).
    split; [| split; [exact Hfs | split; [exact Hm |]]].
    + unfold onAttachedToTarget. run. rewrite Htype, Hurl. simpl.
      unfold getFrameByID in Hframe |- *. simpl. rewrite Hframe.
      match goal with
      | |- context [NewFrameSession ?a ?b ?c ?d ?e] =>
          change (NewFrameSession a b c d e)
            with (NewFrameSession (getSession w (attached_SessionID event)) (page fs)
                    (Some fs) (attached_TargetID event) (beforeConstruction frame w))
      end.
      rewrite Hnew. reflexivity.
    + unfold getSession in Hnew.
      destruct (decide (attached_SessionID event ∈ sessions w)); [| discriminate Hnew].
      apply NewFrameSession_child in Hnew. simpl in Hnew. tauto.
Qed.

(** C6.  [emulateLocale] and [emulateTimezone]: when the browser answers
    the override with an error whose text says that another override is
    already in effect, the function returns nil; any other error is
    returned wrapped with the message of the function.  Hence the
    construction of a frame session ends with a browser that answers a
    repeated override so exactly as it ends with a browser that accepts the
    override: such an answer never makes it fail. *)
Theorem repeated_override_is_success :
  (forall fs w e,
     cdpDo (sent w) (session fs) (EmulationSetLocaleOverride (Locale (opts (page fs)))) = Some e ->
     emulateLocale (fs, w)
       = Returned
           (if GoStrings.Contains (Error e) "Another locale override is already in effect"
            then None else Some (wrapError "unable to set locale: " e))
           (fs, set_sent
                  (sent w ++ [(session fs, EmulationSetLocaleOverride (Locale (opts (page fs))))])
                  w))
  /\ (forall fs w e,
     cdpDo (sent w) (session fs) (EmulationSetTimezoneOverride (TimezoneID (opts (page fs))))
       = Some e ->
     emulateTimezone (fs, w)
       = Returned
           (if GoStrings.Contains (Error e) "Timezone override is already in effect"
            then None else Some (wrapError "unable to set timezone ID: " e))
           (fs, set_sent
                  (sent w ++ [(session fs, EmulationSetTimezoneOverride (TimezoneID (opts (page fs))))])
                  w))
  /\ (forall sess pg parentFS tid w,
     NewFrameSession (H := H) sess pg parentFS tid w
       = NewFrameSession (H := accepting H) sess pg parentFS tid w).
Proof.
  repeat split.
  - intros fs w e He. unfold emulateLocale, Do. run. simpl. rewrite He.
    destruct (GoStrings.Contains _ _); reflexivity.
  - intros fs w e He. unfold emulateTimezone, Do. run. simpl. rewrite He.
    destruct (GoStrings.Contains _ _); reflexivity.
  - intros. apply NewFrameSession_accepting.
Qed.

(** ** Console calls and log entries *)

Lemma parseArgs_run (args : list RemoteObject) :
  forall (parsedObjects : list Parsed) (fs : FrameSession) (w : World),
  exists w',
    parseArgs args parsedObjects (fs, w)
      = Returned (parsedObjects ++ map (fun robj => fst (parseRemoteObject robj)) args) (fs, w')
    /\ (exists before, entries w' = entries w ++ before)
    /\ state w' = state w.
Proof.
  induction args as [| robj args IH]; intros parsedObjects fs w; simpl.
  - exists w. rewrite !app_nil_r. repeat split. exists []. rewrite app_nil_r. reflexivity.
  - unfold handleParseRemoteObjectErr. run.
    destruct (parseRemoteObject robj) as [i [err |]]; simpl.
    + destruct (IH (parsedObjects ++ [i]) fs
                  (set_entries (entries w ++ parseErrorEntries err) w))
        as (w' & Hrun & (before & Hbefore) & Hstate).
      exists w'. rewrite Hrun, <- app_assoc. repeat split; [| exact Hstate].
      exists (parseErrorEntries err ++ before). rewrite Hbefore. simpl.
      rewrite <- app_assoc. reflexivity.
    + destruct (IH (parsedObjects ++ [i]) fs w) as (w' & Hrun & Hbefore & Hstate).
      exists w'. rewrite Hrun, <- app_assoc. repeat split; assumption.
Qed.

(** C8.  A console call is written to the logger that serializes remote
    objects, at the severity of its type: "log" and "info" at Info,
    "warning" at Warn, "error" at Error, every other type at Debug.  A log
    entry is written to the plain logger with its text, at the severity of
    its level: "info" at Info, "warning" at Warn, "error" at Error and
    "verbose", the one other level of the Log domain, at Debug.  Both
    handlers return: they never throw. *)
Theorem console_and_log_severity
    (called : EventConsoleAPICalled) (added : EventEntryAdded)
    (fs : FrameSession) (w : World) :
  (exists w' before e,
     onConsoleAPICalled called (fs, w) = Returned tt (fs, w')
     /\ entries w' = entries w ++ before ++ [e]
     /\ entry_serialized e = true
     /\ entry_Level e = severity (console_Type called))
  /\ (exists w' e,
     onLogEntryAdded added (fs, w) = Returned tt (fs, w')
     /\ entries w' = entries w ++ [e]
     /\ entry_serialized e = false
     /\ entry_Message e = entry_Text added
     /\ entry_Level e = severity (LogLevel_String (entry_LogLevel added))).
Proof.
  split.
  - unfold onConsoleAPICalled. run.
    destruct (parseArgs_run (console_Args called) [] fs w)
      as (w' & Hrun & (before & Hbefore) & _).
    rewrite Hrun. unfold severity, logAt. run. simpl.
    destruct (String.eqb (console_Type called) "log" || _);
      [| destruct (String.eqb (console_Type called) "warning");
         [| destruct (String.eqb (console_Type called) "error")]];
      (eexists; exists before; eexists; split; [reflexivity |]; simpl;
       rewrite Hbefore, <- app_assoc; repeat split; reflexivity).
  - unfold onLogEntryAdded, logAt. run. simpl.
    destruct (entry_LogLevel added);
      (eexists; eexists; split; [reflexivity |]; simpl; repeat split; reflexivity).
Qed.

(** ** Lifecycle events of the page *)

Lemma pushDuration_run metric frame event fs w :
  pushDuration metric frame event (fs, w)
  = Returned tt
      (fs, if ctxDone w then w
           else set_samples (samples w ++ [[durationSample metric frame event fs w]]) w).
Proof. unfold pushDuration, PushIfNotDone, durationSample. run. reflexivity. Qed.

(** The event of that name, once the frame manager has recorded it. *)
Lemma lifecycle_recorded (name : string) (recorded : LifecycleEvent) (metric : Metric)
    (event : EventLifecycleEvent) (fs : FrameSession) (w : World) :
  let w1 :=
    set_manager (frameLifecycleEvent (lifecycle_FrameID event) recorded (manager w))
      (entered "NewFrameSession:onPageLifecycle" w) in
  (modify_world (fun w =>
     set_manager (frameLifecycleEvent (lifecycle_FrameID event) recorded (manager w)) w) ;;
   w <- world ;;
   match getFrameByID (manager w) (lifecycle_FrameID event) with
   | Some frame => pushDuration metric frame event
   | None => return_ tt
   end) (fs, entered "NewFrameSession:onPageLifecycle" w)
  = Returned tt
      (fs, match getFrameByID (manager w1) (lifecycle_FrameID event) with
           | Some frame =>
               if ctxDone w then w1
               else set_samples (samples w ++ [[durationSample metric frame event fs w]]) w1
           | None => w1
           end).
Proof.
  intros w1. run. simpl. fold w1.
  destruct (getFrameByID (manager w1) (lifecycle_FrameID event)) as [frame |] eqn:Hframe.
  - unfold getFrameByID in Hframe. simpl in Hframe |- *.
    unfold getFrameByID. simpl. rewrite Hframe.
    rewrite pushDuration_run. reflexivity.
  - unfold getFrameByID in Hframe |- *. simpl in Hframe |- *. rewrite Hframe. reflexivity.
Qed.

(** C3, as the code has it.  A page lifecycle event named "init" or
    "commit" sets the init time of the session to the time of the event
    and emits nothing.  An event named "load" (resp. "DOMContentLoaded")
    has the frame manager record Load (resp. DOMContentLoaded) for the
    frame and then, if the frame id is the one of a frame and the context
    of the session is not done, emits exactly one sample of BrowserLoaded
    (resp. BrowserDOMContentLoaded), whose value is the time of the event
    minus the init time of the session, with the tags of the scope and,
    when the url system tag is enabled, the URL of the frame; for an
    unknown frame it emits nothing.  An event named for a paint emits, for
    a known frame and while the context is not done, one sample of the
    metric of that paint, computed the same way.  Once the context of the
    session is done no sample is emitted: the event is recorded by the
    frame manager, and that is all. *)
Theorem page_lifecycle_event
    (event : EventLifecycleEvent) (fs : FrameSession) (w : World) :
  (lifecycle_Name event = "init" \/ lifecycle_Name event = "commit" ->
     onPageLifecycle event (fs, w)
       = Returned tt (set_initTime (lifecycle_Timestamp event) fs,
                      entered "NewFrameSession:onPageLifecycle" w))
  /\ (lifecycle_Name event = "load" ->
     onPageLifecycle event (fs, w)
       = Returned tt
           (fs, match getFrameByID (manager (recorded event LifecycleEventLoad w))
                        (lifecycle_FrameID event) with
                | Some frame =>
                    if ctxDone w then recorded event LifecycleEventLoad w
                    else
                      set_samples
                        (samples w ++ [[durationSample BrowserLoaded frame event fs w]])
                        (recorded event LifecycleEventLoad w)
                | None => recorded event LifecycleEventLoad w
                end))
  /\ (lifecycle_Name event = "DOMContentLoaded" ->
     onPageLifecycle event (fs, w)
       = Returned tt
           (fs, match getFrameByID (manager (recorded event LifecycleEventDOMContentLoad w))
                        (lifecycle_FrameID event) with
                | Some frame =>
                    if ctxDone w then recorded event LifecycleEventDOMContentLoad w
                    else
                      set_samples
                        (samples w
                         ++ [[durationSample BrowserDOMContentLoaded frame event fs w]])
                        (recorded event LifecycleEventDOMContentLoad w)
                | None => recorded event LifecycleEventDOMContentLoad w
                end))
  /\ (forall metric frame,
     In (lifecycle_Name event, metric) paintMetrics ->
     getFrameByID (manager w) (lifecycle_FrameID event) = Some frame ->
     onPageLifecycle event (fs, w)
       = Returned tt
           (fs, if ctxDone w then entered "NewFrameSession:onPageLifecycle" w
                else
                  set_samples (samples w ++ [[durationSample metric frame event fs w]])
                    (entered "NewFrameSession:onPageLifecycle" w))).
Proof.
  repeat split.
  - intros [Hname | Hname]; unfold onPageLifecycle; rewrite Hname; run; simpl;
      unfold getFrameByID; simpl;
      destruct (frames (manager w) !! lifecycle_FrameID event); reflexivity.
  - intros Hname. unfold onPageLifecycle. rewrite Hname.
    change (String.eqb "load" "init" || String.eqb "load" "commit") with false.
    change (String.eqb "load" "load") with true. cbv iota.
    rewrite go_bind_returned with (a := tt) (s' := (fs, entered "NewFrameSession:onPageLifecycle" w))
      by reflexivity.
    rewrite go_bind_returned with (a := tt) (s' := (fs, entered "NewFrameSession:onPageLifecycle" w))
      by reflexivity.
    apply (lifecycle_recorded "load" LifecycleEventLoad BrowserLoaded event fs w).
  - intros Hname. unfold onPageLifecycle. rewrite Hname.
    change (String.eqb "DOMContentLoaded" "init" || String.eqb "DOMContentLoaded" "commit")
      with false.
    change (String.eqb "DOMContentLoaded" "load") with false.
    change (String.eqb "DOMContentLoaded" "DOMContentLoaded") with true. cbv iota.
    rewrite go_bind_returned with (a := tt) (s' := (fs, entered "NewFrameSession:onPageLifecycle" w))
      by reflexivity.
    rewrite go_bind_returned with (a := tt) (s' := (fs, entered "NewFrameSession:onPageLifecycle" w))
      by reflexivity.
    apply (lifecycle_recorded "DOMContentLoaded" LifecycleEventDOMContentLoad
             BrowserDOMContentLoaded event fs w).
  - intros metric frame Hpaint Hframe. unfold getFrameByID in Hframe.
    simpl in Hpaint.
    destruct Hpaint as [Hp | [Hp | [Hp | []]]]; inversion Hp as [[Hname Hmetric]];
      unfold onPageLifecycle; rewrite <- Hname; run; simpl;
      unfold getFrameByID; simpl; rewrite Hframe;
      rewrite pushDuration_run; reflexivity.
Qed.

(** ** The walk of the frame tree *)

Lemma applyCalls_app (calls calls' : list ManagerCall) (m : FrameManager) :
  applyCalls (calls ++ calls') m
  = match snd (applyCalls calls m) with
    | Some err => applyCalls calls m
    | None => applyCalls calls' (fst (applyCalls calls m))
    end.
Proof.
  revert m. induction calls as [| [frameID parentFrameID | frame initial] calls IH];
    intros m; simpl.
  - reflexivity.
  - apply IH.
  - destruct (frameNavigated _ _ _ _ _ _ m) as [m' [err |]]; simpl.
    + reflexivity.
    + apply IH.
Qed.

Lemma walked_children (childFrames : list FrameTree) :
  Forall (fun t => forall fs w, walked (seedCalls t) tt fs w (handleFrameTree t (fs, w)))
    childFrames ->
  forall fs w,
    walked (flat_map seedCalls childFrames) tt fs w (forEach handleFrameTree childFrames (fs, w)).
Proof.
  intros Hall. induction Hall as [| t ts Ht Hts IH]; intros fs w; simpl.
  - exists w. repeat split.
  - destruct (Ht fs w) as (w1 & Hm1 & Hs1 & Hrun1).
    unfold walked. rewrite applyCalls_app. unfold go_bind. rewrite Hrun1.
    destruct (applyCalls (seedCalls t) (manager w)) as [m1 [err |]]; simpl in *.
    + exists w1. repeat split; assumption.
    + destruct (IH fs w1) as (w2 & Hm2 & Hs2 & Hrun2).
      rewrite Hm1 in Hm2, Hrun2.
      exists w2. repeat split; [exact Hm2 | congruence | exact Hrun2].
Qed.

Lemma walked_handleFrameTree (t : FrameTree) :
  forall fs w, walked (seedCalls t) tt fs w (handleFrameTree t (fs, w)).
Proof.
  induction t as [frame childFrames IH] using FrameTree_induction. intros fs w.
  pose proof (walked_children childFrames IH) as Hchildren.
  unfold walked. simpl. unfold onFrameAttached, onFrameNavigated. run.
  destruct (String.eqb (cf_ParentID frame) ""); simpl.
  - destruct (frameNavigated _ _ _ _ _ _ (manager w)) as [m [err |]] eqn:Hnav; simpl.
    + eexists. split; [| split; [| reflexivity]]; reflexivity.
    + match goal with
      | |- context [forEach _ _ (fs, ?w1)] =>
          destruct (Hchildren fs w1) as (w2 & Hm2 & Hs2 & Hrun2)
      end.
      simpl in Hm2, Hs2, Hrun2. exists w2. repeat split; assumption.
  - destruct (frameNavigated _ _ _ _ _ _ (frameAttached _ _ (manager w)))
      as [m [err |]] eqn:Hnav; simpl.
    + eexists. split; [| split; [| reflexivity]]; reflexivity.
    + match goal with
      | |- context [forEach _ _ (fs, ?w1)] =>
          destruct (Hchildren fs w1) as (w2 & Hm2 & Hs2 & Hrun2)
      end.
      simpl in Hm2, Hs2, Hrun2. exists w2. repeat split; assumption.
Qed.

(** C5, as the code has it.  The construction of the session of the main
    frame (the target of the session is the target of the page) walks the
    frame tree that Page.getFrameTree returns, depth first: it calls
    [frameAttached(frameId, parentId)] for a frame with a parent and then
    [frameNavigated(frame, initial=true)] for every frame, a frame before
    the frames below it, up to the first navigation that fails, whose error
    is thrown.  The construction of the session of another target fetches
    the frame tree and leaves the frame manager as it is. *)
Theorem frame_tree_seeded (fs : FrameSession) (w : World) (t : FrameTree) :
  cdpDo (sent w) (session fs) PageEnable = None ->
  cdpGetFrameTree (sent w ++ [(session fs, PageEnable)]) (session fs) = inr (Some t) ->
  (isMainFrame fs = true ->
     walked (seedCalls t) None fs
       (set_sent (sent w ++ [(session fs, PageEnable); (session fs, PageGetFrameTree)]) w)
       (initFrameTree (fs, w)))
  /\ (isMainFrame fs = false ->
     exists w',
       initFrameTree (fs, w) = Returned None (fs, w') /\ manager w' = manager w).
Proof.
  intros Henable Htree. split; intros Hmain.
  - unfold initFrameTree, Do, GetFrameTree, initRendererEvents, session_on. run.
    cbn [sent set_sent set_debug]. rewrite Henable. cbn [sent set_sent set_debug].
    rewrite Htree. cbn [fst snd]. rewrite Hmain.
    match goal with
    | |- context [handleFrameTree t (fs, ?w1)] =>
        destruct (walked_handleFrameTree t fs w1) as (w2 & Hm2 & Hs2 & Hrun2)
    end.
    rewrite Hrun2. unfold walked. cbn [manager sent set_sent set_debug] in Hm2, Hs2 |- *.
    destruct (applyCalls (seedCalls t) (manager w)) as [m1 [err |]]; cbn [fst snd] in *.
    + exists w2. rewrite Hs2, <- app_assoc. repeat split. exact Hm2.
    + eexists. split; [| split; [| reflexivity]]; cbn; [exact Hm2 |].
      rewrite Hs2, <- app_assoc. reflexivity.
  - unfold initFrameTree, Do, GetFrameTree. run.
    cbn [sent set_sent set_debug]. rewrite Henable. cbn [sent set_sent set_debug].
    rewrite Htree. cbn [fst snd]. rewrite Hmain. eexists. split; reflexivity.
Qed.

(** ** Execution contexts *)

Lemma slotOf_updateFrame (m : FrameManager) (f f' : FrameID) (g : Frame -> Frame) (wd : World_) :
  slotOf (updateFrame f g m) f' wd
  = match getFrameByID m f' with
    | Some frame => frame_slot wd (if decide (f = f') then g frame else frame)
    | None => None
    end.
Proof.
  unfold slotOf, getFrameByID, updateFrame. simpl. rewrite lookup_alter.
  destruct (decide (f = f')) as [-> |]; destruct (frames m !! f'); reflexivity.
Qed.

Lemma frame_slot_setContext (wd wd' : World_) (c : ExecutionContext) (frame : Frame) :
  frame_slot wd' (setContext wd c frame)
  = match frame_slot wd' frame with
    | Some c' => Some c'
    | None => if decide (wd = wd') then Some c else None
    end.
Proof.
  unfold setContext. destruct wd, wd'; simpl;
    destruct (frame_main frame) eqn:Hmain, (frame_utility frame) eqn:Hutility;
    simpl; rewrite ?Hmain, ?Hutility; reflexivity.
Qed.

Lemma created_run (event : EventExecutionContextCreated) (i : AuxData)
    (s : FrameSession * World) :
  created_AuxData event = inr i ->
  onExecutionContextCreated event s = Returned tt (afterCreated event i s).
Proof.
  intros Haux. destruct s as [fs w].
  unfold onExecutionContextCreated, afterCreated, worldOf, createdContext. run.
  rewrite Haux. cbn [fst snd manager set_debug].
  destruct (getFrameByID (manager w) (aux_FrameID i)) as [frame |];
    [destruct (aux_IsDefault i);
       [| destruct (String.eqb (created_Name event) utilityWorldName && _)] |];
    destruct (String.eqb (aux_Type i) "isolated"); reflexivity.
Qed.

Lemma hasContext_utility (frame : Frame) :
  hasContext utilityExecutionContext frame = false <-> frame_utility frame = None.
Proof.
  unfold hasContext. simpl. destruct (frame_utility frame); split; congruence.
Qed.

Lemma afterCreated_map event i s :
  contextIDToContext (fst (afterCreated event i s))
  = <[created_ID event := createdContext event i (fst s) (snd s)]>
      (contextIDToContext (fst s)).
Proof.
  unfold afterCreated. cbv zeta.
  destruct (String.eqb (aux_Type i) "isolated"); reflexivity.
Qed.

Lemma afterCreated_manager event i s :
  manager (snd (afterCreated event i s))
  = match worldOf event i (getFrameByID (manager (snd s)) (aux_FrameID i)) with
    | Some wd =>
        updateFrame (aux_FrameID i)
          (setContext wd (createdContext event i (fst s) (snd s))) (manager (snd s))
    | None => manager (snd s)
    end.
Proof.
  unfold afterCreated. cbv zeta. cbn [snd].
  destruct (worldOf event i _); reflexivity.
Qed.

(** A context that goes to a world whose slot is empty is in that slot
    afterwards. *)
Lemma afterCreated_assigned event i s frame wd :
  getFrameByID (manager (snd s)) (aux_FrameID i) = Some frame ->
  worldOf event i (Some frame) = Some wd ->
  frame_slot wd frame = None ->
  slotOf (manager (snd (afterCreated event i s))) (aux_FrameID i) wd
  = Some (createdContext event i (fst s) (snd s)).
Proof.
  intros Hframe Hworld Hslot.
  rewrite afterCreated_manager, Hframe, Hworld.
  rewrite slotOf_updateFrame, Hframe, decide_True by reflexivity.
  rewrite frame_slot_setContext, Hslot, decide_True by reflexivity. reflexivity.
Qed.

(** A populated utility slot keeps its context when a context is
    created. *)
Lemma afterCreated_keeps_utility event i s f' c :
  slotOf (manager (snd s)) f' utilityExecutionContext = Some c ->
  slotOf (manager (snd (afterCreated event i s))) f' utilityExecutionContext = Some c.
Proof.
  intros Hslot. rewrite afterCreated_manager.
  destruct (worldOf event i _) as [wd |]; [| exact Hslot].
  rewrite slotOf_updateFrame. unfold slotOf in Hslot.
  destruct (getFrameByID (manager (snd s)) f') as [frame |]; [| discriminate].
  destruct (decide (aux_FrameID i = f')); [| exact Hslot].
  rewrite frame_slot_setContext, Hslot. reflexivity.
Qed.

Lemma worldOf_utility event i frame :
  aux_IsDefault i = false ->
  created_Name event = utilityWorldName ->
  frame_utility frame = None ->
  worldOf event i (Some frame) = Some utilityExecutionContext.
Proof.
  intros Hdefault Hname Hutility. unfold worldOf.
  rewrite Hdefault, Hname, String.eqb_refl.
  apply hasContext_utility in Hutility. rewrite Hutility. reflexivity.
Qed.


(** Two contexts with the name of the utility world come to a frame
    without a utility context, one after the other: the frame holds the
    first, and the map of the session has both. *)
Lemma utility_world_race
    (first second : EventExecutionContextCreated) (i : AuxData)
    (fs : FrameSession) (w : World) (frame : Frame) :
  created_AuxData first = inr i ->
  created_AuxData second = inr i ->
  aux_IsDefault i = false ->
  created_Name first = utilityWorldName ->
  getFrameByID (manager w) (aux_FrameID i) = Some frame ->
  frame_utility frame = None ->
  created_ID first <> created_ID second ->
  exists fs' w',
    (onExecutionContextCreated first ;; onExecutionContextCreated second) (fs, w)
      = Returned tt (fs', w')
    /\ slotOf (manager w') (aux_FrameID i) utilityExecutionContext
        = Some (createdContext first i fs w)
    /\ (ec_id <$> contextIDToContext fs' !! created_ID first) = Some (created_ID first)
    /\ (ec_id <$> contextIDToContext fs' !! created_ID second) = Some (created_ID second).
Proof.
  intros Hfirst Hsecond Hdefault Hname Hframe Hutility Hids.
  exists (fst (afterCreated second i (afterCreated first i (fs, w)))),
         (snd (afterCreated second i (afterCreated first i (fs, w)))).
  rewrite <- surjective_pairing. split; [| split; [| split]].
  - unfold go_bind. rewrite (created_run first i (fs, w) Hfirst).
    apply (created_run second i _ Hsecond).
  - apply afterCreated_keeps_utility.
    apply (afterCreated_assigned first i (fs, w) frame); [exact Hframe | | exact Hutility].
    apply worldOf_utility; assumption.
  - rewrite !afterCreated_map.
    rewrite lookup_insert_ne by (intros Heq; apply Hids; symmetry; exact Heq).
    rewrite lookup_insert_eq. reflexivity.
  - rewrite afterCreated_map, lookup_insert_eq. reflexivity.
Qed.

(** ** Clearing the execution contexts *)

Lemma set_manager_same (w : World) : set_manager (manager w) w = w.
Proof. destruct w. reflexivity. Qed.

Lemma set_contextIDToContext_same (fs : FrameSession) :
  set_contextIDToContext (contextIDToContext fs) fs = fs.
Proof. destruct fs. reflexivity. Qed.

Lemma nullContext_comm (x y : ExecutionContextID) (frame : Frame) :
  nullContext x (nullContext y frame) = nullContext y (nullContext x frame).
Proof.
  destruct frame as [id parentID url name loaderID events [cm |] [cu |]];
    unfold nullContext, holds; simpl;
    repeat (match goal with
            | |- context [ec_id ?c =? ?z] => destruct (ec_id c =? z) eqn:?
            end; simpl);
    try reflexivity;
    repeat match goal with
           | E : (_ =? _) = true |- _ => apply Z.eqb_eq in E
           | E : (_ =? _) = false |- _ => apply Z.eqb_neq in E
           end;
    congruence.
Qed.

Lemma nullOne_comm (c c' : ExecutionContext) (m : FrameManager) :
  nullOne c (nullOne c' m) = nullOne c' (nullOne c m).
Proof.
  unfold nullOne. destruct (ec_frame c) as [f |], (ec_frame c') as [f' |]; try reflexivity.
  unfold updateFrame. simpl. f_equal. apply map_eq. intros k.
  rewrite !lookup_alter. repeat case_decide; subst; try congruence; try reflexivity.
  destruct (frames m !! k) as [frame |]; simpl; [| reflexivity].
  f_equal. apply nullContext_comm.
Qed.

Lemma nullAll_cons (c : ExecutionContext) (l : list ExecutionContext) (m : FrameManager) :
  nullAll (c :: l) m = nullAll l (nullOne c m).
Proof. reflexivity. Qed.

Lemma nullAll_Permutation (l l' : list ExecutionContext) :
  l ≡ₚ l' -> forall m, nullAll l m = nullAll l' m.
Proof.
  induction 1 as [| c l l' _ IH | c c' l | l l' l'' _ IH _ IH']; intros m.
  - reflexivity.
  - rewrite !nullAll_cons. apply IH.
  - rewrite !nullAll_cons. rewrite nullOne_comm. reflexivity.
  - rewrite IH. apply IH'.
Qed.









Lemma forEach_nullFrameContext (l : list (ExecutionContextID * ExecutionContext)) :
  forall fs w,
    forEach (fun kv => nullFrameContext (snd kv) (ec_id (snd kv))) l (fs, w)
    = Returned tt (fs, set_manager (nullAll l.*2 (manager w)) w).
Proof.
  induction l as [| [k c] l IH]; intros fs w; simpl.
  - rewrite set_manager_same. reflexivity.
  - unfold go_bind, nullFrameContext, modify_world, go_ret. cbn [fst snd].
    unfold nullAll. simpl. unfold nullOne at 2.
    destruct (ec_frame c) as [f |]; rewrite IH; reflexivity.
Qed.

Lemma forEach_delete (l : list (ExecutionContextID * ExecutionContext)) :
  forall fs (w : World),
    forEach (fun kv =>
      modify_self (fun fs =>
        set_contextIDToContext (delete (fst kv) (contextIDToContext fs)) fs)) l (fs, w)
    = Returned tt
        (set_contextIDToContext
           (foldl (fun m kv => delete (fst kv) m) (contextIDToContext fs) l) fs, w).
Proof.
  induction l as [| [k c] l IH]; intros fs w; simpl.
  - rewrite set_contextIDToContext_same. reflexivity.
  - unfold go_bind, modify_self. cbn [fst snd]. rewrite IH. reflexivity.
Qed.

Lemma lookup_delete_all (l : list (ExecutionContextID * ExecutionContext)) :
  forall (m : gmap ExecutionContextID ExecutionContext) k,
    k ∈ l.*1 -> foldl (fun m kv => delete (fst kv) m) m l !! k = None.
Proof.
  induction l as [| [k' c] l IH]; intros m k Hin; simpl in *.
  - inversion Hin.
  - destruct (decide (k ∈ l.*1)) as [Hl | Hl]; [apply IH, Hl |].
    apply elem_of_cons in Hin. destruct Hin as [-> | Hin]; [| contradiction].
    clear IH. revert m. induction l as [| [k'' c'] l IHl]; intros m; simpl.
    + apply lookup_delete_eq.
    + simpl in Hl. apply not_elem_of_cons in Hl. destruct Hl as [Hne Hl].
      rewrite delete_delete. apply IHl, Hl.
Qed.

Lemma delete_all (m : gmap ExecutionContextID ExecutionContext)
    (l : list (ExecutionContextID * ExecutionContext)) :
  l ≡ₚ map_to_list m -> foldl (fun m kv => delete (fst kv) m) m l = ∅.
Proof.
  intros Hperm. apply map_empty. intros k.
  destruct (m !! k) as [c |] eqn:Hk.
  - apply lookup_delete_all. apply list_elem_of_fmap. exists (k, c). split; [reflexivity |].
    rewrite Hperm. apply elem_of_map_to_list. exact Hk.
  - clear Hperm. revert m Hk. induction l as [| [k' c'] l IH]; intros m Hk; simpl.
    + exact Hk.
    + apply IH. rewrite lookup_delete. case_decide; [reflexivity | exact Hk].
Qed.

Lemma clearContexts_run (fs : FrameSession) (w : World)
    (first second : list (ExecutionContextID * ExecutionContext)) :
  first ≡ₚ map_to_list (contextIDToContext fs) ->
  second ≡ₚ map_to_list (contextIDToContext fs) ->
  clearContexts first second (fs, w)
  = Returned tt (set_contextIDToContext ∅ fs,
                 set_manager (nullAll (contextsOf fs) (manager w)) w).
Proof.
  intros Hfirst Hsecond. unfold clearContexts, go_bind.
  rewrite forEach_nullFrameContext, forEach_delete.
  rewrite (delete_all _ _ Hsecond).
  rewrite (nullAll_Permutation first.*2 (contextsOf fs)); [reflexivity |].
  unfold contextsOf. rewrite Hfirst. reflexivity.
Qed.

Lemma cleared_run (s : FrameSession * World) :
  onExecutionContextsCleared s = Returned tt (afterCleared s).
Proof.
  destruct s as [fs w]. unfold onExecutionContextsCleared, afterCleared. run.
  cbn [fst snd]. rewrite clearContexts_run by reflexivity. reflexivity.
Qed.


End Properties.

(** ** The properties at work *)

Lemma updateGeolocation_nil_option_witness :
  updateGeolocation (H := Example.browser) true (Example.main, Example.theWorld)
    = Returned None
        (Example.main, entered "NewFrameSession:updateGeolocation" Example.theWorld)
  /\ updateGeolocation (H := Example.browser) false (Example.main, Example.theWorld)
    = Panicked (Example.main, entered "NewFrameSession:updateGeolocation" Example.theWorld).
Proof.
  pose proof (updateGeolocation_nil_option (H := Example.browser)
                Example.main Example.theWorld eq_refl) as (Htrue & _ & Hfalse).
  split; [exact Htrue | exact Hfalse].
Defined.

Lemma iframe_without_URL_is_detached_witness :
  exists w',
    onAttachedToTarget (H := Example.browser) Example.blankIframeAttached
      (Example.main, Example.theWorld) = Returned tt (Example.main, w')
    /\ sent w' = [("S1", RuntimeRunIfWaitingForDebugger); ("S1", TargetDetachFromTarget "S1")]
    /\ frameSessions w' = ∅.
Proof.
  destruct (iframe_without_URL_is_detached (H := Example.browser)
              Example.blankIframeAttached Example.main Example.theWorld)
    as (w' & Hrun & Hsent & _ & _ & Hfs & _);
    [reflexivity | reflexivity | vm_compute; reflexivity |].
  exists w'. split; [exact Hrun | split; [exact Hsent | exact Hfs]].
Defined.

Lemma iframe_target_attached_witness :
  onAttachedToTarget (H := Example.browser) Example.unknownIframeAttached
    (Example.main, Example.theWorld)
    = Returned tt (Example.main, entered "NewFrameSession:onAttachedToTarget" Example.theWorld)
  /\ frameSessions
       (snd (final (onAttachedToTarget (H := Example.browser) Example.iframeAttached
                      (Example.main, Example.theWorld)))) !! "F1"
     = Some Example.child.
Proof.
  split.
  - apply (iframe_target_attached (H := Example.browser) Example.unknownIframeAttached);
      [reflexivity | discriminate | reflexivity].
  - destruct (iframe_target_attached (H := Example.browser) Example.iframeAttached
                Example.main Example.theWorld eq_refl ltac:(discriminate)) as [_ Hthere].
    destruct (Hthere (Example.newFrame "F1" "T0" "http://test.k6.io/inner") Example.child
                (final Example.constructed)) as (Hrun & _);
      [reflexivity | vm_compute; reflexivity |].
    rewrite Hrun. vm_compute. reflexivity.
Defined.

Lemma failed_child_construction_witness :
  onAttachedToTarget (H := Example.closed) Example.iframeAttached
    (Example.main, Example.disconnectedWorld)
    = Returned tt (Example.main, final Example.dropped).
Proof.
  assert (constructionFails (H := Example.closed) Example.iframeAttached Example.main
            Example.disconnectedWorld
            "cannot create frame session (iframe): "
            "FrameSession:onAttachedToTarget:NewFrameSession:<-ctx.Done"
            (wrapError "unable to get window ID: "
               (errorString "websocket: close 1006 (abnormal closure)"))
            (final Example.dropped)) as Hfails.
  { apply (frameSessionFails (H := Example.closed) Example.iframeAttached Example.main
             Example.disconnectedWorld
             (Example.newFrame "F1" "T0" "http://test.k6.io/inner")).
    - reflexivity.
    - discriminate.
    - reflexivity.
    - vm_compute. reflexivity. }
  apply (failed_child_construction (H := Example.closed) _ _ _ _ _ _ _ Hfails).
  split; reflexivity.
Defined.

Lemma repeated_override_is_success_witness :
  emulateLocale (H := Example.overridden) (Example.main, Example.theWorld)
    = Returned None
        (Example.main,
         set_sent [("S0", EmulationSetLocaleOverride "en-US")] Example.theWorld)
  /\ emulateTimezone (H := Example.overridden) (Example.main, Example.theWorld)
    = Returned None
        (Example.main,
         set_sent [("S0", EmulationSetTimezoneOverride "Europe/Paris")] Example.theWorld).
Proof.
  destruct (repeated_override_is_success (H := Example.overridden)) as (Hlocale & Htz & _).
  split.
  - exact (Hlocale Example.main Example.theWorld
             (errorString "Another locale override is already in effect") eq_refl).
  - exact (Htz Example.main Example.theWorld
             (errorString "Timezone override is already in effect") eq_refl).
Defined.

Lemma page_lifecycle_event_witness :
  samples (snd (final (onPageLifecycle (H := Example.browser) Example.loaded
                         (Example.started, Example.theWorld))))
  = [[ {| sample_Metric := BrowserLoaded;
          sample_Tags := {[ "scenario" := "default"; "url" := "http://test.k6.io/" ]};
          sample_Value := 3000000000 |} ]].
Proof.
  destruct (page_lifecycle_event (H := Example.browser) Example.loaded Example.started
              Example.theWorld) as (_ & Hload & _).
  rewrite (Hload eq_refl). vm_compute. reflexivity.
Defined.

(** The context of the session is done: the "load" event of the main
    frame, a frame that the frame manager knows, is recorded, and no
    sample of BrowserLoaded is emitted. *)
Lemma page_lifecycle_done_counterexample :
  ctxDone Example.disconnectedWorld = true
  /\ lifecycle_Name Example.loaded = "load"
  /\ is_Some (getFrameByID (manager Example.disconnectedWorld)
                (lifecycle_FrameID Example.loaded))
  /\ exists w',
       onPageLifecycle (H := Example.browser) Example.loaded
         (Example.started, Example.disconnectedWorld)
         = Returned tt (Example.started, w')
       /\ is_Some (getFrameByID (manager w') (lifecycle_FrameID Example.loaded))
       /\ samples w' = [].
Proof.
  split; [reflexivity |]. split; [reflexivity |]. split; [vm_compute; eauto |].
  eexists. split; [vm_compute; reflexivity |]. split; [vm_compute; eauto | reflexivity].
Qed.


Lemma frame_tree_seeded_witness :
  walked (H := Example.loadedBrowser) (seedCalls Example.tree) None Example.main
    (set_sent [("S0", PageEnable); ("S0", PageGetFrameTree)] Example.freshWorld)
    (initFrameTree (H := Example.loadedBrowser) (Example.main, Example.freshWorld)).
Proof.
  apply (frame_tree_seeded (H := Example.loadedBrowser) Example.main Example.freshWorld
           Example.tree eq_refl eq_refl).
  reflexivity.
Defined.

(** The calls that seed the frame tree of the example, and the frames of
    the frame manager after them. *)
Example seedCalls_tree :
  seedCalls Example.tree
  = [ FrameNavigatedCall (Example.cdpFrame "T0" "" "http://test.k6.io/") true;
      FrameAttachedCall "F1" "T0";
      FrameNavigatedCall (Example.cdpFrame "F1" "T0" "http://test.k6.io/inner") true;
      FrameAttachedCall "F2" "F1";
      FrameNavigatedCall (Example.cdpFrame "F2" "F1" "http://test.k6.io/innermost") true ].
Proof. reflexivity. Qed.

(** The session of an iframe is constructed: the frame tree is fetched,
    and the frame manager is as before, although the calls that seed the
    tree would have changed it. *)
Lemma frame_tree_not_walked_counterexample :
  (exists fs w',
     NewFrameSession (H := Example.loadedBrowser) (Some "S1") Example.thePage
       (Some Example.main) "F1" Example.theWorld = Returned (inr fs) w'
     /\ In ("S1", PageGetFrameTree) (sent w')
     /\ manager w' = manager Example.theWorld)
  /\ fst (applyCalls (H := Example.loadedBrowser) (seedCalls Example.tree)
            (manager Example.theWorld))
     <> manager Example.theWorld.
Proof.
  split.
  - destruct (NewFrameSession (H := Example.loadedBrowser) (Some "S1") Example.thePage
                (Some Example.main) "F1" Example.theWorld) as [[e | fs] w' | e w' | w'] eqn:Hnew;
      try (vm_compute in Hnew; discriminate Hnew).
    exists fs, w'. split; [reflexivity |].
    assert (w' = final (NewFrameSession (H := Example.loadedBrowser) (Some "S1")
                          Example.thePage (Some Example.main) "F1" Example.theWorld)) as ->
      by (rewrite Hnew; reflexivity).
    split; vm_compute; [tauto | reflexivity].
  - intros Heq.
    apply (f_equal (fun m => frame_loaderID <$> frames m !! "T0")) in Heq.
    vm_compute in Heq. discriminate Heq.
Qed.


Lemma console_and_log_severity_witness :
  (exists w' before e,
     onConsoleAPICalled (H := Example.browser) Example.warned (Example.main, Example.theWorld)
       = Returned tt (Example.main, w')
     /\ entries w' = before ++ [e]
     /\ entry_Level e = WarnLevel)
  /\ (exists w' e,
     onLogEntryAdded Example.logEntry (Example.main, Example.theWorld)
       = Returned tt (Example.main, w')
     /\ entries w' = [e]
     /\ entry_Level e = DebugLevel).
Proof.
  destruct (console_and_log_severity (H := Example.browser) Example.warned Example.logEntry
              Example.main Example.theWorld)
    as [(w' & before & e & Hrun & Hentries & _ & Hlevel)
        (w2 & e2 & Hrun2 & Hentries2 & _ & _ & Hlevel2)].
  split.
  - exists w', before, e. split; [exact Hrun |]. split; [exact Hentries | exact Hlevel].
  - exists w2, e2. split; [exact Hrun2 |]. split; [exact Hentries2 | exact Hlevel2].
Defined.

(** Two sessions have created the utility world in the main frame: the
    frame holds the context that came first, the session knows both. *)
Example utility_world_race_example :
  exists fs' w',
    (onExecutionContextCreated (Example.utilityCreated 1) ;;
     onExecutionContextCreated (Example.utilityCreated 2)) (Example.main, Example.theWorld)
      = Returned tt (fs', w')
    /\ slotOf (manager w') "T0" utilityExecutionContext
       = Some {| ec_session := "S0"; ec_frame := Some "T0"; ec_id := 1 |}
    /\ dom (contextIDToContext fs') = {[ 1; 2 ]}.
Proof.
  eexists. eexists. split; [vm_compute; reflexivity |].
  split; vm_compute; reflexivity.
Qed.

(** * More of the session: properties *)

Section MoreProperties.

Context `{Collaborators} `{PageCollaborators}.

(** ** Destroying an execution context *)

Lemma destroyed_run (id : ExecutionContextID) (s : FrameSession * World) :
  onExecutionContextDestroyed id s = Returned tt (afterDestroyed id s).
Proof.
  destruct s as [fs w]. unfold onExecutionContextDestroyed, afterDestroyed, nullFrameContext.
  run. cbn [fst snd].
  destruct (contextIDToContext fs !! id) as [context |]; [| reflexivity].
  destruct (ec_frame context); reflexivity.
Qed.




(** ** Creating and destroying *)



(** ** Steps *)

Lemma go_bind_inv {S A B} (m : Go S A) (k : A -> Go S B) s b s' :
  go_bind m k s = Returned b s' ->
  exists a s1, m s = Returned a s1 /\ k a s1 = Returned b s'.
Proof.
  unfold go_bind. destruct (m s) as [a s1 | e s1 | s1]; [| discriminate | discriminate].
  intros Hk. exists a, s1. split; [reflexivity | exact Hk].
Qed.

Lemma orReturn_inv {S} (m k : Go S (option error)) s s' :
  orReturn m k s = Returned None s' ->
  exists s1, m s = Returned None s1 /\ k s1 = Returned None s'.
Proof.
  unfold orReturn. intros Hrun. apply go_bind_inv in Hrun as (err & s1 & Hm & Hk).
  destruct err as [e |]; [discriminate |]. exists s1. split; assumption.
Qed.

Lemma logged_inv category (m : Method (option error)) s s' :
  logged category m s = Returned None s' -> m s = Returned None s'.
Proof.
  unfold logged. intros Hrun. apply go_bind_inv in Hrun as (err & s1 & Hm & Hk).
  destruct err as [e |].
  - apply go_bind_inv in Hk as (? & ? & _ & Hk). discriminate.
  - inversion Hk; subst. exact Hm.
Qed.

Section Steps.

Context (R : relation (FrameSession * World)) `{!Reflexive R} `{!Transitive R}.

Lemma step_final {A} (m : Method A) s : final (m s) = s -> step R m s.
Proof. unfold step. intros ->. reflexivity. Qed.

Lemma step_ret {A} (a : A) s : step R (return_ a) s.
Proof. apply step_final. reflexivity. Qed.

Lemma step_panic {A} s : step R (panic (A := A)) s.
Proof. apply step_final. reflexivity. Qed.

Lemma step_k6Throw {A} format err s : step R (k6Throw (A := A) format err) s.
Proof. apply step_final. reflexivity. Qed.

Lemma step_self s : step R self s.
Proof. apply step_final. reflexivity. Qed.

Lemma step_world s : step R world s.
Proof. apply step_final. reflexivity. Qed.

Lemma step_bind_self {B} (k : FrameSession -> Method B) s :
  step R (k (fst s)) s -> step R (go_bind self k) s.
Proof. exact id. Qed.

Lemma step_bind_world {B} (k : World -> Method B) s :
  step R (k (snd s)) s -> step R (go_bind world k) s.
Proof. exact id. Qed.

Lemma step_bind {A B} (m : Method A) (k : A -> Method B) s :
  step R m s ->
  (forall a s1, R s s1 -> step R (k a) s1) ->
  step R (go_bind m k) s.
Proof.
  unfold step, go_bind. intros Hm Hk.
  destruct (m s) as [a s1 | e s1 | s1]; simpl in *; [| exact Hm | exact Hm].
  transitivity s1; [exact Hm | apply Hk, Hm].
Qed.

Lemma step_orReturn (m k : Method (option error)) s :
  step R m s ->
  (forall s1, R s s1 -> step R k s1) ->
  step R (orReturn m k) s.
Proof.
  intros Hm Hk. unfold orReturn. apply step_bind; [exact Hm |].
  intros [e |] s1 Hs1; [apply step_ret | apply Hk, Hs1].
Qed.

Lemma step_logged category (m : Method (option error)) s :
  (forall s1, step R (debugf category) s1) ->
  step R m s -> step R (logged category m) s.
Proof.
  intros Hdebugf Hm. unfold logged. apply step_bind; [exact Hm |].
  intros [e |] s1 _; [| apply step_ret].
  apply step_bind; [apply Hdebugf | intros; apply step_ret].
Qed.

Lemma step_forEach {A} (body : A -> Method unit) (P : A -> Prop) (l : list A) :
  (forall x s, P x -> step R (body x) s) ->
  Forall P l -> forall s, step R (forEach body l) s.
Proof.
  intros Hbody Hl. induction Hl as [| x l Hx _ IH]; intros s; simpl.
  - apply step_ret.
  - apply step_bind; [apply Hbody, Hx | intros _ s1 _; apply IH].
Qed.

Lemma step_forEachErr {A} (body : A -> Method (option error)) (P : A -> Prop) (l : list A) :
  (forall x s, P x -> step R (body x) s) ->
  Forall P l -> forall s, step R (forEachErr body l) s.
Proof.
  intros Hbody Hl. induction Hl as [| x l Hx _ IH]; intros s; simpl.
  - apply step_ret.
  - apply step_bind; [apply Hbody, Hx |].
    intros [e |] s1 _; [apply step_ret | apply IH].
Qed.

End Steps.

(** The steps of a method, one after the other; what is left are the
    steps that write. *)
Ltac steps_with leaf :=
  cbv zeta;
  repeat
    lazymatch goal with
    | |- step _ (go_ret _) _ => apply step_ret; try typeclasses eauto
    | |- step _ panic _ => apply step_panic; try typeclasses eauto
    | |- step _ (k6Throw _ _) _ => apply step_k6Throw; try typeclasses eauto
    | |- step _ self _ => apply step_self; try typeclasses eauto
    | |- step _ world _ => apply step_world; try typeclasses eauto
    | |- step _ (go_bind self _) _ => apply step_bind_self
    | |- step _ (go_bind world _) _ => apply step_bind_world
    | |- step _ (orReturn _ _) _ =>
        apply step_orReturn; [try typeclasses eauto .. | | intros ? ?]
    | |- step _ (go_bind _ _) _ =>
        apply step_bind; [try typeclasses eauto .. | | intros ? ? ?]
    | |- step _ (match ?x with _ => _ end) _ => destruct x
    | |- _ => leaf
    end.

(** ** What the handlers do to the session *)

#[local] Instance unchanged_reflexive : Reflexive unchanged.
Proof. intros s. reflexivity. Qed.

#[local] Instance unchanged_transitive : Transitive unchanged.
Proof. intros s s1 s2 H1 H2. unfold unchanged in *. congruence. Qed.

Lemma unchanged_call {A} (m : Go World A) s : step unchanged (call m) s.
Proof. unfold step, unchanged, call. destruct (m (snd s)); reflexivity. Qed.

Ltac unchanged_leaf :=
  idtac;
  lazymatch goal with
  | |- step unchanged (call _) _ => apply unchanged_call
  | |- step unchanged (modify_world _) _ => reflexivity
  | |- step unchanged (debugf _) _ => reflexivity
  | |- step unchanged (Do _) _ => reflexivity
  | |- step unchanged (logAt _ _ _ _ _) _ => reflexivity
  | |- step unchanged (ExecuteWithoutExpectationOnReply _ _) _ => reflexivity
  | |- step unchanged (handleParseRemoteObjectErr _) _ => reflexivity
  | |- step unchanged (PushIfNotDone _) _ => reflexivity
  | |- step unchanged (attachFrameSession _ _) _ => reflexivity
  end.

Ltac unchanged_steps := steps_with unchanged_leaf.

Lemma unchanged_parseArgs (args : list RemoteObject) :
  forall parsedObjects s, step unchanged (parseArgs args parsedObjects) s.
Proof.
  induction args as [| robj args IH]; intros parsedObjects s; simpl.
  - apply step_ret; typeclasses eauto.
  - unchanged_steps. apply IH.
Qed.

Lemma unchanged_onConsoleAPICalled event s : step unchanged (onConsoleAPICalled event) s.
Proof.
  unfold onConsoleAPICalled. unchanged_steps. apply unchanged_parseArgs.
Qed.

Lemma unchanged_onLogEntryAdded event s : step unchanged (onLogEntryAdded event) s.
Proof. unfold onLogEntryAdded. unchanged_steps. Qed.

Lemma unchanged_onFrameNavigated frame initial s :
  step unchanged (onFrameNavigated frame initial) s.
Proof. unfold onFrameNavigated. unchanged_steps. Qed.

Lemma unchanged_onFrameRequestedNavigation event s :
  step unchanged (onFrameRequestedNavigation event) s.
Proof. unfold onFrameRequestedNavigation. unchanged_steps. Qed.

Lemma unchanged_onAttachedToTarget event s : step unchanged (onAttachedToTarget event) s.
Proof. unfold onAttachedToTarget, NewWorker. unchanged_steps. Qed.

Lemma unchanged_onTargetCrashed s : step unchanged onTargetCrashed s.
Proof. unfold onTargetCrashed. unchanged_steps. Qed.

Lemma unchanged_pushDuration metric frame event s :
  step unchanged (pushDuration metric frame event) s.
Proof. unfold pushDuration. unchanged_steps. Qed.

(** The session once [onPageLifecycle] has ended: its init time is the
    time of an event named "init" or "commit". *)
Lemma onPageLifecycle_self event s :
  fst (final (onPageLifecycle event s))
  = if setsInitTime event then set_initTime (lifecycle_Timestamp event) (fst s) else fst s.
Proof.
  destruct s as [fs w]. unfold onPageLifecycle, setsInitTime.
  set (b := String.eqb (lifecycle_Name event) "init"
            || String.eqb (lifecycle_Name event) "commit").
  match goal with
  | |- fst (final (go_bind _ (fun _ => go_bind _ (fun _ => ?rest)) _)) = _ =>
      assert (forall s1, step unchanged rest s1) as Hrest
  end.
  { intros s1. unchanged_steps; apply unchanged_pushDuration. }
  unfold go_bind at 1 2. unfold debugf, modify_world. cbn [fst snd].
  destruct b; unfold modify_self, go_ret; cbn [fst snd]; apply Hrest.
Qed.

Lemma handleEvent_self (event : Event) (s : FrameSession * World) :
  fst (final (handleEvent event s)) = selfAfter event s.
Proof.
  destruct event; cbn [handleEvent selfAfter];
    try match goal with
        | |- fst (final (?m s)) = fst s => change (step unchanged m s)
        end.
  - apply unchanged_onTargetCrashed.
  - apply unchanged_onLogEntryAdded.
  - unfold onFrameAttached. unchanged_steps.
  - unfold onFrameDetached. unchanged_steps.
  - apply unchanged_onFrameNavigated.
  - apply unchanged_onFrameRequestedNavigation.
  - unfold onFrameStartedLoading. unchanged_steps.
  - unfold onFrameStoppedLoading. unchanged_steps.
  - apply onPageLifecycle_self.
  - unfold onPageNavigatedWithinDocument. unchanged_steps.
  - apply unchanged_onConsoleAPICalled.
  - reflexivity.
  - destruct (created_AuxData event) as [err | i] eqn:Haux.
    + unfold onExecutionContextCreated. rewrite Haux. reflexivity.
    + rewrite (created_run event i s Haux). reflexivity.
  - rewrite destroyed_run. reflexivity.
  - rewrite cleared_run. reflexivity.
  - apply unchanged_onAttachedToTarget.
  - unfold onDetachedFromTarget. unchanged_steps.
  - reflexivity.
Qed.

(** ** Invariants of the loop *)

Lemma forEach_invariant {A} (body : A -> Method unit) (I : FrameSession * World -> Prop)
    (P : A -> Prop) (l : list A) :
  (forall x s, P x -> I s -> I (final (body x s))) ->
  Forall P l -> forall s, I s -> I (final (forEach body l s)).
Proof.
  intros Hbody Hl. induction Hl as [| x l Hx _ IH]; intros s Hs; simpl; [exact Hs |].
  unfold go_bind. pose proof (Hbody x s Hx Hs) as Hs1.
  destruct (body x s) as [[] s1 | e s1 | s1]; simpl in *; [apply IH, Hs1 | exact Hs1 ..].
Qed.

Lemma forEach_returned_inv {A} (body : A -> Method unit) (x : A) (l : list A) s s' :
  forEach body (x :: l) s = Returned tt s' ->
  exists s1, body x s = Returned tt s1 /\ forEach body l s1 = Returned tt s'.
Proof.
  simpl. intros Hrun. apply go_bind_inv in Hrun as ([] & s1 & Hx & Hl).
  exists s1. split; assumption.
Qed.

Lemma sameSession_refl (fs : FrameSession) : sameSession fs fs.
Proof. repeat split; reflexivity. Qed.

Lemma sameSession_trans (fs fs1 fs2 : FrameSession) :
  sameSession fs fs1 -> sameSession fs1 fs2 -> sameSession fs fs2.
Proof.
  intros (? & ? & ? & ? & ? & ? & ? & ?) (? & ? & ? & ? & ? & ? & ? & ?).
  repeat split; try congruence. etransitivity; eassumption.
Qed.

Lemma sameSession_selfAfter (event : Event) (s : FrameSession * World) :
  sameSession (fst s) (selfAfter event s).
Proof.
  destruct s as [fs w].
  destruct event; cbn [selfAfter fst]; try apply sameSession_refl.
  - destruct (setsInitTime event); repeat split; reflexivity.
  - destruct (created_AuxData event) as [err | i]; [apply sameSession_refl |].
    unfold afterCreated. cbv zeta. cbn [fst snd].
    destruct (String.eqb (aux_Type i) "isolated"); repeat split; try reflexivity.
    cbn [isolatedWorlds set_isolatedWorlds set_contextIDToContext].
    rewrite dom_insert. set_solver.
  - unfold afterDestroyed. cbn [fst snd].
    destruct (contextIDToContext fs !! executionContextID); repeat split; reflexivity.
  - repeat split; reflexivity.
Qed.

(** X3.  Whatever events the loop of the session handles, in whatever
    state, and however the handling ends: the session keeps its CDP
    session, its page, its parent, its network manager, its target, its
    window and its child sessions, and no isolated world that it has
    recorded is forgotten.  The handlers write the init time, the map of
    the execution contexts and the isolated worlds, and nothing else of
    the session. *)
Theorem events_keep_session (events : list Event) (fs : FrameSession) (w : World) :
  sameSession fs (fst (final (handleEvents events (fs, w)))).
Proof.
  unfold handleEvents.
  apply (forEach_invariant handleEvent (fun s => sameSession fs (fst s)) (fun _ => True)).
  - intros event s _ Hs. rewrite handleEvent_self.
    eapply sameSession_trans; [exact Hs | apply sameSession_selfAfter].
  - apply Forall_forall. intros; exact I.
  - apply sameSession_refl.
Qed.

Lemma wellKeyed_selfAfter (event : Event) (s : FrameSession * World) :
  wellKeyed (fst s) -> wellKeyed (selfAfter event s).
Proof.
  destruct s as [fs w]. intros Hkeyed.
  destruct event; cbn [selfAfter fst]; try exact Hkeyed.
  - destruct (setsInitTime event); exact Hkeyed.
  - destruct (created_AuxData event) as [err | i]; [exact Hkeyed |].
    intros k c. rewrite afterCreated_map. cbn [fst snd].
    assert (session (fst (afterCreated event i (fs, w))) = session fs) as ->.
    { unfold afterCreated. cbv zeta. cbn [fst snd].
      destruct (String.eqb (aux_Type i) "isolated"); reflexivity. }
    destruct (decide (created_ID event = k)) as [<- | Hne].
    + rewrite lookup_insert_eq. intros [= <-]. split; reflexivity.
    + rewrite lookup_insert_ne by exact Hne. apply Hkeyed.
  - unfold afterDestroyed. cbn [fst snd].
    destruct (contextIDToContext fs !! executionContextID); [| exact Hkeyed].
    intros k c. cbn [contextIDToContext set_contextIDToContext session fst].
    intros Hlookup. apply lookup_delete_Some in Hlookup as [_ Hlookup].
    apply (Hkeyed k c Hlookup).
  - intros k c. cbn [contextIDToContext set_contextIDToContext].
    rewrite lookup_empty. discriminate.
Qed.

(** X4.  The map of the execution contexts stays well keyed: if every
    context of the map is there under its own id and is a context of the
    CDP session of the frame session, then so it is after any events that
    the loop handles, however the handling ends. *)
Theorem events_keep_contexts_keyed (events : list Event) (fs : FrameSession) (w : World) :
  wellKeyed fs ->
  wellKeyed (fst (final (handleEvents events (fs, w)))).
Proof.
  intros Hkeyed. unfold handleEvents.
  apply (forEach_invariant handleEvent (fun s => wellKeyed (fst s)) (fun _ => True)).
  - intros event s _ Hs. rewrite handleEvent_self. apply wellKeyed_selfAfter, Hs.
  - apply Forall_forall. intros; exact I.
  - exact Hkeyed.
Qed.

Lemma initTime_selfAfter (event : Event) (s : FrameSession * World) :
  initTime (selfAfter event s) = lastInit [event] (initTime (fst s)).
Proof.
  destruct s as [fs w].
  destruct event; cbn [selfAfter fst lastInit foldl]; try reflexivity.
  - destruct (setsInitTime event); reflexivity.
  - destruct (created_AuxData event) as [err | i]; [reflexivity |].
    unfold afterCreated. cbv zeta. cbn [fst snd].
    destruct (String.eqb (aux_Type i) "isolated"); reflexivity.
  - unfold afterDestroyed. cbn [fst snd].
    destruct (contextIDToContext fs !! executionContextID); reflexivity.
Qed.

(** X5.  When the loop has handled the events and none of the handlers
    has thrown, the init time of the session is the time of the last
    lifecycle event named "init" or "commit" among them, whatever frame
    that event is about; with no such event it is what it was. *)
Theorem init_time_of_events (events : list Event) (fs fs' : FrameSession) (w w' : World) :
  handleEvents events (fs, w) = Returned tt (fs', w') ->
  initTime fs' = lastInit events (initTime fs).
Proof.
  unfold handleEvents. revert fs w.
  induction events as [| event events IH]; intros fs w Hrun.
  - inversion Hrun; subst. reflexivity.
  - apply forEach_returned_inv in Hrun as ([fs1 w1] & Hevent & Hrun).
    rewrite (IH fs1 w1 Hrun).
    pose proof (handleEvent_self event (fs, w)) as Hself. rewrite Hevent in Hself.
    cbn [final fst] in Hself. rewrite Hself, initTime_selfAfter. reflexivity.
Qed.

(** ** The slots of the frames *)








(** ** The contexts that are alive *)

Lemma dom_selfAfter (event : Event) (s s1 : FrameSession * World) :
  handleEvent event s = Returned tt s1 ->
  dom (contextIDToContext (fst s1)) = liveIds [event] (dom (contextIDToContext (fst s))).
Proof.
  intros Hrun. pose proof (handleEvent_self event s) as Hself.
  rewrite Hrun in Hself. cbn [final] in Hself. rewrite Hself. clear Hself.
  destruct s as [fs w].
  destruct event; cbn [selfAfter liveIds foldl fst]; try reflexivity.
  - destruct (setsInitTime event); reflexivity.
  - destruct (created_AuxData event) as [err | i] eqn:Haux.
    + cbn [handleEvent] in Hrun. unfold onExecutionContextCreated in Hrun.
      rewrite Haux in Hrun. discriminate.
    + rewrite afterCreated_map. cbn [fst]. apply dom_insert_L.
  - unfold afterDestroyed. cbn [fst snd].
    destruct (contextIDToContext fs !! executionContextID) as [context |] eqn:Hid.
    + cbn [fst contextIDToContext set_contextIDToContext]. apply dom_delete_L.
    + cbn [fst]. apply not_elem_of_dom in Hid.
      symmetry. apply difference_disjoint_L, disjoint_singleton_r, Hid.
Qed.

Lemma liveIds_cons (event : Event) (events : list Event) (ids : gset ExecutionContextID) :
  liveIds (event :: events) ids = liveIds events (liveIds [event] ids).
Proof. reflexivity. Qed.

(** X7.  The map of the session holds the execution contexts that are
    alive: when the loop has handled the events and no handler has
    thrown, the ids of the map are the ids that were there, with the ones
    of the contexts created since and without the ones destroyed since,
    all counted from the last event that cleared the contexts. *)
Theorem live_contexts (events : list Event) (fs fs' : FrameSession) (w w' : World) :
  handleEvents events (fs, w) = Returned tt (fs', w') ->
  dom (contextIDToContext fs') = liveIds events (dom (contextIDToContext fs)).
Proof.
  unfold handleEvents. revert fs w.
  induction events as [| event events IH]; intros fs w Hrun.
  - inversion Hrun; subst. reflexivity.
  - apply forEach_returned_inv in Hrun as ([fs1 w1] & Hevent & Hrun).
    rewrite (IH fs1 w1 Hrun), liveIds_cons.
    f_equal. apply (dom_selfAfter event (fs, w) (fs1, w1) Hevent).
Qed.

(** ** Lifecycle events, whatever their name *)

Lemma set_initTime_same (fs : FrameSession) : set_initTime (initTime fs) fs = fs.
Proof. destruct fs; reflexivity. Qed.

Lemma eventToMetric_measured (name : string) (metric : Metric) :
  eventToMetric name = Some metric -> In name measured.
Proof.
  unfold eventToMetric, measured.
  destruct (String.eqb name "firstPaint") eqn:H1;
    [apply String.eqb_eq in H1; subst; simpl; auto 6 |].
  destruct (String.eqb name "firstContentfulPaint") eqn:H2;
    [apply String.eqb_eq in H2; subst; simpl; auto 6 |].
  destruct (String.eqb name "firstMeaningfulPaint") eqn:H3;
    [apply String.eqb_eq in H3; subst; simpl; auto 6 | discriminate].
Qed.

(** X8.  What a page lifecycle event that carries its timestamp changes,
    however [onPageLifecycle] ends.  Of the session the handler writes the
    init time alone, for an event named "init" or "commit".  It sends no
    command and logs no entry.  It pushes at most one container, of one
    sample; it pushes none when the context is done, when the frame
    manager does not know the frame once the event is recorded, and for a
    name other than the five that are measured.  The frame manager is
    written for "load" and "DOMContentLoaded" alone. *)
Theorem page_lifecycle_effects (event : EventLifecycleEvent) (fs : FrameSession) (w : World) :
  let s' := final (onPageLifecycle event (fs, w)) in
  fst s' = (if setsInitTime event then set_initTime (lifecycle_Timestamp event) fs else fs)
  /\ sent (snd s') = sent w
  /\ entries (snd s') = entries w
  /\ (samples (snd s') = samples w
      \/ exists sample, samples (snd s') = samples w ++ [[sample]])
  /\ (ctxDone w = true -> samples (snd s') = samples w)
  /\ (getFrameByID (manager (snd s')) (lifecycle_FrameID event) = None ->
      samples (snd s') = samples w)
  /\ (~ In (lifecycle_Name event) measured -> samples (snd s') = samples w)
  /\ (lifecycle_Name event <> "load" -> lifecycle_Name event <> "DOMContentLoaded" ->
      manager (snd s') = manager w).
Proof.
  cbv zeta.
  assert (exists w',
    onPageLifecycle event (fs, w)
      = Returned tt
          (if setsInitTime event then set_initTime (lifecycle_Timestamp event) fs else fs, w')
    /\ sent w' = sent w
    /\ entries w' = entries w
    /\ (samples w' = samples w \/ exists sample, samples w' = samples w ++ [[sample]])
    /\ (ctxDone w = true -> samples w' = samples w)
    /\ (getFrameByID (manager w') (lifecycle_FrameID event) = None -> samples w' = samples w)
    /\ (~ In (lifecycle_Name event) measured -> samples w' = samples w)
    /\ (lifecycle_Name event <> "load" -> lifecycle_Name event <> "DOMContentLoaded" ->
        manager w' = manager w)) as (w' & Hrun & Heffects);
    [| rewrite Hrun; split; [reflexivity | exact Heffects]].
  unfold onPageLifecycle, setsInitTime.
  set (w1 := entered "NewFrameSession:onPageLifecycle" w).
  assert (forall (fs1 : FrameSession) (recorded : LifecycleEvent) (metric : Metric),
            exists w',
              (modify_world (fun w =>
                 set_manager
                   (frameLifecycleEvent (lifecycle_FrameID event) recorded (manager w)) w) ;;
               w <- world ;;
               match getFrameByID (manager w) (lifecycle_FrameID event) with
               | Some frame => pushDuration metric frame event
               | None => return_ tt
               end) (fs1, w1) = Returned tt (fs1, w')
              /\ sent w' = sent w
              /\ entries w' = entries w
              /\ (samples w' = samples w \/ exists sample, samples w' = samples w ++ [[sample]])
              /\ (ctxDone w = true -> samples w' = samples w)
              /\ (getFrameByID (manager w') (lifecycle_FrameID event) = None ->
                  samples w' = samples w)) as Hrecorded.
  { intros fs1 recorded metric. unfold go_bind at 1 2. unfold modify_world, world. cbn [fst snd].
    destruct (getFrameByID
                (manager (set_manager
                   (frameLifecycleEvent (lifecycle_FrameID event) recorded (manager w1)) w1))
                (lifecycle_FrameID event)) as [frame |] eqn:Hframe.
    - rewrite pushDuration_run. eexists. split; [reflexivity |].
      cbn [ctxDone set_manager w1 entered set_debug].
      destruct (ctxDone w) eqn:Hdone.
      + repeat split; try reflexivity; auto.
      + repeat split; try reflexivity; eauto; try discriminate.
        cbn [manager set_samples set_manager]. cbn [manager set_manager] in Hframe.
        rewrite Hframe. discriminate.
    - eexists. split; [reflexivity |]. repeat split; try reflexivity; auto. }
  unfold go_bind at 1 2. unfold debugf at 1. unfold modify_world at 1. cbn [fst snd].
  change (set_debug (debug w ++ ["NewFrameSession:onPageLifecycle"]) w) with w1.
  set (fs1 := if String.eqb (lifecycle_Name event) "init"
                 || String.eqb (lifecycle_Name event) "commit"
              then set_initTime (lifecycle_Timestamp event) fs else fs).
  match goal with
  | |- exists w', match ?m with _ => _ end = _ /\ _ =>
      replace m with (Returned (S := FrameSession * World) tt (fs1, w1))
        by (unfold fs1; destruct (_ || _); reflexivity)
  end.
  destruct (String.eqb (lifecycle_Name event) "load") eqn:Hload.
  { destruct (Hrecorded fs1 LifecycleEventLoad BrowserLoaded)
      as (w' & Hrun & Hsent & Hentries & Hsamples & Hdone & Hframe).
    exists w'. split; [exact Hrun |]. repeat split; try assumption.
    - intros Hn. apply String.eqb_eq in Hload. exfalso. apply Hn. rewrite Hload. simpl. auto.
    - intros Hne. apply String.eqb_eq in Hload. contradiction. }
  destruct (String.eqb (lifecycle_Name event) "DOMContentLoaded") eqn:Hdom.
  { destruct (Hrecorded fs1 LifecycleEventDOMContentLoad BrowserDOMContentLoaded)
      as (w' & Hrun & Hsent & Hentries & Hsamples & Hdone & Hframe).
    exists w'. split; [exact Hrun |]. repeat split; try assumption.
    - intros Hn. apply String.eqb_eq in Hdom. exfalso. apply Hn. rewrite Hdom. simpl. auto.
    - intros _ Hne. apply String.eqb_eq in Hdom. contradiction. }
  unfold go_bind, world. cbn [fst snd].
  destruct (getFrameByID (manager w1) (lifecycle_FrameID event)) as [frame |] eqn:Hframe.
  - destruct (eventToMetric (lifecycle_Name event)) as [metric |] eqn:Hmetric.
    + rewrite pushDuration_run. eexists. split; [reflexivity |].
      cbn [ctxDone w1 entered set_debug].
      destruct (ctxDone w) eqn:Hdone.
      * repeat split; try reflexivity; auto.
      * repeat split; try reflexivity; eauto; try discriminate.
        -- cbn [manager set_samples]. rewrite Hframe. discriminate.
        -- intros Hn. exfalso. apply Hn. eapply eventToMetric_measured, Hmetric.
    + eexists. split; [reflexivity |]. repeat split; try reflexivity; auto.
  - eexists. split; [reflexivity |]. repeat split; try reflexivity; auto.
Qed.

(** ** Handlers that return *)

Lemma returns_ret {A} (a : A) s : returns (return_ a) s.
Proof. exists a, s. reflexivity. Qed.

Lemma returns_bind {A B} (m : Method A) (k : A -> Method B) s :
  returns m s -> (forall a s1, returns (k a) s1) -> returns (go_bind m k) s.
Proof.
  intros (a & s1 & Hm) Hk. unfold returns, go_bind. rewrite Hm. apply Hk.
Qed.

Lemma returns_forEach {A} (body : A -> Method unit) (P : A -> Prop) (l : list A) :
  (forall x s, P x -> returns (body x) s) ->
  Forall P l -> forall s, exists s', forEach body l s = Returned tt s'.
Proof.
  intros Hbody Hl. induction Hl as [| x l Hx _ IH]; intros s; simpl.
  - exists s. reflexivity.
  - destruct (Hbody x s Hx) as ([] & s1 & Hrun). unfold go_bind. rewrite Hrun. apply IH.
Qed.

Ltac returns_steps :=
  cbv zeta;
  repeat
    lazymatch goal with
    | |- returns (go_ret _) _ => apply returns_ret
    | |- returns self _ => eexists _, _; reflexivity
    | |- returns world _ => eexists _, _; reflexivity
    | |- returns (modify_world _) _ => eexists _, _; reflexivity
    | |- returns (modify_self _) _ => eexists _, _; reflexivity
    | |- returns (debugf _) _ => eexists _, _; reflexivity
    | |- returns (go_bind _ _) _ => apply returns_bind; [| intros ? ?]
    | |- returns (match ?x with _ => _ end) _ => destruct x
    end.

Lemma returns_handleEvent (event : Event) (s : FrameSession * World) :
  harmless event -> returns (handleEvent event) s.
Proof.
  intros Hevent. destruct event; try contradiction; cbn [handleEvent].
  - unfold onTargetCrashed. returns_steps.
  - unfold onFrameAttached. returns_steps.
  - unfold onFrameDetached. returns_steps.
  - unfold onFrameStartedLoading. returns_steps.
  - unfold onFrameStoppedLoading. returns_steps.
  - unfold onPageNavigatedWithinDocument. returns_steps.
  - unfold onExceptionThrown. returns_steps.
  - eexists _, _. apply destroyed_run.
  - eexists _, _. apply cleared_run.
  - unfold onDetachedFromTarget. returns_steps.
  - apply returns_ret.
Qed.

(** X9.  The handlers of an attached or detached frame, of a frame that
    starts or stops loading, of a navigation within the document, of an
    exception, of a destroyed execution context, of the cleared execution
    contexts, of a detached target and of a crashed target return,
    whatever the state: they never throw, so the loop handles any number
    of such events, one after the other, and goes on.  (The methods of the
    frame manager, of the page, of the CDP session and of the logger that
    they call are taken to return.) *)
Theorem harmless_events_return (events : list Event) (s : FrameSession * World) :
  Forall harmless events ->
  exists s', handleEvents events s = Returned tt s'.
Proof.
  intros Hevents. unfold handleEvents.
  apply (returns_forEach handleEvent harmless); [| exact Hevents].
  intros event s1 Hevent. apply returns_handleEvent, Hevent.
Qed.

(** ** Attached targets *)

Lemma getSession_Some (w : World) (sid sid' : SessionID) :
  getSession w sid = Some sid' -> sid' = sid.
Proof. unfold getSession. destruct (decide (sid ∈ sessions w)); congruence. Qed.

Lemma NewFrameSession_measurements sess pg parentFS tid w :
  let w' := final (NewFrameSession sess pg parentFS tid w) in
  state w' = state w /\ samples w' = samples w /\ entries w' = entries w.
Proof.
  unfold NewFrameSession. destruct sess as [sid |]; [| simpl; tauto].
  set (fs := {| session := sid; page := pg |}).
  assert (keeps false (construct (parentFS ≫= networkManager)) (fs, w)) as Hk
    by (apply keeps_construct; discriminate).
  unfold keeps, view in Hk.
  destruct (construct _ (fs, w)) as [[e |] [fs' w'] | e [fs' w'] | [fs' w']]; simpl in *;
    repeat split; congruence.
Qed.

Ltac registries :=
  subst;
  cbv [debugf modify_world k6Throw go_ret go_bind panic ExecuteWithoutExpectationOnReply];
  cbn [final fst snd frameSessions workers sessions samples entries manager
       set_debug set_sent];
  repeat split; intros; try reflexivity; try contradiction; try congruence.

(** X10.  However [onAttachedToTarget] ends, it leaves the session as it
    is, registers no frame session but under the id of the target of the
    event, and no worker but under the id of the CDP session of the event.
    For a target that is no iframe the frame sessions and the frame
    manager are left as they are, and for a target that is no worker the
    workers.  The connection, the samples and the log entries are left
    alone. *)
Theorem attached_target_registries
    (event : EventAttachedToTarget) (fs : FrameSession) (w : World) :
  let s' := final (onAttachedToTarget event (fs, w)) in
  fst s' = fs
  /\ (forall fid, fid <> attached_TargetID event ->
        frameSessions (snd s') !! fid = frameSessions w !! fid)
  /\ (forall sid, sid <> attached_SessionID event ->
        workers (snd s') !! sid = workers w !! sid)
  /\ (attached_Type event <> "iframe" ->
        frameSessions (snd s') = frameSessions w /\ manager (snd s') = manager w)
  /\ (attached_Type event <> "worker" -> workers (snd s') = workers w)
  /\ sessions (snd s') = sessions w
  /\ samples (snd s') = samples w
  /\ entries (snd s') = entries w.
Proof.
  intros s'. assert (s' = final (onAttachedToTarget event (fs, w))) as Hs' by reflexivity.
  clearbody s'. unfold onAttachedToTarget in Hs'.
  unfold go_bind at 1 2 3 in Hs'. unfold debugf at 1 in Hs'.
  unfold modify_world at 1, self, world in Hs'. cbn [fst snd] in Hs'.
  set (w1 := set_debug (debug w ++ ["NewFrameSession:onAttachedToTarget"]) w) in Hs'.
  destruct (String.eqb (attached_Type event) "iframe"
            && negb (String.eqb (attached_URL event) "")) eqn:Hiframe.
  - apply andb_true_iff in Hiframe as [Htype _]. apply String.eqb_eq in Htype.
    assert (attached_Type event <> "worker") as Hworker by (rewrite Htype; discriminate).
    destruct (getFrameByID (manager w1) (attached_TargetID event)) as [frame |];
      [| registries].
    unfold go_bind at 1 in Hs'. unfold modify_world at 1 in Hs'. cbn [fst snd] in Hs'.
    set (w2 := set_manager (removeChildFramesRecursively frame (manager w1)) w1) in Hs'.
    pose proof (NewFrameSession_keeps (getSession w1 (attached_SessionID event)) (page fs)
                  (Some fs) (attached_TargetID event) w2) as Hkeeps.
    pose proof (NewFrameSession_measurements (getSession w1 (attached_SessionID event))
                  (page fs) (Some fs) (attached_TargetID event) w2) as Hmeasurements.
    cbv zeta in Hkeeps, Hmeasurements. unfold go_bind, call in Hs'. cbn [fst snd] in Hs'.
    destruct (NewFrameSession (getSession w1 (attached_SessionID event)) (page fs)
                (Some fs) (attached_TargetID event) w2)
      as [[err | child] w3 | e w3 | w3];
      cbn [final] in Hkeeps, Hmeasurements;
      destruct Hkeeps as (_ & _ & Hsessions & HframeSessions & Hworkers & _);
      destruct Hmeasurements as (_ & Hsamples & Hentries);
      change (sessions w2) with (sessions w) in Hsessions;
      change (frameSessions w2) with (frameSessions w) in HframeSessions;
      change (workers w2) with (workers w) in Hworkers;
      change (samples w2) with (samples w) in Hsamples;
      change (entries w2) with (entries w) in Hentries;
      clearbody w2; clear w1.
    + unfold world in Hs'. cbn [fst snd] in Hs'.
      destruct (negb (connected w3) && GoStrings.Contains (Error err) abnormalClosure);
        [registries |].
      destruct (ctxDone w3); registries.
    + unfold attachFrameSession, modify_world in Hs'. cbn [fst snd final] in Hs'. subst s'.
      cbn [fst snd frameSessions workers sessions samples entries set_frameSessions].
      repeat split; intros; try contradiction; try congruence.
      rewrite lookup_insert_ne by congruence. congruence.
    + registries.
    + registries.
  - clear Hiframe.
    destruct (negb (String.eqb (attached_Type event) "worker")) eqn:Hworker.
    + unfold go_bind at 1 in Hs'. unfold debugf at 1 in Hs'.
      unfold modify_world at 1 in Hs'. cbn [fst snd] in Hs'.
      destruct (getSession w1 (attached_SessionID event)) as [sid |]; registries.
    + apply negb_false_iff, String.eqb_eq in Hworker.
      assert (attached_Type event <> "iframe") as Hiframe by (rewrite Hworker; discriminate).
      unfold NewWorker in Hs'.
      destruct (getSession w1 (attached_SessionID event)) as [sid |] eqn:Hsession;
        [| registries].
      apply getSession_Some in Hsession. subst sid.
      destruct (newWorkerErr (attached_SessionID event) (attached_TargetID event)
                  (attached_URL event)) as [err |].
      * unfold go_bind, go_ret, world in Hs'. cbn [fst snd] in Hs'.
        destruct (negb (connected w1) && GoStrings.Contains (Error err) abnormalClosure);
          [registries |].
        destruct (ctxDone w1); registries.
      * unfold go_bind, go_ret, modify_world in Hs'. cbn [fst snd final worker_session] in Hs'.
        subst s'.
        cbn [fst snd frameSessions workers sessions samples entries manager set_workers].
        repeat split; intros; try reflexivity; try contradiction.
        rewrite lookup_insert_ne by congruence. reflexivity.
Qed.

(** ** The construction of a session *)

Lemma grown_session name fs fs' : grown name fs fs' -> session fs' = session fs.
Proof. intros [-> | ->]; reflexivity. Qed.

Lemma grown_trans name fs fs1 fs2 :
  grown name fs fs1 -> grown name fs1 fs2 -> grown name fs fs2.
Proof.
  intros [-> | ->] [-> | ->]; [left | right | right | right]; try reflexivity.
  destruct fs; unfold set_isolatedWorlds; simpl. f_equal. apply insert_insert_eq.
Qed.

Lemma grown_recorded name fs fs' :
  grown name fs fs' ->
  is_Some (isolatedWorlds fs !! name) -> is_Some (isolatedWorlds fs' !! name).
Proof.
  intros [-> | ->] Hname; [exact Hname |].
  cbn [isolatedWorlds set_isolatedWorlds]. rewrite lookup_insert_eq. eexists; reflexivity.
Qed.

Section Built.

Context (sid : SessionID) (name : string).

#[global] Instance built_reflexive P : Reflexive (built sid name P).
Proof.
  intros s _. split; [left; reflexivity |].
  exists []. split; [symmetry; apply app_nil_r | constructor].
Qed.

#[global] Instance built_transitive P : Transitive (built sid name P).
Proof.
  intros s s1 s2 H1 H2 Hsid.
  destruct (H1 Hsid) as [Hgrown1 (l1 & Hsent1 & Hl1)].
  assert (session (fst s1) = sid) as Hsid1
    by (rewrite (grown_session _ _ _ Hgrown1); exact Hsid).
  destruct (H2 Hsid1) as [Hgrown2 (l2 & Hsent2 & Hl2)].
  split; [eapply grown_trans; eassumption |].
  exists (l1 ++ l2). split.
  - rewrite Hsent2, Hsent1. symmetry. apply app_assoc.
  - apply Forall_app. split; assumption.
Qed.

Lemma built_weaken (P Q : Command -> Prop) {A} (m : Method A) s :
  (forall c, P c -> Q c) -> step (built sid name P) m s -> step (built sid name Q) m s.
Proof.
  intros HPQ Hm Hsid. destruct (Hm Hsid) as [Hgrown (l & Hsent & Hl)].
  split; [exact Hgrown |]. exists l. split; [exact Hsent |].
  eapply Forall_impl; [exact Hl |]. intros c [Hc HP]. split; [exact Hc | apply HPQ, HP].
Qed.

Lemma built_assuming P {A} (m : Method A) s :
  (session (fst s) = sid -> step (built sid name P) m s) -> step (built sid name P) m s.
Proof. intros Hm Hsid. exact (Hm Hsid Hsid). Qed.

(** A step that sends nothing and leaves the session as it is. *)
Lemma built_quiet P {A} (m : Method A) s :
  fst (final (m s)) = fst s -> sent (snd (final (m s))) = sent (snd s) ->
  step (built sid name P) m s.
Proof.
  intros Hself Hsent _. split; [left; exact Hself |].
  exists []. split; [rewrite Hsent; symmetry; apply app_nil_r | constructor].
Qed.

(** A step that sends one command on the session. *)
Lemma built_one (P : Command -> Prop) {A} (m : Method A) s c :
  P c ->
  fst (final (m s)) = fst s ->
  sent (snd (final (m s))) = sent (snd s) ++ [(session (fst s), c)] ->
  step (built sid name P) m s.
Proof.
  intros HP Hself Hsent Hsid. split; [left; exact Hself |].
  exists [(session (fst s), c)]. split; [exact Hsent |].
  constructor; [split; [exact Hsid | exact HP] | constructor].
Qed.

Lemma built_Do P c s : P c -> step (built sid name P) (Do c) s.
Proof. intros HP. apply (built_one P _ s c HP); reflexivity. Qed.

Lemma built_GetFrameTree P s :
  P PageGetFrameTree -> step (built sid name P) GetFrameTree s.
Proof. intros HP. apply (built_one P _ s PageGetFrameTree HP); reflexivity. Qed.

Lemma built_Execute P c s :
  P c -> step (built sid name P) (ExecuteWithoutExpectationOnReply (session (fst s)) c) s.
Proof. intros HP. apply (built_one P _ s c HP); reflexivity. Qed.

Lemma built_callNetworkManager P c s : step (built sid name P) (callNetworkManager c) s.
Proof.
  apply built_quiet; unfold callNetworkManager, go_bind, self;
    destruct (networkManager (fst s)); reflexivity.
Qed.

End Built.

Ltac built_leaf :=
  idtac;
  lazymatch goal with
  | |- step (built _ _ _) (Do _) _ =>
      apply built_Do; first [exact I | unfold setup; discriminate]
  | |- step (built _ _ _) GetFrameTree _ =>
      apply built_GetFrameTree; first [exact I | unfold setup; discriminate]
  | |- step (built _ _ _) (callNetworkManager _) _ => apply built_callNetworkManager
  | |- step (built _ _ _) (debugf _) _ => apply built_quiet; reflexivity
  | |- step (built _ _ _) (session_on _) _ => apply built_quiet; reflexivity
  | |- step (built _ _ _) (modify_world _) _ => apply built_quiet; reflexivity
  end.

Ltac built_steps := steps_with built_leaf.

Section BuiltMethods.

Context (sid : SessionID) (name : string).

Lemma built_initRendererEvents s : step (built sid name setup) initRendererEvents s.
Proof. unfold initRendererEvents. built_steps. Qed.

Lemma built_initEvents s : step (built sid name setup) initEvents s.
Proof. unfold initEvents. built_steps. apply built_initRendererEvents. Qed.

Lemma built_onFrameAttached frameID parentFrameID s :
  step (built sid name setup) (onFrameAttached frameID parentFrameID) s.
Proof. unfold onFrameAttached. built_steps. Qed.

Lemma built_onFrameNavigated frame initial s :
  step (built sid name setup) (onFrameNavigated frame initial) s.
Proof. unfold onFrameNavigated. built_steps. Qed.

Lemma built_handleFrameTree t : forall s, step (built sid name setup) (handleFrameTree t) s.
Proof.
  induction t as [frame childFrames IH] using FrameTree_induction. intros s. simpl.
  built_steps.
  - apply built_onFrameAttached.
  - apply built_onFrameNavigated.
  - apply (step_forEach (built sid name setup) handleFrameTree
             (fun t => forall s, step (built sid name setup) (handleFrameTree t) s));
      [intros x s' Hx; apply Hx | exact IH].
Qed.

Lemma built_initFrameTree s : step (built sid name setup) initFrameTree s.
Proof.
  unfold initFrameTree. built_steps;
    first [apply built_handleFrameTree | apply built_initRendererEvents].
Qed.

Lemma built_initIsolatedWorld s : step (built sid name setup) (initIsolatedWorld name) s.
Proof.
  unfold initIsolatedWorld.
  apply step_bind; [typeclasses eauto .. | built_leaf | intros _ s1 _].
  apply step_bind; [typeclasses eauto .. | built_leaf | intros [e |] s2 _];
    [apply step_ret; typeclasses eauto |].
  apply step_bind_self. apply built_assuming. intros Hsid.
  destruct (isolatedWorlds (fst s2) !! name).
  { built_steps. }
  apply step_bind; [typeclasses eauto .. | | intros _ s3 _].
  { intros _. split; [right; reflexivity |].
    exists []. split; [symmetry; apply app_nil_r | constructor]. }
  apply step_bind_world. cbv zeta.
  apply step_bind; [typeclasses eauto .. | | intros _ s4 _].
  { apply (step_forEach (built sid name setup) _ (fun _ => True));
      [| apply Forall_forall; intros; exact I].
    intros [f |] s' _; [| apply step_panic; typeclasses eauto].
    apply built_assuming. intros Hsid'.
    replace (session (fst s2)) with (session (fst s')) by congruence.
    apply built_Execute. unfold setup. discriminate. }
  built_steps.
Qed.

Lemma Forall_setup_domains : Forall setup domains.
Proof. repeat constructor; discriminate. Qed.

Lemma built_executeAll (P : Command -> Prop) (actions : list Command) s :
  Forall P actions -> step (built sid name P) (executeAll actions) s.
Proof.
  intros Hactions. unfold executeAll.
  apply (step_forEachErr (built sid name P) _ P); [| exact Hactions].
  intros action s' Haction.
  apply step_bind; [typeclasses eauto .. | apply built_Do, Haction | intros [e |] s1 _];
    apply step_ret; typeclasses eauto.
Qed.

Lemma built_initDomains s : step (built sid name setup) initDomains s.
Proof. apply (built_executeAll setup domains), Forall_setup_domains. Qed.

Lemma built_updateViewport s : step (built sid name setup) updateViewport s.
Proof. unfold updateViewport. built_steps. Qed.

Lemma built_emulateLocale s : step (built sid name setup) emulateLocale s.
Proof. unfold emulateLocale. built_steps. Qed.

Lemma built_emulateTimezone s : step (built sid name setup) emulateTimezone s.
Proof. unfold emulateTimezone. built_steps. Qed.

Lemma built_updateGeolocation initial s : step (built sid name setup) (updateGeolocation initial) s.
Proof. unfold updateGeolocation. built_steps. Qed.

Lemma built_updateEmulateMedia initial s :
  step (built sid name setup) (updateEmulateMedia initial) s.
Proof. unfold updateEmulateMedia. built_steps. Qed.

Lemma built_updateExtraHTTPHeaders initial s :
  step (built sid name setup) (updateExtraHTTPHeaders initial) s.
Proof. unfold updateExtraHTTPHeaders. built_steps. Qed.

Lemma built_updateHttpCredentials initial s :
  step (built sid name setup) (updateHttpCredentials initial) s.
Proof. unfold updateHttpCredentials. built_steps. Qed.

Lemma built_updateOffline initial s : step (built sid name setup) (updateOffline initial) s.
Proof. unfold updateOffline. built_steps. Qed.

Lemma built_updateRequestInterception initial s :
  step (built sid name setup) (updateRequestInterception initial) s.
Proof. unfold updateRequestInterception. built_steps. Qed.

End BuiltMethods.

(** ** A construction that succeeds *)

Lemma forEachErr_app {S A} (body : A -> Go S (option error)) (l l' : list A) :
  forall s,
    forEachErr body (l ++ l') s = orReturn (forEachErr body l) (forEachErr body l') s.
Proof.
  induction l as [| x l IH]; intros s; simpl; [reflexivity |].
  unfold orReturn, go_bind in *. destruct (body x s) as [[e |] s1 | e s1 | s1]; try reflexivity.
  apply IH.
Qed.

Section Succeeding.

Context (R T : relation (FrameSession * World)) `{!Transitive R}.

Lemma succeeding_bind {A} (m : Method A) (k : A -> Method (option error)) s :
  step R m s ->
  (forall a s1, R s s1 -> succeeding R T (k a) s1) ->
  succeeding R T (go_bind m k) s.
Proof.
  intros Hm Hk s' Hrun. apply go_bind_inv in Hrun as (a & s1 & Hm' & Hk').
  unfold step in Hm. rewrite Hm' in Hm. cbn [final] in Hm.
  destruct (Hk a s1 Hm s' Hk') as (s2 & HR & HT).
  exists s2. split; [etransitivity; eassumption | exact HT].
Qed.

Lemma succeeding_orReturn (m k : Method (option error)) s :
  step R m s ->
  (forall s1, R s s1 -> succeeding R T k s1) ->
  succeeding R T (orReturn m k) s.
Proof.
  intros Hm Hk s' Hrun. apply orReturn_inv in Hrun as (s1 & Hm' & Hk').
  unfold step in Hm. rewrite Hm' in Hm. cbn [final] in Hm.
  destruct (Hk s1 Hm s' Hk') as (s2 & HR & HT).
  exists s2. split; [etransitivity; eassumption | exact HT].
Qed.

Lemma succeeding_bind_self (k : FrameSession -> Method (option error)) s :
  succeeding R T (k (fst s)) s -> succeeding R T (go_bind self k) s.
Proof. exact id. Qed.

End Succeeding.

Section Success.

Context (sid : SessionID) (name : string).

Lemma built_logged P category (m : Method (option error)) s :
  step (built sid name P) m s -> step (built sid name P) (logged category m) s.
Proof.
  intros Hm. apply step_logged.
  - typeclasses eauto.
  - typeclasses eauto.
  - intros s1. built_leaf.
  - exact Hm.
Qed.

Lemma executeAll_resumes (actions : list Command) s :
  Forall setup actions ->
  succeeding (built sid name setup) resumes
    (executeAll (actions ++ [RuntimeRunIfWaitingForDebugger])) s.
Proof.
  intros Hactions s' Hrun. unfold executeAll in Hrun. rewrite forEachErr_app in Hrun.
  apply orReturn_inv in Hrun as (s1 & Hl & Hx). exists s1. split.
  - pose proof (built_executeAll sid name setup actions s Hactions) as Hstep.
    unfold step, executeAll in Hstep. rewrite Hl in Hstep. exact Hstep.
  - destruct s1 as [fs1 w1].
    cbv [forEachErr go_bind Do self world modify_world go_ret fst snd] in Hx.
    destruct (cdpDo (sent w1) (session fs1) RuntimeRunIfWaitingForDebugger);
      inversion Hx; subst. split; reflexivity.
Qed.

Lemma initOptions_succeeding s :
  succeeding (built sid name setup) resumes initOptions s.
Proof.
  unfold initOptions.
  apply succeeding_bind; [typeclasses eauto .. | built_leaf | intros _ s1 _].
  apply succeeding_bind_self. cbv zeta.
  apply succeeding_orReturn; [typeclasses eauto .. | | intros s2 _].
  { destruct (isMainFrame (fst s1));
      [apply built_logged, built_updateViewport | apply step_ret; typeclasses eauto]. }
  apply succeeding_orReturn; [typeclasses eauto .. | | intros s3 _].
  { destruct (negb _); [apply built_emulateLocale | apply step_ret; typeclasses eauto]. }
  apply succeeding_orReturn; [typeclasses eauto .. | | intros s4 _].
  { destruct (negb _); [apply built_emulateTimezone | apply step_ret; typeclasses eauto]. }
  apply succeeding_orReturn; [typeclasses eauto .. | apply built_updateGeolocation | intros s5 _].
  apply succeeding_bind;
    [typeclasses eauto .. | apply built_updateExtraHTTPHeaders | intros _ s6 _].
  apply succeeding_orReturn;
    [typeclasses eauto .. | apply built_updateRequestInterception | intros s7 _].
  apply succeeding_bind; [typeclasses eauto .. | apply built_updateOffline | intros _ s8 _].
  apply succeeding_bind;
    [typeclasses eauto .. | apply built_updateHttpCredentials | intros _ s9 _].
  apply succeeding_orReturn;
    [typeclasses eauto .. | apply built_updateEmulateMedia | intros s10 _].
  apply executeAll_resumes.
  repeat match goal with
         | |- context [if ?b then _ else _] => destruct b
         end;
    simpl; repeat constructor; discriminate.
Qed.

Lemma built_initOptions s : step (built sid name anyCommand) initOptions s.
Proof.
  assert (forall c, setup c -> anyCommand c) as Hany by (intros; exact I).
  unfold initOptions.
  apply step_bind; [typeclasses eauto .. | built_leaf | intros _ s1 _].
  apply step_bind_self. cbv zeta.
  apply step_orReturn; [typeclasses eauto .. | | intros s2 _].
  { destruct (isMainFrame (fst s1)); [| apply step_ret; typeclasses eauto].
    apply built_logged, (built_weaken sid name setup _ _ _ Hany), built_updateViewport. }
  apply step_orReturn; [typeclasses eauto .. | | intros s3 _].
  { destruct (negb _); [| apply step_ret; typeclasses eauto].
    apply (built_weaken sid name setup _ _ _ Hany), built_emulateLocale. }
  apply step_orReturn; [typeclasses eauto .. | | intros s4 _].
  { destruct (negb _); [| apply step_ret; typeclasses eauto].
    apply (built_weaken sid name setup _ _ _ Hany), built_emulateTimezone. }
  apply step_orReturn; [typeclasses eauto .. | | intros s5 _].
  { apply (built_weaken sid name setup _ _ _ Hany), built_updateGeolocation. }
  apply step_bind; [typeclasses eauto .. | | intros _ s6 _].
  { apply (built_weaken sid name setup _ _ _ Hany), built_updateExtraHTTPHeaders. }
  apply step_orReturn; [typeclasses eauto .. | | intros s7 _].
  { apply (built_weaken sid name setup _ _ _ Hany), built_updateRequestInterception. }
  apply step_bind; [typeclasses eauto .. | | intros _ s8 _].
  { apply (built_weaken sid name setup _ _ _ Hany), built_updateOffline. }
  apply step_bind; [typeclasses eauto .. | | intros _ s9 _].
  { apply (built_weaken sid name setup _ _ _ Hany), built_updateHttpCredentials. }
  apply step_orReturn; [typeclasses eauto .. | | intros s10 _].
  { apply (built_weaken sid name setup _ _ _ Hany), built_updateEmulateMedia. }
  apply (built_executeAll sid name anyCommand). apply Forall_forall. intros; exact I.
Qed.

End Success.

(** The steps of [NewFrameSession] after [initIsolatedWorld]. *)
Lemma configured_succeeding sid s :
  succeeding (built sid utilityWorldName setup) resumes
    (orReturn (logged "NewFrameSession:initDomains" initDomains)
       (orReturn (logged "NewFrameSession:initOptions" initOptions)
          (debugf "NewFrameSession" ;; return_ None))) s.
Proof.
  apply succeeding_orReturn;
    [typeclasses eauto .. | apply built_logged, built_initDomains | intros s1 _].
  intros s' Hrun. apply orReturn_inv in Hrun as (s2 & Hoptions & Hend).
  apply logged_inv in Hoptions.
  destruct (initOptions_succeeding sid utilityWorldName s1 s2 Hoptions) as (s3 & HR & HT).
  exists s3. split; [exact HR |].
  inversion Hend; subst. destruct HT as [Hself Hsent]. split; [exact Hself | exact Hsent].
Qed.

Lemma furnish_succeeding sid s :
  succeeding (built sid utilityWorldName setup) resumes furnish s.
Proof.
  unfold furnish.
  apply succeeding_bind; [typeclasses eauto .. | apply built_initEvents | intros _ s1 _].
  apply succeeding_orReturn;
    [typeclasses eauto .. | apply built_logged, built_initFrameTree | intros s2 _].
  apply succeeding_orReturn;
    [typeclasses eauto .. | apply built_logged, built_initIsolatedWorld | intros s3 _].
  apply configured_succeeding.
Qed.

Lemma built_furnish sid s : step (built sid utilityWorldName anyCommand) furnish s.
Proof.
  assert (forall c, setup c -> anyCommand c) as Hany by (intros; exact I).
  unfold furnish.
  apply step_bind; [typeclasses eauto .. | | intros _ s1 _].
  { apply (built_weaken sid _ setup _ _ _ Hany), built_initEvents. }
  apply step_orReturn; [typeclasses eauto .. | | intros s2 _].
  { apply built_logged, (built_weaken sid _ setup _ _ _ Hany), built_initFrameTree. }
  apply step_orReturn; [typeclasses eauto .. | | intros s3 _].
  { apply built_logged, (built_weaken sid _ setup _ _ _ Hany), built_initIsolatedWorld. }
  apply step_orReturn; [typeclasses eauto .. | | intros s4 _].
  { apply built_logged, (built_weaken sid _ setup _ _ _ Hany), built_initDomains. }
  apply step_orReturn; [typeclasses eauto .. | apply built_logged, built_initOptions |].
  intros s5 _. built_steps.
Qed.

(** An isolated world that is initialised without an error is recorded. *)
Lemma initIsolatedWorld_recorded name s s' :
  initIsolatedWorld name s = Returned None s' ->
  is_Some (isolatedWorlds (fst s') !! name).
Proof.
  unfold initIsolatedWorld. intros Hrun.
  apply go_bind_inv in Hrun as ([] & s1 & _ & Hrun).
  apply go_bind_inv in Hrun as (err & s2 & _ & Hrun).
  destruct err as [e |]; [discriminate |].
  apply go_bind_inv in Hrun as (fs & s3 & Hself & Hrun).
  inversion Hself; subst fs s3. clear Hself.
  destruct (isolatedWorlds (fst s2) !! name) as [b |] eqn:Hname.
  - apply go_bind_inv in Hrun as ([] & s3 & Hdebugf & Hrun).
    inversion Hdebugf; subst s3. inversion Hrun; subst s'. cbn [fst]. rewrite Hname. eauto.
  - apply go_bind_inv in Hrun as ([] & s3 & Hmodify & Hrun).
    inversion Hmodify; subst s3. clear Hmodify.
    match type of Hrun with
    | ?rest ?s3 = _ => assert (step unchanged rest s3) as Hrest
    end.
    { unchanged_steps.
      apply (step_forEach unchanged _ (fun _ => True)); [| apply Forall_forall; intros; exact I].
      intros [f |] s4 _; unchanged_steps. }
    unfold step, unchanged in Hrest. rewrite Hrun in Hrest. cbn [final fst] in Hrest.
    rewrite Hrest. cbn [isolatedWorlds set_isolatedWorlds]. rewrite lookup_insert_eq. eauto.
Qed.

Lemma furnish_recorded s s' :
  furnish s = Returned None s' ->
  is_Some (isolatedWorlds (fst s') !! utilityWorldName).
Proof.
  unfold furnish. intros Hrun.
  apply go_bind_inv in Hrun as ([] & s1 & _ & Hrun).
  apply orReturn_inv in Hrun as (s2 & _ & Hrun).
  apply orReturn_inv in Hrun as (s3 & Hworld & Hrun).
  apply logged_inv, initIsolatedWorld_recorded in Hworld.
  destruct (configured_succeeding (session (fst s3)) s3 s' Hrun) as (s4 & HR & HT).
  destruct (HR eq_refl) as [Hgrown _]. destruct HT as [-> _].
  eapply grown_recorded; eassumption.
Qed.

(** [NewFrameSession] up to the steps that follow the window. *)
Lemma construct_run parentNetworkManager fs w :
  construct parentNetworkManager (fs, w)
  = let w0 := entered "NewFrameSession" w in
    match newNetworkManagerErr (session fs) with
    | Some e =>
        Returned (Some e)
          (fs, entered (match parent fs with
                        | Some _ => "NewFrameSession:NewNetworkManager"
                        | None => "NewFrameSession:NewNetworkManager#2"
                        end) w0)
    | None =>
        let fs1 :=
          set_networkManager
            (Some {| nm_session := session fs;
                     nm_parent := nm_session <$> parentNetworkManager |}) fs in
        let w1 :=
          set_sent (sent w ++ [(session fs, BrowserGetWindowForTarget (targetID fs))]) w0 in
        match cdpGetWindowForTarget (sent w) (session fs) (targetID fs) with
        | inl e =>
            Returned (Errorf "unable to get window ID: " e)
              (fs1, entered "NewFrameSession:GetWindowForTarget" w1)
        | inr wid => furnish (set_windowID wid fs1, w1)
        end
    end.
Proof.
  unfold construct, NewNetworkManager, furnish, GetWindowForTarget. run.
  destruct (newNetworkManagerErr (session fs)); [reflexivity |].
  cbn [session set_networkManager targetID sent set_debug].
  destruct (cdpGetWindowForTarget (sent w) (session fs) (targetID fs)); reflexivity.
Qed.

(** ** What [NewFrameSession] gives *)

Lemma NewFrameSession_run sid pg parentFS tid w :
  NewFrameSession (Some sid) pg parentFS tid w
  = match construct (parentFS ≫= networkManager) (blank sid pg parentFS tid, w) with
    | Returned None s => Returned (inr (fst s)) (snd s)
    | Returned (Some e) s => Returned (inl e) (snd s)
    | Thrown e s => Thrown e (snd s)
    | Panicked s => Panicked (snd s)
    end.
Proof. reflexivity. Qed.

(** X11.  The session that [NewFrameSession] returns, in the fields that
    the loop started by [initEvents] never writes: the network manager was
    created; the session has the CDP session, the page and the target it
    was constructed for and the target of its parent, a network manager of
    its own on top of the one of the parent, a window that the browser has
    given for the target, and no child session.  The utility world is
    among the isolated worlds it has recorded.  (The init time, the
    execution contexts and the other isolated worlds are those that the
    handlers of the loop have written by then.) *)
Theorem constructed_session
    (sid : SessionID) (pg : Page) (parentFS : option FrameSession) (tid : TargetID)
    (w w' : World) (child : FrameSession) :
  NewFrameSession (Some sid) pg parentFS tid w = Returned (inr child) w' ->
  newNetworkManagerErr sid = None
  /\ session child = sid
  /\ page child = pg
  /\ parent child = targetID <$> parentFS
  /\ networkManager child
     = Some {| nm_session := sid;
               nm_parent := nm_session <$> (parentFS ≫= networkManager) |}
  /\ targetID child = tid
  /\ (exists history, cdpGetWindowForTarget history sid tid = inr (windowID child))
  /\ childSessions child = ∅
  /\ isolatedWorlds child !! utilityWorldName = Some true.
Proof.
  rewrite NewFrameSession_run, construct_run. cbv zeta. cbn [session targetID blank].
  destruct (newNetworkManagerErr sid) as [e |]; [discriminate |].
  destruct (cdpGetWindowForTarget (sent w) sid tid) as [e | wid] eqn:Hwid; [discriminate |].
  intros Hrun. split; [reflexivity |].
  match type of Hrun with
  | match furnish ?s with _ => _ end = _ =>
      destruct (furnish s) as [[e |] [fs' w1] | e s1 | s1] eqn:Hfurnish; try discriminate;
      pose proof (furnish_recorded _ _ Hfurnish) as Hrecorded;
      destruct (furnish_succeeding sid _ _ Hfurnish) as ([fs1 w2] & Hbuilt & Hresumes)
  end.
  inversion Hrun; subst child w'. clear Hrun.
  destruct (Hbuilt eq_refl) as [Hgrown _]. destruct Hresumes as [Hself _].
  cbn [fst] in Hgrown, Hself, Hrecorded. subst fs1.
  destruct Hgrown as [-> | ->].
  - destruct Hrecorded as [b Hb]. cbn in Hb. rewrite lookup_empty in Hb. discriminate.
  - do 5 (split; [reflexivity |]).
    split; [exists (sent w); exact Hwid |].
    split; [reflexivity |]. cbn. apply lookup_insert_eq.
Qed.

(** X12.  The commands that [NewFrameSession] and the methods it calls
    execute, however the construction ends: they are all commands on the
    CDP session of the new session.  When the construction succeeds the
    request for the window of the target is among them, the last one
    resumes the target, and none before it does: the session resumes the
    target once it is set up, and not before.  (What the network manager
    sends, and what the handlers of the loop send beside the construction,
    is not among these commands.) *)
Theorem construction_commands
    (sid : SessionID) (pg : Page) (parentFS : option FrameSession) (tid : TargetID)
    (w : World) :
  exists l,
    sent (final (NewFrameSession (Some sid) pg parentFS tid w)) = sent w ++ l
    /\ Forall (fun c => fst c = sid) l
    /\ (forall child w',
          NewFrameSession (Some sid) pg parentFS tid w = Returned (inr child) w' ->
          exists l0,
            l = l0 ++ [(sid, RuntimeRunIfWaitingForDebugger)]
            /\ Forall (fun c => snd c <> RuntimeRunIfWaitingForDebugger) l0
            /\ In (sid, BrowserGetWindowForTarget tid) l0).
Proof.
  rewrite NewFrameSession_run, construct_run. cbv zeta. cbn [session targetID blank].
  destruct (newNetworkManagerErr sid) as [e |].
  { exists []. cbn [final snd sent entered set_debug].
    split; [symmetry; apply app_nil_r |]. split; [constructor |]. discriminate. }
  destruct (cdpGetWindowForTarget (sent w) sid tid) as [e | wid].
  { exists [(sid, BrowserGetWindowForTarget tid)].
    cbn [final snd sent entered set_debug set_sent Errorf].
    split; [reflexivity |]. split; [repeat constructor |]. discriminate. }
  match goal with
  | |- context [furnish ?s] =>
      pose proof (built_furnish sid s eq_refl) as [_ (l & Hsent & Hl)];
      pose proof (furnish_succeeding sid s) as Hsucceeding;
      destruct (furnish s) as [[e |] [fs' w1] | e [fs' w1] | [fs' w1]] eqn:Hfurnish
  end;
    cbn [final fst snd sent set_sent entered set_debug] in Hsent |- *;
    exists ((sid, BrowserGetWindowForTarget tid) :: l);
    (split; [rewrite Hsent, <- app_assoc; reflexivity |]);
    (split; [constructor; [reflexivity |];
             eapply Forall_impl; [exact Hl | intros c [Hc _]; exact Hc] |]);
    try discriminate.
  intros child w' Hrun. inversion Hrun; subst child w'. clear Hrun.
  destruct (Hsucceeding _ Hfurnish) as ([fs1 w2] & Hbuilt & Hresumes).
  destruct (Hbuilt eq_refl) as [Hgrown (l0 & Hsent0 & Hl0)].
  destruct Hresumes as [_ Hlast].
  cbn [fst snd sent set_sent entered set_debug] in Hsent0, Hlast.
  pose proof (grown_session _ _ _ Hgrown) as Hsid.
  cbn [fst session set_windowID set_networkManager blank] in Hsid. rewrite Hsid in Hlast.
  exists ((sid, BrowserGetWindowForTarget tid) :: l0). split; [| split].
  - rewrite Hsent0 in Hlast. rewrite Hlast in Hsent.
    rewrite <- !app_assoc in Hsent. apply app_inv_head in Hsent.
    cbn [app] in Hsent. inversion Hsent. reflexivity.
  - constructor; [cbn; discriminate |].
    eapply Forall_impl; [exact Hl0 | intros c [_ Hc]; exact Hc].
  - left. reflexivity.
Qed.
(** ** Loops over actions *)

Lemma set_sent_same (w : World) : set_sent (sent w) w = w.
Proof. destruct w; reflexivity. Qed.

Lemma executeAll_cons (action : Command) (actions : list Command) fs w :
  executeAll (action :: actions) (fs, w)
  = match cdpDo (sent w) (session fs) action with
    | Some e0 =>
        Returned (Errorf ("unable to execute " +:+ typeName action +:+ ": ") e0)
          (fs, set_sent (sent w ++ [(session fs, action)]) w)
    | None => executeAll actions (fs, set_sent (sent w ++ [(session fs, action)]) w)
    end.
Proof.
  unfold executeAll. cbn [forEachErr].
  cbv [go_bind Do self world modify_world go_ret fst snd].
  destruct (cdpDo (sent w) (session fs) action); reflexivity.
Qed.

Lemma executeAll_run (actions : list Command) (fs : FrameSession) :
  forall w,
  exists err done,
    executeAll actions (fs, w)
      = Returned err (fs, set_sent (sent w ++ commandsOn (session fs) done) w)
    /\ done `prefix_of` actions
    /\ (err = None -> done = actions)
    /\ (forall e, err = Some e ->
          exists before action e0,
            done = before ++ [action]
            /\ cdpDo (sent w ++ commandsOn (session fs) before) (session fs) action = Some e0
            /\ e = wrapError ("unable to execute " +:+ typeName action +:+ ": ") e0)
    /\ (forall before action after,
          done = before ++ action :: after -> after <> [] ->
          cdpDo (sent w ++ commandsOn (session fs) before) (session fs) action = None).
Proof.
  induction actions as [| action actions IH]; intros w.
  - exists None, []. cbn [commandsOn map]. rewrite app_nil_r, set_sent_same.
    split; [reflexivity |]. split; [reflexivity |]. split; [reflexivity |].
    split; [discriminate |]. intros [| ? ?] ? ? Hdone; discriminate.
  - rewrite executeAll_cons.
    destruct (cdpDo (sent w) (session fs) action) as [e0 |] eqn:Hreply.
    + exists (Some (wrapError ("unable to execute " +:+ typeName action +:+ ": ") e0)),
        [action].
      split; [reflexivity |]. split; [exists actions; reflexivity |].
      split; [discriminate |]. split.
      * intros e [= <-]. exists [], action, e0. cbn [commandsOn map]. rewrite app_nil_r.
        split; [reflexivity |]. split; [exact Hreply | reflexivity].
      * intros [| ? [| ? ?]] ? ? Hdone Hafter; inversion Hdone; subst; contradiction.
    + destruct (IH (set_sent (sent w ++ [(session fs, action)]) w))
        as (err & done & Hrun & Hprefix & Hall & Hrefused & Haccepted).
      exists err, (action :: done).
      split.
      { rewrite Hrun. cbn [sent set_sent commandsOn map].
        rewrite <- app_assoc. reflexivity. }
      split; [apply prefix_cons, Hprefix |].
      split; [intros Herr; rewrite (Hall Herr); reflexivity |].
      cbn [sent set_sent] in Hrefused, Haccepted. split.
      * intros e Herr. destruct (Hrefused e Herr) as (before & a & e1 & -> & Hreply1 & ->).
        exists (action :: before), a, e1. split; [reflexivity |].
        cbn [commandsOn map]. rewrite <- app_assoc in Hreply1.
        split; [exact Hreply1 | reflexivity].
      * intros [| b before] a after Hdone Hafter; inversion Hdone; subst.
        -- cbn [commandsOn map]. rewrite app_nil_r. exact Hreply.
        -- cbn [commandsOn map]. specialize (Haccepted before a after eq_refl Hafter).
           rewrite <- app_assoc in Haccepted. exact Haccepted.
Qed.

(** X14.  [initDomains] returns, and leaves the session and all of the
    world but the commands sent as they are.  It sends [DOM.enable],
    [Log.enable], [Runtime.enable] and [Target.setAutoAttach] in this
    order, each once the browser has accepted the one before, and stops
    at the first one that the browser refuses: its error is returned,
    wrapped in the type of the command.  With no error all four were
    sent. *)
Theorem domains_enabled (fs : FrameSession) (w : World) :
  exists err done,
    initDomains (fs, w)
      = Returned err (fs, set_sent (sent w ++ commandsOn (session fs) done) w)
    /\ done `prefix_of` domains
    /\ done <> []
    /\ (err = None -> done = domains)
    /\ (forall e, err = Some e ->
          exists before action e0,
            done = before ++ [action]
            /\ cdpDo (sent w ++ commandsOn (session fs) before) (session fs) action = Some e0
            /\ e = wrapError ("unable to execute " +:+ typeName action +:+ ": ") e0)
    /\ (forall before action after,
          done = before ++ action :: after -> after <> [] ->
          cdpDo (sent w ++ commandsOn (session fs) before) (session fs) action = None).
Proof.
  destruct (executeAll_run domains fs w)
    as (err & done & Hrun & Hprefix & Hall & Hrefused & Haccepted).
  exists err, done. split; [exact Hrun |]. split; [exact Hprefix |].
  split; [| split; [exact Hall | split; [exact Hrefused | exact Haccepted]]].
  destruct err as [e |].
  - destruct (Hrefused e eq_refl) as (before & action & _ & -> & _).
    intros Hnil. apply app_eq_nil in Hnil as [_ Hnil]. discriminate.
  - rewrite (Hall eq_refl). discriminate.
Qed.

(** ** The isolated world *)

Lemma forEach_create (name : string) (sid : SessionID) (l : list Frame) (fs : FrameSession) :
  forall w,
    forEach (fun frame : option Frame =>
               match frame with
               | Some f =>
                   ExecuteWithoutExpectationOnReply sid
                     (PageCreateIsolatedWorld (frame_id f) name true)
               | None => panic
               end) (Some <$> l) (fs, w)
    = Returned tt
        (fs, set_sent
               (sent w ++ map (fun f => (sid, PageCreateIsolatedWorld (frame_id f) name true)) l)
               w).
Proof.
  induction l as [| f l IH]; intros w.
  - cbn [fmap list_fmap forEach map go_ret]. rewrite app_nil_r, set_sent_same. reflexivity.
  - cbn [fmap list_fmap forEach map]. unfold go_bind at 1.
    unfold ExecuteWithoutExpectationOnReply, modify_world. cbn [fst snd].
    change (list_fmap Frame (option Frame) Some l) with (Some <$> l).
    rewrite IH. cbn [sent set_sent]. rewrite <- app_assoc. reflexivity.
Qed.

Lemma initIsolatedWorld_run (name : string) (fs : FrameSession) (w : World) :
  initIsolatedWorld name (fs, w)
  = let w1 :=
      set_sent (sent w ++ [(session fs, PageSetLifecycleEventsEnabled true)])
        (entered "NewFrameSession:initIsolatedWorld" w) in
    match cdpDo (sent w) (session fs) (PageSetLifecycleEventsEnabled true) with
    | Some e => Returned (Errorf "unable to enable page lifecycle events: " e) (fs, w1)
    | None =>
        match isolatedWorlds fs !! name with
        | Some _ => Returned None (fs, entered "NewFrameSession:initIsolatedWorld" w1)
        | None =>
            (forEach (fun frame : option Frame =>
                        match frame with
                        | Some f =>
                            ExecuteWithoutExpectationOnReply (session fs)
                              (PageCreateIsolatedWorld (frame_id f) name true)
                        | None => panic
                        end)
               (if isMainFrame fs then Some <$> Frames (manager w)
                else [getFrameByID (manager w) (targetID fs)]) ;;
             debugf "NewFrameSession:initIsolatedWorld:AddScriptToEvaluateOnNewDocument" ;;
             err <- Do (PageAddScriptToEvaluateOnNewDocument
                          ("//# sourceURL=" +:+ evaluationScriptURL) name) ;;
             match err with
             | Some e =>
                 return_ (Errorf "unable to add script to evaluate for isolated world: " e)
             | None => return_ None
             end)
              (set_isolatedWorlds (<[name := true]> (isolatedWorlds fs)) fs, w1)
        end
    end.
Proof.
  unfold initIsolatedWorld, Do. run. cbn [sent set_debug].
  destruct (cdpDo (sent w) (session fs) (PageSetLifecycleEventsEnabled true));
    [reflexivity |].
  destruct (isolatedWorlds fs !! name); reflexivity.
Qed.

(** X15.  [initIsolatedWorld] first enables the lifecycle events of the
    page; when the browser refuses, the error is returned wrapped and no
    world is recorded.  Otherwise the world is recorded in the session
    however the method ends, also when a later step fails, and a world
    that is recorded already is not created again: the method returns
    with that one command sent.  For a world that is new the commands are
    the one that enables the lifecycle events, one that creates the world
    for each frame (the frames of the frame manager for the session of
    the main frame, the frame of the target for another session), and the
    one that adds the script to evaluate. *)
Theorem isolated_world_initialised (name : string) (fs : FrameSession) (w : World) :
  let enabled := (session fs, PageSetLifecycleEventsEnabled true) in
  let s' := final (initIsolatedWorld name (fs, w)) in
  (forall e,
     cdpDo (sent w) (session fs) (PageSetLifecycleEventsEnabled true) = Some e ->
     exists w',
       initIsolatedWorld name (fs, w)
         = Returned (Some (wrapError "unable to enable page lifecycle events: " e)) (fs, w')
       /\ sent w' = sent w ++ [enabled])
  /\ (cdpDo (sent w) (session fs) (PageSetLifecycleEventsEnabled true) = None ->
      is_Some (isolatedWorlds (fst s') !! name)
      /\ (is_Some (isolatedWorlds fs !! name) ->
          exists w',
            initIsolatedWorld name (fs, w) = Returned None (fs, w')
            /\ sent w' = sent w ++ [enabled])
      /\ (forall frames,
            isolatedWorlds fs !! name = None ->
            (if isMainFrame fs then Some <$> Frames (manager w)
             else [getFrameByID (manager w) (targetID fs)]) = Some <$> frames ->
            fst s' = set_isolatedWorlds (<[name := true]> (isolatedWorlds fs)) fs
            /\ sent (snd s')
               = sent w
                 ++ enabled
                    :: map (fun frame =>
                              (session fs, PageCreateIsolatedWorld (frame_id frame) name true))
                         frames
                 ++ [(session fs,
                      PageAddScriptToEvaluateOnNewDocument
                        ("//# sourceURL=" +:+ evaluationScriptURL) name)])).
Proof.
  cbv zeta. rewrite initIsolatedWorld_run. cbv zeta. split.
  - intros e ->. eexists. split; reflexivity.
  - intros ->. split; [| split].
    + destruct (isolatedWorlds fs !! name) as [b |] eqn:Hname.
      * cbn [final fst]. rewrite Hname. eauto.
      * match goal with
        | |- is_Some (isolatedWorlds (fst (final (?rest ?s))) !! name) =>
            assert (step unchanged rest s) as Hrest
        end.
        { unchanged_steps.
          apply (step_forEach unchanged _ (fun _ => True));
            [| apply Forall_forall; intros; exact I].
          intros [f |] s1 _; unchanged_steps. }
        unfold step, unchanged in Hrest. rewrite Hrest.
        cbn [fst isolatedWorlds set_isolatedWorlds]. rewrite lookup_insert_eq. eauto.
    + intros [b Hname]. rewrite Hname. eexists. split; reflexivity.
    + intros frames Hname Hframes. rewrite Hname, Hframes.
      rewrite (go_bind_returned _ _ _ _ _ (forEach_create name (session fs) frames _ _)).
      cbv [go_bind Do debugf self world modify_world go_ret fst snd].
      cbn [sent set_sent set_debug session set_isolatedWorlds].
      destruct (cdpDo _ _ _); cbn [final fst snd sent set_sent];
        (split; [reflexivity |]); rewrite <- !app_assoc; reflexivity.
Qed.

(** ** Fatal errors *)

Section Throws.

Context (E : error -> Prop).

Lemma throwsOnly_bind {A B} (m : Method A) (k : A -> Method B) s :
  throwsOnly E m s -> (forall a s1, throwsOnly E (k a) s1) -> throwsOnly E (go_bind m k) s.
Proof.
  intros Hm Hk e s'. unfold go_bind.
  destruct (m s) as [a s1 | e1 s1 | s1] eqn:Hrun; [apply Hk | | discriminate].
  intros [= <- <-]. eapply Hm, Hrun.
Qed.

Lemma throwsOnly_orReturn (m k : Method (option error)) s :
  throwsOnly E m s -> (forall s1, throwsOnly E k s1) -> throwsOnly E (orReturn m k) s.
Proof.
  intros Hm Hk. unfold orReturn. apply throwsOnly_bind; [exact Hm |].
  intros [e |] s1; [discriminate | apply Hk].
Qed.

Lemma throwsOnly_forEach {A} (body : A -> Method unit) (P : A -> Prop) (l : list A) :
  (forall x s, P x -> throwsOnly E (body x) s) ->
  Forall P l -> forall s, throwsOnly E (forEach body l) s.
Proof.
  intros Hbody Hl. induction Hl as [| x l Hx _ IH]; intros s; simpl; [discriminate |].
  apply throwsOnly_bind; [apply Hbody, Hx | intros _ s1; apply IH].
Qed.

Lemma throwsOnly_forEachErr {A} (body : A -> Method (option error)) (l : list A) :
  (forall x s, throwsOnly E (body x) s) -> forall s, throwsOnly E (forEachErr body l) s.
Proof.
  intros Hbody. induction l as [| x l IH]; intros s; simpl; [discriminate |].
  apply throwsOnly_bind; [apply Hbody |]. intros [e |] s1; [discriminate | apply IH].
Qed.

Lemma throwsOnly_k6Throw {A} message cause s :
  E (wrapError message cause) -> throwsOnly E (k6Throw (A := A) message cause) s.
Proof. intros HE e s' [= <- <-]. exact HE. Qed.

End Throws.

Lemma throwsOnly_weaken (E E' : error -> Prop) {A} (m : Method A) s :
  (forall e, E e -> E' e) -> throwsOnly E m s -> throwsOnly E' m s.
Proof. intros HE Hm e s' Hrun. eapply HE, Hm, Hrun. Qed.

Lemma wrappedIn_wrapError messages message cause :
  In message messages -> wrappedIn messages (wrapError message cause).
Proof. intros Hin. exists message, cause. split; [exact Hin | reflexivity]. Qed.

(** The steps of a method, one after the other; a step that is no call of
    [k6Throw] does not throw. *)
Ltac throws_steps :=
  cbv zeta;
  repeat
    lazymatch goal with
    | |- throwsOnly _ (k6Throw _ _) _ =>
        apply throwsOnly_k6Throw, wrappedIn_wrapError; simpl; tauto
    | |- throwsOnly _ (orReturn _ _) _ => apply throwsOnly_orReturn; [| intros ?]
    | |- throwsOnly _ (go_bind _ _) _ => apply throwsOnly_bind; [| intros ? ?]
    | |- throwsOnly _ (forEachErr _ _) _ => apply throwsOnly_forEachErr; intros ? ?
    | |- throwsOnly _ (forEach _ _) _ =>
        apply (throwsOnly_forEach _ _ (fun _ => True));
          [intros ? ? _ | apply Forall_forall; intros; exact I]
    | |- throwsOnly _ (match ?x with _ => _ end) _ => destruct x
    | |- throwsOnly _ (logged _ _) _ => unfold logged
    | |- throwsOnly _ (callNetworkManager _) _ => unfold callNetworkManager
    | |- throwsOnly _ (Do _) _ => discriminate
    | |- throwsOnly _ (debugf _) _ => discriminate
    | |- throwsOnly _ self _ => discriminate
    | |- throwsOnly _ world _ => discriminate
    | |- throwsOnly _ panic _ => discriminate
    | |- throwsOnly _ (go_ret _) _ => discriminate
    | |- throwsOnly _ (modify_world _) _ => discriminate
    | |- throwsOnly _ (modify_self _) _ => discriminate
    | |- throwsOnly _ (session_on _) _ => discriminate
    | |- throwsOnly _ GetFrameTree _ => discriminate
    | |- throwsOnly _ (GetWindowForTarget _) _ => discriminate
    | |- throwsOnly _ (ExecuteWithoutExpectationOnReply _ _) _ => discriminate
    | |- throwsOnly _ (logAt _ _ _ _ _) _ => discriminate
    | |- throwsOnly _ (handleParseRemoteObjectErr _) _ => discriminate
    | |- throwsOnly _ (PushIfNotDone _) _ => discriminate
    | |- throwsOnly _ (attachFrameSession _ _) _ => discriminate
    end.

Section Fatal.

Context (messages : list string).

Hypothesis navigation : In "cannot handle frame navigation: " messages.

Lemma throwsOnly_onFrameNavigated frame initial s :
  throwsOnly (wrappedIn messages) (onFrameNavigated frame initial) s.
Proof. unfold onFrameNavigated. throws_steps. Qed.

Lemma throwsOnly_handleFrameTree t :
  forall s, throwsOnly (wrappedIn messages) (handleFrameTree t) s.
Proof.
  induction t as [frame childFrames IH] using FrameTree_induction. intros s. simpl.
  apply throwsOnly_bind; [discriminate | intros _ s1].
  apply throwsOnly_bind; [unfold onFrameAttached; throws_steps | intros _ s2].
  apply throwsOnly_bind; [apply throwsOnly_onFrameNavigated | intros _ s3].
  apply (throwsOnly_forEach _ handleFrameTree
           (fun t => forall s, throwsOnly (wrappedIn messages) (handleFrameTree t) s));
    [intros x s' Hx; apply Hx | exact IH].
Qed.

Lemma throwsOnly_initOptions s : throwsOnly (wrappedIn messages) initOptions s.
Proof.
  unfold initOptions, updateViewport, emulateLocale, emulateTimezone, updateGeolocation,
    updateExtraHTTPHeaders, updateRequestInterception, updateOffline, updateHttpCredentials,
    updateEmulateMedia.
  throws_steps.
Qed.

Lemma throwsOnly_construct parentNetworkManager s :
  throwsOnly (wrappedIn messages) (construct parentNetworkManager) s.
Proof.
  unfold construct, NewNetworkManager, initEvents, initFrameTree, initRendererEvents,
    initIsolatedWorld, initDomains.
  throws_steps;
    first [apply throwsOnly_handleFrameTree | apply throwsOnly_initOptions].
Qed.

End Fatal.

Lemma NewFrameSession_throws messages sess pg parentFS tid w e w' :
  In "cannot handle frame navigation: " messages ->
  NewFrameSession sess pg parentFS tid w = Thrown e w' ->
  wrappedIn messages e.
Proof.
  intros Hnavigation. unfold NewFrameSession. destruct sess as [sid |]; [| discriminate].
  match goal with
  | |- match construct ?p ?s with _ => _ end = _ -> _ =>
      pose proof (throwsOnly_construct messages Hnavigation p s) as Hthrows;
      destruct (construct p s) as [[err |] s1 | e1 s1 | s1] eqn:Hrun; try discriminate
  end.
  intros [= <- <-]. eapply Hthrows, Hrun.
Qed.

Lemma throwsOnly_call (E : error -> Prop) {A} (m : Go World A) s :
  (forall w e w', m w = Thrown e w' -> E e) -> throwsOnly E (call m) s.
Proof.
  intros Hm e s'. unfold call. destruct (m (snd s)) as [a w1 | e1 w1 | w1] eqn:Hrun;
    try discriminate.
  intros [= <- <-]. eapply Hm, Hrun.
Qed.

Lemma throwsOnly_parseArgs (E : error -> Prop) (args : list RemoteObject) :
  forall parsedObjects s, throwsOnly E (parseArgs args parsedObjects) s.
Proof.
  induction args as [| robj args IH]; intros parsedObjects s; simpl; [discriminate |].
  throws_steps. apply IH.
Qed.

Lemma throwsOnly_handleEvent (event : Event) (s : FrameSession * World) :
  throwsOnly (wrappedIn fatalMessages) (handleEvent event) s.
Proof.
  destruct event; cbn [handleEvent].
  - unfold onTargetCrashed. throws_steps.
  - unfold onLogEntryAdded. throws_steps.
  - unfold onFrameAttached. throws_steps.
  - unfold onFrameDetached. throws_steps.
  - unfold onFrameNavigated. throws_steps.
  - unfold onFrameRequestedNavigation. throws_steps.
  - unfold onFrameStartedLoading. throws_steps.
  - unfold onFrameStoppedLoading. throws_steps.
  - unfold onPageLifecycle, pushDuration. throws_steps.
  - unfold onPageNavigatedWithinDocument. throws_steps.
  - unfold onConsoleAPICalled. throws_steps. apply throwsOnly_parseArgs.
  - unfold onExceptionThrown. throws_steps.
  - unfold onExecutionContextCreated. throws_steps.
  - intros e s'. rewrite destroyed_run. discriminate.
  - intros e s'. rewrite cleared_run. discriminate.
  - unfold onAttachedToTarget, NewWorker. throws_steps.
    apply throwsOnly_call. intros w1 e w'.
    apply NewFrameSession_throws. simpl. tauto.
  - unfold onDetachedFromTarget. throws_steps.
  - discriminate.
Qed.

(** X16.  The fatal errors of a frame session.  The construction of a
    session throws nothing but the error of a navigation of the frame
    manager, wrapped in "cannot handle frame navigation".  The loop of the
    events throws nothing but an error wrapped in one of five messages:
    that one, "cannot handle frame requested navigation", "unable to
    unmarshal JSON", "cannot create frame session (iframe)" and "cannot
    create frame session (worker)". *)
Theorem fatal_errors :
  (forall sess pg parentFS tid w e w',
     NewFrameSession sess pg parentFS tid w = Thrown e w' ->
     exists cause, e = wrapError "cannot handle frame navigation: " cause)
  /\ (forall events s e s',
        handleEvents events s = Thrown e s' -> wrappedIn fatalMessages e).
Proof.
  split.
  - intros sess pg parentFS tid w e w' Hrun.
    destruct (NewFrameSession_throws ["cannot handle frame navigation: "]
                sess pg parentFS tid w e w') as (message & cause & Hin & ->);
      [simpl; tauto | exact Hrun |].
    destruct Hin as [<- | []]. exists cause. reflexivity.
  - intros events s e s'. unfold handleEvents.
    apply (throwsOnly_forEach _ handleEvent (fun _ => True));
      [| apply Forall_forall; intros; exact I].
    intros event s1 _. apply throwsOnly_handleEvent.
Qed.

(** ** How a construction ends *)

Section Ends.

Context (I : FrameSession * World -> Prop) (T P : Prop).











End Ends.




Section Constructing.

Context (sid : SessionID) (pg : Page) (tid : TargetID).

(** A construction throws for the main frame of the page alone, and runs
    into a nil pointer for the main frame alone. *)
Let T : Prop := tid = page_targetID pg.
Let P : Prop := tid = page_targetID pg.
Let I := constructing sid pg tid.






















End Constructing.


(** ** The subscriptions of a session *)

#[local] Instance quiet_reflexive : Reflexive quiet.
Proof. intros s. repeat split. Qed.

#[local] Instance quiet_transitive : Transitive quiet.
Proof.
  intros s s1 s2 (? & ? & ?) (? & ? & ?). unfold quiet. repeat split; congruence.
Qed.

Lemma quiet_callNetworkManager c s : step quiet (callNetworkManager c) s.
Proof.
  unfold step, callNetworkManager, go_bind, self.
  destruct (networkManager (fst s)); repeat split.
Qed.

Ltac quiet_leaf :=
  idtac;
  lazymatch goal with
  | |- step quiet (callNetworkManager _) _ => apply quiet_callNetworkManager
  | |- step quiet (forEachErr _ _) _ =>
      apply (step_forEachErr quiet _ (fun _ => True));
        [intros ? ? _ | apply Forall_forall; intros; exact I]
  | |- step quiet (forEach _ _) _ =>
      apply (step_forEach quiet _ (fun _ => True));
        [intros ? ? _ | apply Forall_forall; intros; exact I]
  | |- step quiet (logged _ _) _ => unfold logged
  | |- step quiet (Do _) _ => repeat split
  | |- step quiet (debugf _) _ => repeat split
  | |- step quiet (modify_world _) _ => repeat split
  | |- step quiet (modify_self _) _ => repeat split
  | |- step quiet (ExecuteWithoutExpectationOnReply _ _) _ => repeat split
  | |- step quiet GetFrameTree _ => repeat split
  end.

Ltac quiet_steps := repeat (steps_with quiet_leaf).

Lemma quiet_handleFrameTree t : forall s, step quiet (handleFrameTree t) s.
Proof.
  induction t as [frame childFrames IH] using FrameTree_induction. intros s. simpl.
  apply step_bind; [typeclasses eauto .. | repeat split | intros _ s1 _].
  apply step_bind; [typeclasses eauto .. | | intros _ s2 _].
  { destruct (negb _); [unfold onFrameAttached; quiet_steps | apply step_ret; typeclasses eauto]. }
  apply step_bind; [typeclasses eauto .. | unfold onFrameNavigated; quiet_steps | intros _ s3 _].
  apply (step_forEach quiet handleFrameTree
           (fun t => forall s, step quiet (handleFrameTree t) s));
    [intros x s' Hx; apply Hx | exact IH].
Qed.

Lemma quiet_initOptions s : step quiet initOptions s.
Proof.
  unfold initOptions, updateViewport, emulateLocale, emulateTimezone, updateGeolocation,
    updateExtraHTTPHeaders, updateRequestInterception, updateOffline, updateHttpCredentials,
    updateEmulateMedia.
  quiet_steps.
Qed.

(** The steps of [NewFrameSession] after [initFrameTree]. *)
Lemma quiet_configured s :
  step quiet
    (orReturn (logged "NewFrameSession:initIsolatedWorld" (initIsolatedWorld utilityWorldName))
       (orReturn (logged "NewFrameSession:initDomains" initDomains)
          (orReturn (logged "NewFrameSession:initOptions" initOptions)
             (debugf "NewFrameSession" ;;
              return_ None)))) s.
Proof.
  apply step_orReturn; [typeclasses eauto .. | | intros s1 _].
  { unfold initIsolatedWorld. quiet_steps. }
  apply step_orReturn; [typeclasses eauto .. | | intros s2 _].
  { unfold initDomains. quiet_steps. }
  apply step_orReturn; [typeclasses eauto .. | | intros s3 _].
  { apply step_logged; [typeclasses eauto .. | intros; repeat split | apply quiet_initOptions]. }
  quiet_steps.
Qed.

Lemma initEvents_subscribes fs w :
  exists w1,
    initEvents (fs, w) = Returned tt (fs, w1)
    /\ subscriptions w1
       = subscriptions w
         ++ (session fs, ["Inspector.targetCrashed"])
            :: (if isMainFrame fs then [] else [(session fs, rendererEvents)]).
Proof.
  unfold initEvents, initRendererEvents, session_on. run. cbn [negb].
  destruct (isMainFrame fs); cbn [negb]; eexists; (split; [reflexivity |]);
    cbn [subscriptions set_subscriptions set_debug]; [| rewrite <- app_assoc]; reflexivity.
Qed.

Lemma initFrameTree_subscribes s s' :
  initFrameTree s = Returned None s' ->
  session (fst s') = session (fst s)
  /\ subscriptions (snd s')
     = subscriptions (snd s)
       ++ (if isMainFrame (fst s) then [(session (fst s), rendererEvents)] else []).
Proof.
  unfold initFrameTree. intros Hrun.
  apply go_bind_inv in Hrun as ([] & s1 & Hdebugf & Hrun). inversion Hdebugf; subst s1.
  apply go_bind_inv in Hrun as (err & s2 & HDo & Hrun). inversion HDo; subst s2.
  destruct err as [e |]; [discriminate |].
  apply go_bind_inv in Hrun as (r & s3 & Htree & Hrun). inversion Htree; subst s3.
  destruct r as [e | frameTree]; [discriminate |].
  apply go_bind_inv in Hrun as (fs & s4 & Hself & Hrun). inversion Hself; subst fs s4.
  cbn [fst snd] in Hrun. cbn [fst snd].
  destruct (isMainFrame (fst s)).
  - apply go_bind_inv in Hrun as ([] & s5 & Hwalk & Hrun).
    destruct frameTree as [t |].
    2: { apply go_bind_inv in Hwalk as (? & ? & _ & Hpanic). discriminate. }
    match type of Hwalk with
    | handleFrameTree t ?s3 = _ => pose proof (quiet_handleFrameTree t s3) as Hquiet
    end.
    unfold step in Hquiet. rewrite Hwalk in Hquiet.
    destruct Hquiet as (Hsession & _ & Hsubscriptions).
    cbn [final fst snd session subscriptions set_sent set_debug] in Hsession, Hsubscriptions.
    apply go_bind_inv in Hrun as ([] & s6 & Hevents & Hrun).
    inversion Hrun; subst s'. clear Hrun.
    unfold initRendererEvents, session_on in Hevents.
    cbv [go_bind debugf self modify_world] in Hevents. inversion Hevents; subst s6.
    cbn [fst snd subscriptions set_subscriptions set_debug].
    rewrite Hsession, Hsubscriptions. split; reflexivity.
  - inversion Hrun; subst s'. cbn [fst snd subscriptions set_sent set_debug].
    rewrite app_nil_r. split; reflexivity.
Qed.

(** The renderer events are subscribed to by [initFrameTree] when it has
    walked the frame tree for the main frame, and not otherwise. *)
Lemma initFrameTree_subscribed s :
  subscriptions (snd (final (initFrameTree s)))
  = subscriptions (snd s)
    ++ match initFrameTree s with
       | Returned None _ =>
           if isMainFrame (fst s) then [(session (fst s), rendererEvents)] else []
       | _ => []
       end.
Proof.
  destruct s as [fs w]. unfold initFrameTree, GetFrameTree, Do. run.
  destruct (cdpDo _ _ PageEnable) as [e0 |]; [cbn; rewrite app_nil_r; reflexivity |].
  cbn [fst snd].
  destruct (cdpGetFrameTree _ _) as [e1 | frameTree];
    [cbn; rewrite app_nil_r; reflexivity |].
  cbn [fst snd].
  destruct (isMainFrame fs); [| cbn; rewrite app_nil_r; reflexivity].
  destruct frameTree as [t |]; [| cbn; rewrite app_nil_r; reflexivity].
  match goal with
  | |- context [handleFrameTree t ?s0] =>
      pose proof (quiet_handleFrameTree t s0) as Hquiet; unfold step in Hquiet;
      destruct (handleFrameTree t s0) as [[] [fs1 w1] | e2 s1 | s1];
      destruct Hquiet as (Hsession & _ & Hquiet); cbn [final fst snd] in Hquiet, Hsession
  end.
  - unfold initRendererEvents, session_on. run.
    cbn [final fst snd subscriptions set_subscriptions set_debug].
    cbn [subscriptions set_sent set_debug session] in Hquiet, Hsession.
    rewrite Hquiet, Hsession. reflexivity.
  - cbn [final]. rewrite app_nil_r. exact Hquiet.
  - cbn [final]. rewrite app_nil_r. exact Hquiet.
Qed.

(** X18.  The events that reach the channel of a frame session.  A session
    that [NewFrameSession] returns has subscribed its channel twice at its
    CDP session: to the crash of the target, and then to the events of
    the renderer, once.  [initEvents] subscribes to the crash of the
    target and, for a session that is not the one of the main frame, to
    the events of the renderer right away.  [initFrameTree] subscribes
    the session of the main frame to the events of the renderer when it
    has walked the frame tree: it subscribes to nothing when it returns an
    error, when the walk throws and when there is no frame tree; for
    another session it never subscribes. *)
Theorem subscribed_once
    (sid : SessionID) (pg : Page) (parentFS : option FrameSession) (tid : TargetID)
    (w : World) :
  (forall child w',
     NewFrameSession (Some sid) pg parentFS tid w = Returned (inr child) w' ->
     subscriptions w'
     = subscriptions w ++ [(sid, ["Inspector.targetCrashed"]); (sid, rendererEvents)])
  /\ (forall fs w0,
        exists w1,
          initEvents (fs, w0) = Returned tt (fs, w1)
          /\ subscriptions w1
             = subscriptions w0
               ++ (session fs, ["Inspector.targetCrashed"])
                  :: (if isMainFrame fs then [] else [(session fs, rendererEvents)]))
  /\ (forall fs w0,
        subscriptions (snd (final (initFrameTree (fs, w0))))
        = subscriptions w0
          ++ match initFrameTree (fs, w0) with
             | Returned None _ =>
                 if isMainFrame fs then [(session fs, rendererEvents)] else []
             | _ => []
             end).
Proof.
  split; [| split; [apply initEvents_subscribes | intros fs w0; apply initFrameTree_subscribed]].
  intros child w'.
  rewrite NewFrameSession_run, construct_run. cbv zeta. cbn [session targetID blank].
  destruct (newNetworkManagerErr sid) as [e |]; [discriminate |].
  destruct (cdpGetWindowForTarget (sent w) sid tid) as [e | wid]; [discriminate |].
  match goal with
  | |- match furnish (?fs, ?w0) with _ => _ end = _ -> _ =>
      set (fs2 := fs); set (w2 := w0);
      destruct (furnish (fs2, w2)) as [[e |] [fs' w1] | e s1 | s1] eqn:Hfurnish;
      try discriminate
  end.
  intros Hrun. inversion Hrun; subst fs' w1. clear Hrun.
  unfold furnish in Hfurnish.
  apply go_bind_inv in Hfurnish as ([] & s1 & Hevents & Hfurnish).
  destruct (initEvents_subscribes fs2 w2) as (w3 & Hevents' & Hsubscribed).
  rewrite Hevents' in Hevents. inversion Hevents; subst s1. clear Hevents Hevents'.
  apply orReturn_inv in Hfurnish as ([fs4 w4] & Htree & Hfurnish).
  apply logged_inv, initFrameTree_subscribes in Htree as [Hsession Htree].
  pose proof (quiet_configured (fs4, w4)) as Hquiet. unfold step in Hquiet.
  rewrite Hfurnish in Hquiet. destruct Hquiet as (_ & _ & Hquiet).
  cbn [final fst snd] in Hquiet, Htree, Hsession.
  rewrite Hquiet, Htree, Hsubscribed.
  change (subscriptions w2) with (subscriptions w). change (session fs2) with sid.
  destruct (isMainFrame fs2); rewrite <- app_assoc; reflexivity.
Qed.
End MoreProperties.

(** ** The properties above on the example page *)


Lemma wellKeyed_populated : wellKeyed Example.populated.
Proof.
  intros k c Hlookup.
  change (({[ 1 := Example.mainContext; 2 := Example.utilityContext ]}
             : gmap ExecutionContextID ExecutionContext) !! k = Some c) in Hlookup.
  apply lookup_insert_Some in Hlookup as [[<- <-] | [_ Hlookup]]; [split; reflexivity |].
  apply lookup_singleton_Some in Hlookup as [<- <-]. split; reflexivity.
Qed.

Lemma events_keep_contexts_keyed_witness :
  wellKeyed
    (fst (final (handleEvents (H := Example.browser) (H0 := MoreExample.pageCollaborators)
                   MoreExample.pageLoad (Example.populated, Example.populatedWorld)))).
Proof.
  apply (events_keep_contexts_keyed (H := Example.browser)
           (H0 := MoreExample.pageCollaborators)), wellKeyed_populated.
Defined.

Lemma init_time_of_events_witness :
  exists fs' w',
    handleEvents (H := Example.browser) (H0 := MoreExample.pageCollaborators)
      MoreExample.pageLoad (Example.main, Example.theWorld) = Returned tt (fs', w')
    /\ initTime fs' = 5000000000.
Proof.
  destruct (handleEvents (H := Example.browser) (H0 := MoreExample.pageCollaborators)
              MoreExample.pageLoad (Example.main, Example.theWorld))
    as [[] [fs' w'] | e s | s] eqn:Hrun; [| vm_compute in Hrun; discriminate ..].
  exists fs', w'. split; [reflexivity |].
  rewrite (init_time_of_events (H := Example.browser) (H0 := MoreExample.pageCollaborators)
             MoreExample.pageLoad Example.main fs' Example.theWorld w' Hrun).
  reflexivity.
Defined.



Lemma harmless_events_return_witness :
  exists s',
    handleEvents (H := Example.browser) (H0 := MoreExample.pageCollaborators)
      [ FrameAttached "F3" "T0"; FrameStartedLoading "F3"; ExceptionThrown "boom";
        ExecutionContextDestroyed 2; FrameStoppedLoading "F3"; FrameDetached "F2";
        TargetCrashed; ExecutionContextsCleared; DetachedFromTarget "S1" ]
      (Example.populated, Example.populatedWorld) = Returned tt s'.
Proof.
  apply (harmless_events_return (H := Example.browser) (H0 := MoreExample.pageCollaborators)).
  repeat constructor.
Defined.

Lemma constructed_session_witness :
  networkManager Example.child = Some {| nm_session := "S1"; nm_parent := Some "S0" |}
  /\ parent Example.child = Some "T0"
  /\ childSessions Example.child = ∅
  /\ isolatedWorlds Example.child !! utilityWorldName = Some true.
Proof.
  destruct (constructed_session (H := Example.browser) "S1" Example.thePage
              (Some Example.main) "F1" Example.constructionWorld
              (final Example.constructed) Example.child)
    as (_ & _ & _ & Hparent & Hmanager & _ & _ & Hchildren & Hworld).
  - vm_compute. reflexivity.
  - split; [exact Hmanager |]. split; [exact Hparent |].
    split; [exact Hchildren | exact Hworld].
Defined.

Lemma isolated_world_initialised_witness :
  exists w',
    initIsolatedWorld (H := Example.browser) utilityWorldName (Example.main, Example.theWorld)
      = Returned None (Example.main, w')
    /\ sent w' = [("S0", PageSetLifecycleEventsEnabled true)].
Proof.
  destruct (isolated_world_initialised (H := Example.browser) utilityWorldName
              Example.main Example.theWorld) as [_ Haccepted].
  destruct (Haccepted eq_refl) as (_ & Hrepeated & _).
  destruct Hrepeated as (w' & Hrun & Hsent).
  - exists true. vm_compute. reflexivity.
  - exists w'. split; [exact Hrun | exact Hsent].
Defined.

Lemma live_contexts_witness :
  exists fs' w',
    handleEvents (H := Example.browser) (H0 := MoreExample.pageCollaborators)
      [ ExecutionContextCreated (Example.utilityCreated 3);
        ExecutionContextDestroyed 1;
        LifecycleEvent_ Example.loaded;
        ExecutionContextCreated (Example.utilityCreated 4) ]
      (Example.populated, Example.populatedWorld) = Returned tt (fs', w')
    /\ dom (contextIDToContext fs') = {[ 2; 3; 4 ]}.
Proof.
  destruct (handleEvents (H := Example.browser) (H0 := MoreExample.pageCollaborators)
              [ ExecutionContextCreated (Example.utilityCreated 3);
                ExecutionContextDestroyed 1;
                LifecycleEvent_ Example.loaded;
                ExecutionContextCreated (Example.utilityCreated 4) ]
              (Example.populated, Example.populatedWorld))
    as [[] [fs' w'] | e s | s] eqn:Hrun; [| vm_compute in Hrun; discriminate ..].
  exists fs', w'. split; [reflexivity |].
  rewrite (live_contexts (H := Example.browser) (H0 := MoreExample.pageCollaborators)
             _ _ _ _ _ Hrun).
  vm_compute. reflexivity.
Defined.


Lemma subscribed_once_witness :
  subscriptions (final Example.constructed)
  = [("S1", ["Inspector.targetCrashed"]); ("S1", rendererEvents)].
Proof.
  destruct (subscribed_once (H := Example.browser) "S1" Example.thePage (Some Example.main)
              "F1" Example.constructionWorld) as [Hconstructed _].
  apply (Hconstructed Example.child). vm_compute. reflexivity.
Defined.


Lemma construction_commands_witness :
  exists l0,
    sent (final (NewFrameSession (H := Example.browser) (Some "S1") Example.thePage
                   (Some Example.main) "F1" Example.constructionWorld))
    = sent Example.constructionWorld ++ l0 ++ [("S1", RuntimeRunIfWaitingForDebugger)]
    /\ Forall (fun c => snd c <> RuntimeRunIfWaitingForDebugger) l0.
Proof.
  destruct (construction_commands (H := Example.browser) "S1" Example.thePage
              (Some Example.main) "F1" Example.constructionWorld)
    as (l & Hsent & _ & Hlast).
  destruct (Hlast Example.child (final Example.constructed)) as (l0 & -> & Hl0 & _);
    [vm_compute; reflexivity |].
  exists l0. split; [exact Hsent | exact Hl0].
Defined.

Lemma domains_enabled_witness :
  exists w',
    initDomains (H := Example.browser) (Example.main, Example.theWorld)
      = Returned None (Example.main, w')
    /\ sent w' = commandsOn "S0" domains.
Proof.
  destruct (domains_enabled (H := Example.browser) Example.main Example.theWorld)
    as (err & done & Hrun & _ & _ & Hall & Hrefused & _).
  destruct err as [e |].
  - destruct (Hrefused e eq_refl) as (before & action & e0 & _ & Hreply & _). discriminate.
  - rewrite (Hall eq_refl) in Hrun. eexists. split; [exact Hrun | reflexivity].
Defined.

Lemma fatal_errors_witness :
  exists s',
    handleEvents (H := Example.browser) (H0 := MoreExample.pageCollaborators)
      [ LifecycleEvent_ Example.loaded;
        ExecutionContextCreated MoreExample.garbled;
        ExecutionContextsCleared ]
      (Example.populated, Example.populatedWorld)
    = Thrown (wrapError "unable to unmarshal JSON: "
                (errorString "unexpected end of JSON input")) s'
    /\ wrappedIn fatalMessages
         (wrapError "unable to unmarshal JSON: "
            (errorString "unexpected end of JSON input")).
Proof.
  destruct (handleEvents (H := Example.browser) (H0 := MoreExample.pageCollaborators)
              [ LifecycleEvent_ Example.loaded;
                ExecutionContextCreated MoreExample.garbled;
                ExecutionContextsCleared ]
              (Example.populated, Example.populatedWorld))
    as [[] s' | e s' | s'] eqn:Hrun;
    [vm_compute in Hrun; discriminate | | vm_compute in Hrun; discriminate].
  pose proof (proj2 (fatal_errors (H := Example.browser)
                       (H0 := MoreExample.pageCollaborators)) _ _ _ _ Hrun) as Hfatal.
  assert (e = wrapError "unable to unmarshal JSON: "
                (errorString "unexpected end of JSON input")) as ->
    by (vm_compute in Hrun; congruence).
  exists s'. split; [reflexivity | exact Hfatal].
Defined.
